(** * The DataSet engine of godata: SQL assembly, parameters, cursor, binding

    A shallow embedding of the DataSet engine.  The repository carries two
    editions of the engine: the one of [src/godata.go] (module [V1] below,
    where it differs) and the later one that adds transactions, contexts,
    batches and the PostgreSQL placeholder translation (module [V2]).
    Everything both editions share is defined once.

    Go strings are byte strings and are modelled by [string]; Go [int] is
    modelled by [Z], with the 64-bit wrap-around written out where the code
    does arithmetic on it. *)

From Stdlib Require Import ZArith String Ascii DecimalString Lia.
From stdpp Require Import base option list gmap strings.

Open Scope string_scope.
Open Scope Z_scope.

(** ** Go strings *)

Module GoString.

(** [len(s)] *)
Definition len (s : string) : Z := Z.of_nat (String.length s).

(** [strings.HasPrefix(s, p)] *)
Fixpoint HasPrefix (s p : string) {struct p} : bool :=
  match p with
  | EmptyString => true
  | String c p' =>
      match s with
      | EmptyString => false
      | String d s' => if Ascii.eqb c d then HasPrefix s' p' else false
      end
  end.

(** Position of the first occurrence of [p] in [s], if any. *)
Fixpoint index_of (s p : string) : option nat :=
  if HasPrefix s p then Some O
  else match s with
       | EmptyString => None
       | String _ s' => S <$> index_of s' p
       end.

(** [strings.Index(s, p)]: the first occurrence, or -1. *)
Definition Index (s p : string) : Z :=
  match index_of s p with
  | Some k => Z.of_nat k
  | None => -1
  end.

Fixpoint str_take (n : nat) (s : string) : string :=
  match n, s with
  | S n', String c s' => String c (str_take n' s')
  | _, _ => EmptyString
  end.

Fixpoint str_drop (n : nat) (s : string) : string :=
  match n, s with
  | S n', String _ s' => str_drop n' s'
  | _, _ => s
  end.

(** [s[:i]] and [s[i:]], for [0 <= i <= len(s)] (Go panics otherwise; every
    use below is within range). *)
Definition slice_to (s : string) (i : Z) : string := str_take (Z.to_nat i) s.
Definition slice_from (s : string) (i : Z) : string := str_drop (Z.to_nat i) s.

(** [s[i]], for an index that is in range. *)
Definition byte_at (s : string) (i : Z) : option ascii :=
  if i <? 0 then None else String.get (Z.to_nat i) s.

(** [strings.ReplaceAll(s, old, new)] for a non-empty [old]: the
    non-overlapping occurrences are replaced from left to right.  [skip]
    counts the bytes of the occurrence that is being stepped over. *)
Fixpoint replace_go (skip : nat) (s old new : string) : string :=
  match s with
  | EmptyString => EmptyString
  | String c s' =>
      match skip with
      | S k => replace_go k s' old new
      | O =>
          if HasPrefix s old
          then new +:+ replace_go (Nat.pred (String.length old)) s' old new
          else String c (replace_go O s' old new)
      end
  end.

Definition ReplaceAll (s old new : string) : string :=
  match old with
  | EmptyString => s
  | _ => replace_go O s old new
  end.

(** [fmt.Sprintf("%d", n)] *)
Definition Sprintf_d (n : Z) : string := NilZero.string_of_int (Z.to_int n).

Fixpoint zeros (n : nat) : string :=
  match n with
  | O => EmptyString
  | S n' => String "0" (zeros n')
  end.

(** [fmt.Sprintf("%04d", n)] for [0 <= n]: at least four digits, padded
    with zeros on the left. *)
Definition Sprintf_04d (n : Z) : string :=
  let d := Sprintf_d n in
  zeros (4 - String.length d) +:+ d.

(** The class [\w] of the regexp package: [0-9A-Za-z_]. *)
Definition is_word (c : ascii) : bool :=
  let n := nat_of_ascii c in
  ((48 <=? n) && (n <=? 57) || (65 <=? n) && (n <=? 90)
   || (97 <=? n) && (n <=? 122) || (n =? 95))%nat.

(** The two [strings.Replace(.., -1)] calls that close [GetSql] and
    [GetSqlMasterDetail]: every CR becomes LF, then every LF becomes LF
    followed by a space. *)
Definition CR : string := String (ascii_of_nat 13) EmptyString.
Definition LF : string := String (ascii_of_nat 10) EmptyString.

Definition indent_newlines (s : string) : string :=
  ReplaceAll (ReplaceAll s CR LF) LF (LF +:+ " ").

End GoString.

Import GoString.

(** ** Placeholder translation (edition 2) *)

(** The dialect constants are declared outside [src/]; the engine names only
    [POSTGRESQL], every other dialect is one of [OtherDialect]. *)
Inductive DialectType := POSTGRESQL | OtherDialect (code : nat).

#[global] Instance DialectType_eq_dec : EqDecision DialectType.
Proof. solve_decision. Defined.

(** The inner [switch] of [replaceParamPG]: the bytes that may follow a
    parameter token. *)
Definition is_delim (c : ascii) : bool :=
  match c with
  | " "%char | ","%char | "("%char | ")"%char
  | "="%char | "|"%char | "["%char | "]"%char => true
  | _ => false
  end.

(** [replaceParamPG(sql, param, paramNumber)].  The function calls itself on
    the text right of the first occurrence; [fuel] bounds that recursion and
    [None] stands for a run that has not returned within it. *)
Fixpoint replaceParamPG (fuel : nat) (sql param : string) (paramNumber : Z)
  : option (string * Z) :=
  match fuel with
  | O => None
  | S fuel' =>
      let pSize := len param in
      let i := Index sql param in
      if i =? -1 then Some (sql, paramNumber)
      else
        let ok :=
          if i =? len sql - pSize then true
          else match byte_at sql (i + pSize) with
               | Some c => is_delim c
               | None => false
               end in
        let start := slice_to sql i in
        match replaceParamPG fuel' (slice_from sql (i + pSize)) param paramNumber with
        | None => None
        | Some (end_, paramNumber') =>
            Some (if ok
                  then start +:+ "$" +:+ Sprintf_d paramNumber' +:+ end_
                  else start +:+ param +:+ end_,
                  paramNumber')
        end
  end.

(** A call of [replaceParamPG] run to its end: the recursion consumes at
    least one byte of [sql] per call when [param] is not empty (lemma
    [replaceParamPG_enough] below), so [len(sql) + 1] calls suffice. *)
Definition replaceParamPG_run (sql param : string) (paramNumber : Z) : string * Z :=
  default (sql, paramNumber)
          (replaceParamPG (S (String.length sql)) sql param paramNumber).

(** The loop of [replaceAllParam] over [Params.List], from position [i] on. *)
Fixpoint replaceAllParam_loop (i : Z) (names : list string) (newSql : string) : string :=
  match names with
  | [] => newSql
  | name :: rest =>
      replaceAllParam_loop (i + 1) rest
        (fst (replaceParamPG_run newSql (":" +:+ name) (i + 1)))
  end.

(** The [switch dialect] of [replaceAllParam]: only POSTGRESQL translates. *)
Definition replaceParams (dialect : DialectType) (names : list string) (sql : string)
  : string :=
  match dialect with
  | POSTGRESQL => replaceAllParam_loop 0 names sql
  | _ => sql
  end.

(** ** Outcomes of Go code

    A Go call either returns or panics.  Errors are ordinary return values
    ([option error], [None] for [nil]). *)

Inductive outcome (A : Type) : Type :=
  | Returned (a : A)
  | Panicked (msg : string).
Arguments Returned {A} a.
Arguments Panicked {A} msg.

#[global] Instance outcome_ret : MRet outcome := @Returned.
#[global] Instance outcome_bind : MBind outcome :=
  fun A B f m => match m with
                 | Returned a => f a
                 | Panicked msg => Panicked msg
                 end.

(** An [error] value: one handed over by the driver, or one the engine makes
    with [fmt.Errorf] or [errors.New]. *)
Inductive error : Type :=
  | DriverError (msg : string)
  | ErrorString (msg : string).

(** The [Error()] method. *)
Definition Error (e : error) : string :=
  match e with
  | DriverError msg => msg
  | ErrorString msg => msg
  end.

(** [fmt.Errorf("could not open dataset %v\n", err)] *)
Definition could_not_open (err : error) : error :=
  ErrorString ("could not open dataset " +:+ Error err +:+ LF).

(** ** Data model *)

(** What a [Variant] boxes.  A slice or array carries whether its element
    type is of kind string, which [JoinSlice] reads through [reflect]; the
    elements of a slice of [any] are of kind interface whatever they hold. *)
#[warning="-register-all"]
Inductive value : Type :=
  | VNil
  | VInt (n : Z)
  | VString (s : string)
  | VBool (b : bool)
  | VSlice (of_strings : bool) (elems : list value).

Record Variant := { Value : value }.

(** [fmt.Sprintf("%v", x)] on the boxed values. *)
Fixpoint Sprintf_v (x : value) : string :=
  match x with
  | VNil => "<nil>"
  | VInt n => Sprintf_d n
  | VString s => s
  | VBool true => "true"
  | VBool false => "false"
  | VSlice _ xs =>
      "[" +:+ (fix words (l : list value) : string :=
                 match l with
                 | [] => ""
                 | [y] => Sprintf_v y
                 | y :: l' => Sprintf_v y +:+ " " +:+ words l'
                 end) xs +:+ "]"
  end.

(** [strings.Join(elems, sep)] *)
Fixpoint Join (elems : list string) (sep : string) : string :=
  match elems with
  | [] => ""
  | [e] => e
  | e :: rest => e +:+ sep +:+ Join rest sep
  end.

(** [JoinSlice]: every element is quoted when the element type of the
    slice is of kind string ([of_strings]), none is otherwise; the list is
    joined by a comma and a space. *)
Definition JoinSlice (of_strings : bool) (list : list value) : string :=
  Join (map (fun x => if of_strings
                      then "'" +:+ Sprintf_v x +:+ "'"
                      else Sprintf_v x) list) ", ".

Inductive ParamType := IN | OUT | INOUT.

Module Param.
Record t := mk {
  Name : string;
  Value : Variant;
  ParamType : ParamType;
  Values : list Variant
}.
End Param.

Module Params.
Record t := mk {
  List : list Param.t;
  BatchSize : Z
}.
End Params.

Module Macro.
Record t := mk {
  Name : string;
  Value : Variant
}.
End Macro.

Definition loc := nat.

Module MasterSource.
(** [DataSource] points to the master DataSet. *)
Record t := mk {
  DataSource : option loc;
  MasterFields : list string;
  DetailFields : list string
}.
End MasterSource.

Inductive DataType := Text | Integer | Float | DateTime | Boolean.

(** What [ColumnType.ScanType()] reports for a column: the [reflect.Kind],
    and for a struct whether it is [time.Time]. *)
Inductive ScanKind :=
  | ScanString | ScanInt | ScanInt8 | ScanInt16 | ScanInt32 | ScanInt64
  | ScanFloat32 | ScanFloat64 | ScanStruct (is_time : bool) | ScanBool
  | ScanOther.

Module Field.
Record t := mk {
  Name : string;
  IDataType : option DataType;
  DataType : option ScanKind;
  Order : Z;
  Index : Z
}.
End Field.

Definition Row := gmap string Variant.

Definition ConnId := nat.
Definition TxId := nat.
Definition StmtId := nat.
Definition Context := nat.

(** [Conn]: the handle [DB], the [log] switch and the dialect. *)
Module Conn.
Record t := mk {
  DB : ConnId;
  log : bool;
  Dialect : DialectType
}.
End Conn.

Module Transaction.
Record t := mk {
  tx : TxId;
  Conn : option Conn.t
}.
End Transaction.

(** The SQL text buffer.

    Modelled from the spec: the type [Strings] with [Add], [Clear] and [Text]
    is declared outside [src/]; it is "an ordered sequence of text fragments
    concatenated into one statement". *)
Module Strings.
Definition t := list string.
Definition Add (s : t) (fragment : string) : t := (s ++ [fragment])%list.
Definition Clear (s : t) : t := [].
Definition Text (s : t) : string := foldr String.append "" s.
End Strings.

Record DataSet := mkDataSet {
  Connection : option Conn.t;
  Tx : option Transaction.t;
  Ctx : option Context;
  Sql : Strings.t;
  Fields : list Field.t;
  Params : Params.t;
  Macros : list Macro.t;
  Rows : list Row;
  Index : Z;
  Recno : Z;
  MasterSource : MasterSource.t;
  IndexFieldNames : string;
  Silent : bool
}.

(** Modelled from the spec: the constructors [NewFields], [NewParams],
    [NewMacros] and [NewMasterSource] are declared outside [src/]; they make
    the empty containers a fresh DataSet starts from ("discarded on Close",
    "cleared on Close"). *)
Definition NewFields : list Field.t := [].
Definition NewParams : Params.t := Params.mk [] 0.
Definition NewMacros : list Macro.t := [].
Definition NewMasterSource : MasterSource.t := MasterSource.mk None [] [].

(** Modelled from the spec: the declaration of [ParamType] is outside
    [src/]; the spec calls the parameters [Prepare] appends input parameters,
    so [IN] is the zero value of the type. *)
Definition ParamType_zero : ParamType := IN.

(** The methods of [Params], [Fields], [Field] and [Variant] the engine calls
    and that are declared outside [src/]. *)
Class Helpers := {
  (** [Params.SetInputParam(name, value)] *)
  SetInputParam : string -> value -> Params.t -> Params.t;
  (** [FieldByName(name).AsValue()] on a DataSet *)
  FieldAsValue : DataSet -> string -> value;
  (** [Variant.AsString()] *)
  AsString : value -> string;
  (** the lines [Params.PrintParam()] prints *)
  PrintParam : Params.t -> list string;
  (** [Fields.Add(name)]: the field set after the call and the position of
      the field it returns *)
  Fields_Add : list Field.t -> string -> list Field.t * nat;
  (** [preprocesssql.PreprocessSQL(sql, ...)] of the external package: the
      names of [Params.Items], or an error *)
  PreprocessSQL : string -> list string + error;
  (** [sqlparser.Parse(sql)] of the external package, reduced to what
      [CreateFields] reads: the alias or column name of every aliased
      expression of a SELECT, or an error *)
  SelectExprNames : string -> list string + error
}.

(** ** Cursor *)

(** Go's [int] is 64 bits wide and wraps around. *)
Definition wrap_int (z : Z) : Z := (z + 2 ^ 63) mod 2 ^ 64 - 2 ^ 63.

Definition with_cursor (ds : DataSet) (index recno : Z) : DataSet :=
  mkDataSet (Connection ds) (Tx ds) (Ctx ds) (Sql ds) (Fields ds) (Params ds)
            (Macros ds) (Rows ds) index recno (MasterSource ds)
            (IndexFieldNames ds) (Silent ds).

Definition with_Rows (ds : DataSet) (rows : list Row) : DataSet :=
  mkDataSet (Connection ds) (Tx ds) (Ctx ds) (Sql ds) (Fields ds) (Params ds)
            (Macros ds) rows (Index ds) (Recno ds) (MasterSource ds)
            (IndexFieldNames ds) (Silent ds).

Definition with_Fields (ds : DataSet) (fields : list Field.t) : DataSet :=
  mkDataSet (Connection ds) (Tx ds) (Ctx ds) (Sql ds) fields (Params ds)
            (Macros ds) (Rows ds) (Index ds) (Recno ds) (MasterSource ds)
            (IndexFieldNames ds) (Silent ds).

Definition with_Params (ds : DataSet) (params : Params.t) : DataSet :=
  mkDataSet (Connection ds) (Tx ds) (Ctx ds) (Sql ds) (Fields ds) params
            (Macros ds) (Rows ds) (Index ds) (Recno ds) (MasterSource ds)
            (IndexFieldNames ds) (Silent ds).

Definition Count (ds : DataSet) : Z := Z.of_nat (length (Rows ds)).

Definition Bof (ds : DataSet) : bool := (Count ds =? 0) || (Recno ds =? 1).

Definition Eof (ds : DataSet) : bool := (Count ds =? 0) || (Count ds <? Recno ds).

Definition IsEmpty (ds : DataSet) : bool := Count ds =? 0.

Definition IsNotEmpty (ds : DataSet) : bool := 0 <? Count ds.

Definition First (ds : DataSet) : DataSet :=
  with_cursor ds 0 (if 0 <? Count ds then 1 else 0).

Definition Next (ds : DataSet) : DataSet :=
  if negb (Eof ds)
  then with_cursor ds (wrap_int (Index ds + 1)) (wrap_int (Recno ds + 1))
  else ds.

Definition Previous (ds : DataSet) : DataSet :=
  if negb (Bof ds)
  then with_cursor ds (wrap_int (Index ds - 1)) (wrap_int (Recno ds - 1))
  else ds.

(** ** Close *)

(** [Close]: the cursor, the SQL buffer, the rows and the field, parameter,
    macro and master-source sets are all reset. *)
Definition Close (ds : DataSet) : DataSet :=
  mkDataSet (Connection ds) (Tx ds) (Ctx ds) (Strings.Clear (Sql ds))
            NewFields NewParams NewMacros [] 0 0 NewMasterSource ""
            (Silent ds).

(** [CloseNoClearSQL] (edition 2): as [Close], without [ds.Sql.Clear()]. *)
Definition CloseNoClearSQL (ds : DataSet) : DataSet :=
  mkDataSet (Connection ds) (Tx ds) (Ctx ds) (Sql ds)
            NewFields NewParams NewMacros [] 0 0 NewMasterSource ""
            (Silent ds).

(** ** Bound arguments *)

(** The second argument of [sql.Named]: the value itself, or an [sql.Out]. *)
Inductive ArgValue :=
  | ArgIn (v : value)
  | ArgOut (Dest : value) (In : bool).

Record NamedArg := Named { Arg_Name : string; Arg_Value : ArgValue }.

(** The [switch] on [ParamType] shared by [GetParams] and [GetParamsBatch]. *)
Definition bind_arg (key : string) (v : value) (t : ParamType) : NamedArg :=
  match t with
  | IN => Named key (ArgIn v)
  | OUT => Named key (ArgOut v false)
  | INOUT => Named key (ArgOut v true)
  end.

Definition GetParams (ds : DataSet) : list NamedArg :=
  map (fun p => bind_arg (Param.Name p) (Value (Param.Value p)) (Param.ParamType p))
      (Params.List (Params ds)).

(** [GetParamsBatch(index)]: [Values[index]] of every parameter; indexing
    with a negative index or past the end of [Values] panics. *)
Fixpoint GetParamsBatch_loop (index : Z) (l : list Param.t) : outcome (list NamedArg) :=
  match l with
  | [] => Returned []
  | p :: l' =>
      match (if index <? 0 then None else Param.Values p !! Z.to_nat index) with
      | None => Panicked "index out of range"
      | Some v =>
          rest ← GetParamsBatch_loop index l';
          mret (bind_arg (Param.Name p) (Value v) (Param.ParamType p) :: rest)
      end
  end.

Definition GetParamsBatch (ds : DataSet) (index : Z) : outcome (list NamedArg) :=
  GetParamsBatch_loop index (Params.List (Params ds)).

(** ** SQL assembly *)

Section Assembly.
Context `{Helpers}.

(** One round of the macro loop of [GetSql]. *)
Definition expandMacro (sql : string) (m : Macro.t) : string :=
  match Value (Macro.Value m) with
  | VSlice of_strings elems =>
      ReplaceAll sql ("&" +:+ Macro.Name m) (JoinSlice of_strings elems)
  | v => ReplaceAll sql ("&" +:+ Macro.Name m) (AsString v)
  end.

Definition param_names (ds : DataSet) : list string :=
  map Param.Name (Params.List (Params ds)).

(** The loop of [GetSqlMasterDetail] from index [i] on, [rest] being
    [MasterFields[i:]] and [n] being [len(MasterFields)].  [master] is what
    [MasterSource.DataSource] points to. *)
Fixpoint masterDetail_loop (master : option DataSet) (n : Z) (detail : list string)
         (i : Z) (rest : list string) (sqlWhereMasterDetail : string)
         (params : Params.t) : outcome (string * Params.t) :=
  match rest with
  | [] => Returned (sqlWhereMasterDetail, params)
  | masterField :: rest' =>
      let alias := masterField +:+ Sprintf_04d i in
      match detail !! Z.to_nat i with
      | None => Panicked "index out of range"
      | Some detailField =>
          let where_ :=
            if i =? n - 1
            then sqlWhereMasterDetail +:+ detailField +:+ " = :" +:+ alias
            else sqlWhereMasterDetail +:+ detailField +:+ " = :" +:+ alias +:+ " and " in
          match master with
          | None => Panicked "invalid memory address or nil pointer dereference"
          | Some m =>
              masterDetail_loop master n detail (i + 1) rest' where_
                (SetInputParam alias (FieldAsValue m masterField) params)
          end
      end
  end.

(** The body of [GetSqlMasterDetail] between the call of [GetSql] and the
    closing normalisation: the text, the parameters and the lines
    printed. *)
Definition masterDetail_wrap (heap : gmap loc DataSet) (ds : DataSet) (sql : string)
  : outcome (string * Params.t * list string) :=
  let ms := MasterSource ds in
  match MasterSource.DataSource ms with
  | None => Returned (sql, Params ds, [])
  | Some l =>
      if negb (length (MasterSource.MasterFields ms) =? 0)%nat
         || negb (length (MasterSource.DetailFields ms) =? 0)%nat
      then
        '(where_, params) ←
          masterDetail_loop (heap !! l)
            (Z.of_nat (length (MasterSource.MasterFields ms)))
            (MasterSource.DetailFields ms) 0
            (MasterSource.MasterFields ms) "" (Params ds);
        mret (if String.eqb where_ "" then sql
              else "select * from (" +:+ sql +:+ ") t where " +:+ where_,
              params, [])
      else Returned (sql, Params ds,
                     ["MasterFields or DetailFields field cannot be empty"])
  end.

End Assembly.

(** The regexp [ :(\w+)] of edition 1's [Prepare], as the automaton that
    finds its leftmost non-overlapping matches; the result lists the
    submatch of every match. *)
Inductive scan_state :=
  | Idle
  | AfterSpace
  | AfterColon
  | InName (acc : string).

Definition restart (c : ascii) : scan_state :=
  if Ascii.eqb c " " then AfterSpace else Idle.

Fixpoint FindAllStringSubmatch (st : scan_state) (s : string) : list string :=
  match s with
  | EmptyString =>
      match st with
      | InName acc => [acc]
      | _ => []
      end
  | String c s' =>
      match st with
      | InName acc =>
          if is_word c
          then FindAllStringSubmatch (InName (acc +:+ String c "")) s'
          else acc :: FindAllStringSubmatch (restart c) s'
      | AfterColon =>
          if is_word c
          then FindAllStringSubmatch (InName (String c "")) s'
          else FindAllStringSubmatch (restart c) s'
      | AfterSpace =>
          if Ascii.eqb c ":"
          then FindAllStringSubmatch AfterColon s'
          else FindAllStringSubmatch (restart c) s'
      | Idle => FindAllStringSubmatch (restart c) s'
      end
  end.

(** The parameter [Prepare] appends for a name. *)
Definition discovered (paramName : string) : Param.t :=
  Param.mk paramName {| Value := VString "" |} ParamType_zero [].

Definition append_params (ds : DataSet) (names : list string) : DataSet :=
  with_Params ds
    (Params.mk (Params.List (Params ds) ++ map discovered names)%list
               (Params.BatchSize (Params ds))).

(** ** The connection provider *)

(** Where a statement is sent: the [*sql.DB] of a [Conn] or a [*sql.Tx]. *)
Inductive Target :=
  | OnDB (db : ConnId)
  | OnTx (tx : TxId).

(** What the engine reads from a [*sql.Rows]: the columns with their scan
    kinds and the records, one value per column. *)
Record RowSet := mkRowSet {
  Columns : list (string * ScanKind);
  Records : list (list value)
}.

(** [database/sql] and [Conn.Open], as functions of the state of the server
    and the pool.  Results are Go's pairs: a handle and an error. *)
Class Driver (Server : Type) := {
  drv_Query : Server -> Target -> option Context -> string -> list NamedArg ->
              Server * (option RowSet * option error);
  drv_Ping : Server -> ConnId -> option Context -> Server * option error;
  drv_Open : Server -> ConnId -> Server * option error;
  drv_Prepare : Server -> Target -> option Context -> string ->
                Server * (option StmtId * option error);
  drv_StmtExec : Server -> StmtId -> option Context -> list NamedArg ->
                 Server * option error
}.

(** The calls the engine makes, in the order it makes them. *)
Inductive Event :=
  | EvQuery (t : Target) (ctx : option Context) (sql : string) (args : list NamedArg)
  | EvPing (db : ConnId) (ctx : option Context)
  | EvOpen (db : ConnId)
  | EvPrepare (t : Target) (ctx : option Context) (sql : string)
  | EvStmtExec (stmt : StmtId) (ctx : option Context) (args : list NamedArg)
  | EvStmtClose (stmt : StmtId)
  | EvRowsClose.

Record World (Server : Type) := mkWorld {
  server : Server;
  heap : gmap loc DataSet;
  stdout : list string;
  trace : list Event
}.
Arguments mkWorld {Server}.
Arguments server {Server}.
Arguments heap {Server}.
Arguments stdout {Server}.
Arguments trace {Server}.

(** Engine code: a function of the world that returns or panics. *)
Definition M (Server A : Type) : Type := World Server -> outcome (A * World Server).

#[global] Instance M_ret {Server} : MRet (M Server) :=
  fun A a w => Returned (a, w).
#[global] Instance M_bind {Server} : MBind (M Server) :=
  fun A B f m w => match m w with
                   | Returned (a, w') => f a w'
                   | Panicked msg => Panicked msg
                   end.

Definition nil_dereference : string :=
  "invalid memory address or nil pointer dereference".

Section Primitives.
Context {Server : Type} `{Driver Server}.

Definition lift {A} (o : outcome A) : M Server A :=
  fun w => match o with
           | Returned a => Returned (a, w)
           | Panicked msg => Panicked msg
           end.

(** Dereferencing a pointer that may be nil. *)
Definition deref {A} (p : option A) : M Server A :=
  match p with
  | Some a => mret a
  | None => lift (Panicked nil_dereference)
  end.

Definition get_heap : M Server (gmap loc DataSet) :=
  fun w => Returned (heap w, w).

Definition get_ds (l : loc) : M Server DataSet :=
  fun w => match heap w !! l with
           | Some ds => Returned (ds, w)
           | None => Panicked nil_dereference
           end.

Definition put_ds (l : loc) (ds : DataSet) : M Server unit :=
  fun w => Returned (tt, mkWorld (server w) (<[l:=ds]> (heap w)) (stdout w) (trace w)).

Definition Println (lines : list string) : M Server unit :=
  fun w => Returned (tt, mkWorld (server w) (heap w) (stdout w ++ lines)%list (trace w)).

Definition emit (e : Event) (s : Server) (w : World Server) : World Server :=
  mkWorld s (heap w) (stdout w) (trace w ++ [e])%list.

Definition Query (t : Target) (ctx : option Context) (sql : string)
           (args : list NamedArg) : M Server (option RowSet * option error) :=
  fun w => let '(s, r) := drv_Query (server w) t ctx sql args in
           Returned (r, emit (EvQuery t ctx sql args) s w).

Definition Ping (db : ConnId) (ctx : option Context) : M Server (option error) :=
  fun w => let '(s, r) := drv_Ping (server w) db ctx in
           Returned (r, emit (EvPing db ctx) s w).

Definition Conn_Open (db : ConnId) : M Server (option error) :=
  fun w => let '(s, r) := drv_Open (server w) db in
           Returned (r, emit (EvOpen db) s w).

Definition Prepare_stmt (t : Target) (ctx : option Context) (sql : string)
  : M Server (option StmtId * option error) :=
  fun w => let '(s, r) := drv_Prepare (server w) t ctx sql in
           Returned (r, emit (EvPrepare t ctx sql) s w).

(** [stmt.Exec(args...)] or [stmt.ExecContext(ctx, args...)]; a nil
    statement is dereferenced. *)
Definition Stmt_Exec (stmt : option StmtId) (ctx : option Context)
           (args : list NamedArg) : M Server (option error) :=
  match stmt with
  | None => lift (Panicked nil_dereference)
  | Some st =>
      fun w => let '(s, r) := drv_StmtExec (server w) st ctx args in
               Returned (r, emit (EvStmtExec st ctx args) s w)
  end.

(** [stmt.Close()] and [rows.Close()]; a nil receiver is dereferenced. *)
Definition Stmt_Close (stmt : option StmtId) : M Server unit :=
  match stmt with
  | None => lift (Panicked nil_dereference)
  | Some st => fun w => Returned (tt, emit (EvStmtClose st) (server w) w)
  end.

Definition Rows_Close (rows : option RowSet) : M Server unit :=
  match rows with
  | None => lift (Panicked nil_dereference)
  | Some _ => fun w => Returned (tt, emit EvRowsClose (server w) w)
  end.

End Primitives.

(** ** Scanning rows *)

(** [strings.ToUpper] on a text of ASCII bytes, where it maps the letters
    [a] to [z] and nothing else.  On other texts Go maps rune by rune with
    the Unicode tables, which is not modelled: what is proved of the keys of
    a row is proved for ASCII column names. *)
Definition upper_byte (c : ascii) : ascii :=
  let n := nat_of_ascii c in
  if ((97 <=? n) && (n <=? 122))%nat then ascii_of_nat (n - 32) else c.

Fixpoint ToUpper (s : string) : string :=
  match s with
  | EmptyString => EmptyString
  | String c s' => String (upper_byte c) (ToUpper s')
  end.

(** The row a record becomes: the upper-cased column name maps to the
    value. *)
Definition row_of (columns : list (string * ScanKind)) (record : list value) : Row :=
  foldl (fun row cv => <[ToUpper (fst (fst cv)) := {| Value := snd cv |}]> row)
        ∅ (zip columns record).

(** The [switch] on the scan kind in edition 2's [scan]. *)
Definition auto_type (k : ScanKind) : option DataType :=
  match k with
  | ScanString => Some Text
  | ScanInt | ScanInt8 | ScanInt16 | ScanInt32 | ScanInt64 => Some Integer
  | ScanFloat32 | ScanFloat64 => Some Float
  | ScanStruct true => Some DateTime
  | ScanBool => Some Boolean
  | _ => None
  end.

(** ** Struct binding *)

(** What [reflect] shows of a destination: its type and its value. *)
Inductive BasicKind :=
  | BBool | BInt | BInt8 | BInt16 | BInt32 | BInt64
  | BFloat32 | BFloat64 | BString.

(** A struct field is its name, its [column] tag, whether it is embedded, and
    its type. *)
#[warning="-register-all"]
Inductive GoType : Type :=
  | TBasic (k : BasicKind) (name : string)
  | TPointer (elem : GoType)
  | TSlice (elem : GoType)
  | TArray (len : nat) (elem : GoType)
  | TStruct (name : string) (fields : list (string * string * bool * GoType))
  | TOther (name : string).

Definition StructField : Type := string * string * bool * GoType.
Definition sf_Name (f : StructField) : string := fst (fst (fst f)).
Definition sf_Tag_column (f : StructField) : string := snd (fst (fst f)).
Definition sf_Anonymous (f : StructField) : bool := snd (fst f).
Definition sf_Type (f : StructField) : GoType := snd f.

Inductive Kind :=
  | KBasic (k : BasicKind)
  | KPointer
  | KSlice
  | KArray
  | KStruct
  | KOther.

Definition Kind_of (t : GoType) : Kind :=
  match t with
  | TBasic k _ => KBasic k
  | TPointer _ => KPointer
  | TSlice _ => KSlice
  | TArray _ _ => KArray
  | TStruct _ _ => KStruct
  | TOther _ => KOther
  end.

(** [Type.Name()]: the name of a defined or predeclared type, empty for an
    unnamed composite. *)
Definition TypeName (t : GoType) : string :=
  match t with
  | TBasic _ name => name
  | TStruct name _ => name
  | TOther name => name
  | _ => ""
  end.

#[warning="-register-all"]
Inductive GoValue : Type :=
  | GScalar (v : value)
  | GPointer (target : option GoValue)
  | GSlice (elems : list GoValue)
  | GArray (elems : list GoValue)
  | GStruct (fields : list GoValue).

(** The dynamic content of an [any]: nothing, or a value with its type. *)
Inductive any :=
  | nil_any
  | boxed (t : GoType) (v : GoValue).

Definition zero_basic (k : BasicKind) : value :=
  match k with
  | BBool => VBool false
  | BString => VString ""
  | _ => VInt 0
  end.

(** The zero value [reflect.New(t)] points to. *)
Fixpoint zero (t : GoType) : GoValue :=
  match t with
  | TBasic k _ => GScalar (zero_basic k)
  | TPointer _ => GPointer None
  | TSlice _ => GSlice []
  | TArray n e => GArray (replicate n (zero e))
  | TStruct _ fields => GStruct (map (fun '(_, _, _, ft) => zero ft) fields)
  | TOther _ => GScalar VNil
  end.

(** What the loop of [toStructUniqResult] does for one field that is neither
    of slice or array kind nor embedded: the reads through [FieldByName],
    [IsNotNull] and the typed accessors of [Field], which are declared outside
    [src/], the dispatch of [GetValue] on them, and the reflective [Set].
    Given the DataSet, the column name, the type and the present value of the
    field, it yields the value the field holds afterwards. *)
Class FieldBinder := {
  bindField : DataSet -> string -> GoType -> GoValue -> outcome GoValue
}.

Section Binding.
Context `{FieldBinder}.

Definition is_sequence (t : GoType) : bool :=
  match Kind_of t with
  | KSlice | KArray => true
  | _ => false
  end.

Fixpoint bind_fields (ds : DataSet) (fields : list StructField) (vals : list GoValue)
  : outcome (list GoValue) :=
  match fields, vals with
  | f :: fields', v :: vals' =>
      v' ← (if is_sequence (sf_Type f) then Returned v
            else
              let fieldName :=
                if String.eqb (sf_Tag_column f) "" then sf_Name f
                else sf_Tag_column f in
              if sf_Anonymous f then Returned v
              else bindField ds fieldName (sf_Type f) v);
      rest ← bind_fields ds fields' vals';
      mret (v' :: rest)
  | _, _ => Returned vals
  end.

(** [toStructUniqResult(modelValue)]: [t] and [v] are the type and the
    content of [modelValue]; [NumField] panics on anything but a struct. *)
Definition toStructUniqResult (ds : DataSet) (t : GoType) (v : option GoValue)
  : outcome GoValue :=
  match t, v with
  | TStruct _ fields, Some (GStruct vals) =>
      vals' ← bind_fields ds fields vals;
      mret (GStruct vals')
  | _, _ => Panicked "reflect: call of reflect.Value.NumField on a non-struct Value"
  end.

(** The loop of [toStructList]: while not [Eof], bind a new element (the
    binding runs twice on it), append it, and call [Next].  [None] stands
    for a loop that is still running when [fuel] is used up. *)
Fixpoint toStructList_loop (fuel : nat) (ds : DataSet) (modelType : GoType)
         (growable : bool) (elems : list GoValue)
  : option (outcome (DataSet * list GoValue)) :=
  match fuel with
  | O => None
  | S fuel' =>
      if Eof ds then Some (Returned (ds, elems))
      else
        let newModel := zero modelType in
        match toStructUniqResult ds modelType (Some newModel) with
        | Panicked msg => Some (Panicked msg)
        | Returned once =>
            match toStructUniqResult ds modelType (Some once) with
            | Panicked msg => Some (Panicked msg)
            | Returned twice =>
                if growable
                then toStructList_loop fuel' (Next ds) modelType growable
                                       (elems ++ [twice])%list
                else Some (Panicked "reflect.Append: call on array Value")
            end
        end
  end.

(** [modelValue.Elem()] of a pointer. *)
Definition Elem (v : GoValue) : option GoValue :=
  match v with
  | GPointer target => target
  | _ => None
  end.

(** [toStructList(modelValue)] for the sequence [modelValue] whose type has
    the element type [modelType]; [rewind] is edition 2's [ds.First()]. *)
Definition toStructList (rewind : bool) (fuel : nat) (ds : DataSet)
           (modelType : GoType) (modelValue : option GoValue)
  : option (outcome (DataSet * GoValue)) :=
  match modelValue with
  | Some (GSlice elems) =>
      match toStructList_loop fuel (if rewind then First ds else ds)
                              modelType true elems with
      | Some (Returned (ds', elems')) => Some (Returned (ds', GSlice elems'))
      | Some (Panicked msg) => Some (Panicked msg)
      | None => None
      end
  | Some (GArray elems) =>
      match toStructList_loop fuel (if rewind then First ds else ds)
                              modelType false elems with
      | Some (Returned (ds', elems')) => Some (Returned (ds', GArray elems'))
      | Some (Panicked msg) => Some (Panicked msg)
      | None => None
      end
  | _ => Some (Panicked "reflect: call of reflect.Value.Type on zero Value")
  end.

(** [ToStruct(model)]: the error, the DataSet and the destination
    afterwards.  [second] tells edition 2 from edition 1, which differ in
    the [ds.First()] of [toStructList] and the first letter of the last
    message. *)
Definition ToStruct_of (second : bool) (fuel : nat) (ds : DataSet) (model : any)
  : option (outcome (option error * DataSet * any)) :=
  match model with
  | nil_any => Some (Panicked nil_dereference)
  | boxed modelType modelValue =>
      match modelType with
      | TPointer elemType =>
          match Kind_of elemType with
          | KStruct =>
              match toStructUniqResult ds elemType (Elem modelValue) with
              | Returned v' =>
                  Some (Returned (None, ds, boxed modelType (GPointer (Some v'))))
              | Panicked msg => Some (Panicked msg)
              end
          | KSlice | KArray =>
              let itemType :=
                match elemType with
                | TSlice e | TArray _ e => e
                | _ => elemType
                end in
              match toStructList second fuel ds itemType (Elem modelValue) with
              | Some (Returned (ds', v')) =>
                  Some (Returned (None, ds', boxed modelType (GPointer (Some v'))))
              | Some (Panicked msg) => Some (Panicked msg)
              | None => None
              end
          | _ =>
              Some (Returned
                      (Some (ErrorString
                               (if second
                                then "the interface is not a slice, array or struct"
                                else "The interface is not a slice, array or struct")),
                       ds, model))
          end
      | _ =>
          Some (Returned
                  (Some (ErrorString ("the variable " +:+ TypeName modelType
                                      +:+ " is not a pointer.")),
                   ds, model))
      end
  end.

End Binding.

(** ** Edition 2: the engine with transactions, contexts and batches *)

Module V2.
Section Engine.
Context `{Helpers} {Server : Type} `{Driver Server}.

(** The dialect [replaceAllParam] reads, from the transaction when one is
    bound, else from the connection. *)
Definition dialect_of (ds : DataSet) : outcome DialectType :=
  match Tx ds with
  | Some t =>
      match Transaction.Conn t with
      | Some c => Returned (Conn.Dialect c)
      | None => Panicked nil_dereference
      end
  | None =>
      match Connection ds with
      | Some c => Returned (Conn.Dialect c)
      | None => Panicked nil_dereference
      end
  end.

Definition replaceAllParam (ds : DataSet) (sql : string) : outcome string :=
  dialect ← dialect_of ds;
  mret (replaceParams dialect (param_names ds) sql).

Definition GetSql (ds : DataSet) : outcome string :=
  replaceAllParam ds
    (indent_newlines (foldl expandMacro (Strings.Text (Sql ds)) (Macros ds))).

(** [GetSqlMasterDetail]: the text, the DataSet with the parameters the
    call registers, and the lines it prints. *)
Definition GetSqlMasterDetail (heap : gmap loc DataSet) (ds : DataSet)
  : outcome (string * DataSet * list string) :=
  vsql ← GetSql ds;
  '(vsql, params, lines) ← masterDetail_wrap heap ds vsql;
  vsql ← replaceAllParam (with_Params ds params) (indent_newlines vsql);
  mret (vsql, with_Params ds params, lines).

Definition Last (ds : DataSet) : DataSet :=
  with_cursor ds (if Count ds =? 0 then 0 else wrap_int (Count ds - 1)) (Count ds).

Definition Prepare (ds : DataSet) : outcome (option error * DataSet) :=
  sql ← GetSql ds;
  match PreprocessSQL sql with
  | inr err => mret (Some err, ds)
  | inl items => mret (None, append_params ds items)
  end.

(** The two field loops of [scan]. *)
Definition typed_field (k : ScanKind) (i : nat) (f : Field.t) : Field.t :=
  Field.mk (Field.Name f)
           (match auto_type k with
            | Some d => Some d
            | None => Field.IDataType f
            end)
           (Some k) (Z.of_nat i + 1) (Z.of_nat i).

Fixpoint scan_new_fields (i : nat) (columns : list (string * ScanKind))
         (fields : list Field.t) : list Field.t :=
  match columns with
  | [] => fields
  | (name, k) :: rest =>
      let '(fields', pos) := Fields_Add fields name in
      scan_new_fields (S i) rest (alter (typed_field k i) pos fields')
  end.

Fixpoint scan_old_fields (count : nat) (i : nat) (columns : list (string * ScanKind))
         (fields : list Field.t) : outcome (list Field.t) :=
  match count with
  | O => Returned fields
  | S count' =>
      match columns !! i with
      | None => Panicked "index out of range"
      | Some (_, k) =>
          scan_old_fields count' (S i) columns (alter (typed_field k i) i fields)
      end
  end.

Definition scan (ds : DataSet) (list : RowSet) : outcome DataSet :=
  fields ← (if (length (Fields ds) =? 0)%nat
            then Returned (scan_new_fields O (Columns list) (Fields ds))
            else scan_old_fields (length (Fields ds)) O (Columns list) (Fields ds));
  mret (with_Rows (with_Fields ds fields)
                  (Rows ds ++ map (row_of (Columns list)) (Records list))%list).

(** [fmt.Println(query); ds.PrintParam()] when the connection logs. *)
Definition log_query (conn : Conn.t) (query : string) (ds : DataSet) : M Server unit :=
  if Conn.log conn then Println (query :: PrintParam (Params ds)) else mret tt.

(** The call of [GetSqlMasterDetail] on the DataSet at [l]. *)
Definition GetSqlMasterDetail_at (l : loc) : M Server string :=
  ds ← get_ds l;
  h ← get_heap;
  '(query, ds', lines) ← lift (GetSqlMasterDetail h ds);
  put_ds l ds';;
  Println lines;;
  mret query.

(** The tail of [Open] once the rows are there: [defer rows.Close()], the
    nil check, [scan] and [First]. *)
Definition Open_finish (l : loc) (rows : option RowSet) : M Server (option error) :=
  match rows with
  | None =>
      Rows_Close rows;;
      mret (Some (ErrorString "rows empty"))
  | Some list =>
      ds ← get_ds l;
      ds' ← lift (scan ds list);
      put_ds l (First ds');;
      Rows_Close rows;;
      mret None
  end.

Definition Open (l : loc) : M Server (option error) :=
  ds ← get_ds l;
  put_ds l (with_cursor (with_Rows ds []) 0 0);;
  query ← GetSqlMasterDetail_at l;
  ds ← get_ds l;
  match Tx ds with
  | Some t =>
      conn ← deref (Transaction.Conn t);
      log_query conn query ds;;
      '(rows, err) ← Query (OnTx (Transaction.tx t)) (Ctx ds) query (GetParams ds);
      match err with
      | Some e => mret (Some e)
      | None => Open_finish l rows
      end
  | None =>
      conn ← deref (Connection ds);
      log_query conn query ds;;
      '(rows, err) ← Query (OnDB (Conn.DB conn)) (Ctx ds) query (GetParams ds);
      match err with
      | Some e =>
          errPing ← Ping (Conn.DB conn) None;
          match errPing with
          | Some _ =>
              errConn ← Conn_Open (Conn.DB conn);
              match errConn with
              | Some _ => mret (Some e)
              | None =>
                  '(rows, err) ←
                    Query (OnDB (Conn.DB conn)) (Ctx ds) query (GetParams ds);
                  match err with
                  | Some e' => mret (Some e')
                  | None => Open_finish l rows
                  end
              end
          | None => mret (Some (could_not_open e))
          end
      | None => Open_finish l rows
      end
  end.

(** The tail of [OpenContext]: the nil check comes before the [defer]. *)
Definition OpenContext_finish (l : loc) (rows : option RowSet)
  : M Server (option error) :=
  match rows with
  | None => mret (Some (ErrorString "rows empty"))
  | Some list =>
      ds ← get_ds l;
      ds' ← lift (scan ds list);
      put_ds l (First ds');;
      Rows_Close rows;;
      mret None
  end.

Definition OpenContext (l : loc) (context : Context) : M Server (option error) :=
  ds ← get_ds l;
  put_ds l (with_cursor (with_Rows ds []) 0 0);;
  query ← GetSqlMasterDetail_at l;
  ds ← get_ds l;
  conn0 ← deref (Connection ds);
  log_query conn0 query ds;;
  match Tx ds with
  | Some t =>
      conn ← deref (Transaction.Conn t);
      log_query conn query ds;;
      '(rows, err) ← Query (OnDB (Conn.DB conn)) (Some context) query (GetParams ds);
      match err with
      | Some e => mret (Some e)
      | None => OpenContext_finish l rows
      end
  | None =>
      conn ← deref (Connection ds);
      log_query conn query ds;;
      '(rows, err) ← Query (OnDB (Conn.DB conn)) (Some context) query (GetParams ds);
      match err with
      | Some e =>
          errPing ← Ping (Conn.DB conn) (Some context);
          match errPing with
          | Some _ =>
              errConn ← Conn_Open (Conn.DB conn);
              match errConn with
              | Some _ => mret (Some e)
              | None =>
                  '(rows, err) ←
                    Query (OnDB (Conn.DB conn)) (Some context) query (GetParams ds);
                  match err with
                  | Some e' => mret (Some e')
                  | None => OpenContext_finish l rows
                  end
              end
          | None => mret (Some (could_not_open e))
          end
      | None => OpenContext_finish l rows
      end
  end.

(** The execution loop of [ExecBatch], from index [i], for [count] more
    rounds. *)
Fixpoint ExecBatch_loop (ds : DataSet) (stmt : option StmtId) (count : nat) (i : Z)
  : M Server (option error) :=
  match count with
  | O => mret None
  | S count' =>
      args ← lift (GetParamsBatch ds i);
      err ← Stmt_Exec stmt (Ctx ds) args;
      match err with
      | Some e => mret (Some e)
      | None => ExecBatch_loop ds stmt count' (i + 1)
      end
  end.

(** [ExecBatch(size)].  The deferred [stmt.Close()] runs when the function
    returns. *)
Definition ExecBatch (l : loc) (size : Z) : M Server (option error) :=
  ds ← get_ds l;
  query ← lift (GetSql ds);
  '(target, conn) ←
    match Tx ds with
    | Some t =>
        conn ← deref (Transaction.Conn t);
        mret (OnTx (Transaction.tx t), conn)
    | None =>
        conn ← deref (Connection ds);
        mret (OnDB (Conn.DB conn), conn)
    end;
  log_query conn query ds;;
  '(stmt, err) ← Prepare_stmt target (Ctx ds) query;
  match err with
  | Some e => Stmt_Close stmt;; mret (Some e)
  | None =>
      r ← ExecBatch_loop ds stmt (Z.to_nat (Params.BatchSize (Params ds))) 0;
      Stmt_Close stmt;;
      mret r
  end.

End Engine.

(** [ToStruct(model)] with edition 2's [toStructList]. *)
Definition ToStruct `{FieldBinder} := ToStruct_of true.

(** The constructors; [NewDataSetTx] reads [tx.Conn] of a transaction that
    may be nil. *)
Definition NewDataSet (db : option Conn.t) : DataSet :=
  mkDataSet db None None [] NewFields NewParams NewMacros [] 0 0 NewMasterSource
            "" true.

Definition NewDataSetTx (tx : option Transaction.t) : outcome DataSet :=
  match tx with
  | None => Panicked nil_dereference
  | Some t =>
      let ds := NewDataSet (Transaction.Conn t) in
      Returned (mkDataSet (Connection ds) (Some t) (Ctx ds) (Sql ds) (Fields ds)
                          (Params ds) (Macros ds) (Rows ds) (Index ds) (Recno ds)
                          (MasterSource ds) (IndexFieldNames ds) (Silent ds))
  end.

End V2.

(** ** Edition 1: [src/godata.go] *)

Module V1.
Section Engine.
Context `{Helpers} {Server : Type} `{Driver Server}.

Definition GetSql (ds : DataSet) : string :=
  indent_newlines (foldl expandMacro (Strings.Text (Sql ds)) (Macros ds)).

Definition GetSqlMasterDetail (heap : gmap loc DataSet) (ds : DataSet)
  : outcome (string * DataSet * list string) :=
  '(sql, params, lines) ← masterDetail_wrap heap ds (GetSql ds);
  mret (indent_newlines sql, with_Params ds params, lines).

Definition Last (ds : DataSet) : DataSet :=
  if negb (Eof ds)
  then with_cursor ds (Count ds) (wrap_int (Count ds + 1))
  else ds.

(** [Prepare]: every match of the regexp is appended. *)
Definition Prepare (ds : DataSet) : DataSet :=
  append_params ds (FindAllStringSubmatch Idle (GetSql ds)).

Definition CreateFields (ds : DataSet) : option error * DataSet :=
  match SelectExprNames (GetSql ds) with
  | inr err => (Some err, ds)
  | inl names =>
      (None, with_Fields ds (foldl (fun fields name => fst (Fields_Add fields name))
                                   (Fields ds) names))
  end.

Definition column_field (k : ScanKind) (i : nat) (f : Field.t) : Field.t :=
  Field.mk (Field.Name f) (Field.IDataType f) (Some k) (Z.of_nat i + 1) (Z.of_nat i).

Fixpoint scan_record_fields (i : nat) (columns : list (string * ScanKind))
         (fields : list Field.t) : list Field.t :=
  match columns with
  | [] => fields
  | (name, k) :: rest =>
      let '(fields', pos) := Fields_Add fields name in
      scan_record_fields (S i) rest (alter (column_field k i) pos fields')
  end.

Definition scan (ds : DataSet) (list : RowSet) : DataSet :=
  foldl (fun ds record =>
           with_Rows
             (with_Fields ds (scan_record_fields O (Columns list) (Fields ds)))
             (Rows ds ++ [row_of (Columns list) record])%list)
        ds (Records list).

Definition log_query (conn : Conn.t) (sql : string) (ds : DataSet) : M Server unit :=
  if Conn.log conn then Println (sql :: PrintParam (Params ds)) else mret tt.

Definition GetSqlMasterDetail_at (l : loc) : M Server string :=
  ds ← get_ds l;
  h ← get_heap;
  '(sql, ds', lines) ← lift (GetSqlMasterDetail h ds);
  put_ds l ds';;
  Println lines;;
  mret sql.

(** The tail of [Open]: [defer rows.Close()], [scan] and [First].  Reading a
    nil [*sql.Rows] dereferences it. *)
Definition Open_finish (l : loc) (rows : option RowSet) : M Server (option error) :=
  match rows with
  | None => lift (Panicked nil_dereference)
  | Some list =>
      ds ← get_ds l;
      put_ds l (First (scan ds list));;
      Rows_Close rows;;
      mret None
  end.

(** [Open] ([ctx] is [None]) and [OpenContext] ([ctx] is the context), which
    differ only in the [Query]/[QueryContext] and [Ping]/[PingContext]
    calls. *)
Definition Open_with (ctx : option Context) (l : loc) : M Server (option error) :=
  ds ← get_ds l;
  let ds0 := with_cursor (with_Rows ds []) 0 0 in
  put_ds l (if (length (Fields ds0) =? 0)%nat then snd (CreateFields ds0) else ds0);;
  sql ← GetSqlMasterDetail_at l;
  ds ← get_ds l;
  conn ← deref (Connection ds);
  log_query conn sql ds;;
  '(rows, err) ← Query (OnDB (Conn.DB conn)) ctx sql (GetParams ds);
  match err with
  | Some e =>
      errPing ← Ping (Conn.DB conn) ctx;
      match errPing with
      | Some _ =>
          errConn ← Conn_Open (Conn.DB conn);
          match errConn with
          | Some _ => mret (Some e)
          | None => Open_finish l rows
          end
      | None => mret (Some (could_not_open e))
      end
  | None => Open_finish l rows
  end.

Definition Open (l : loc) : M Server (option error) := Open_with None l.

Definition OpenContext (l : loc) (context : Context) : M Server (option error) :=
  Open_with (Some context) l.

End Engine.

(** [ToStruct(model)] with edition 1's [toStructList]. *)
Definition ToStruct `{FieldBinder} := ToStruct_of false.

(** The constructors.  Edition 1 has no [Ctx] and no [Silent], and its [Tx]
    is the driver's transaction, with no connection attached. *)
Definition NewDataSet (db : option Conn.t) : DataSet :=
  mkDataSet db None None [] NewFields NewParams NewMacros [] 0 0 NewMasterSource
            "" false.

Definition NewDataSetTx (tx : option TxId) : DataSet :=
  mkDataSet None ((fun t => Transaction.mk t None) <$> tx) None [] NewFields NewParams
            NewMacros [] 0 0 NewMasterSource "" false.

End V1.

(** ** Reading a DataSet from the first row to the end *)

(** The caller's loop [for ds.First(); !ds.Eof(); ds.Next() { ... }], started
    on [ds]: the states in which the body runs, and the state in which the
    loop ends.  [None] stands for a loop that is still running when [fuel] is
    used up. *)
Fixpoint walk (fuel : nat) (ds : DataSet) : option (list DataSet * DataSet) :=
  match fuel with
  | O => None
  | S fuel' =>
      if Eof ds then Some ([], ds)
      else match walk fuel' (Next ds) with
           | Some (visited, final) => Some (ds :: visited, final)
           | None => None
           end
  end.

(** ** The statements the properties below compare the code with *)

(** The alias of the master field at position [i]. *)
Definition alias_of (masterField : string) (i : nat) : string :=
  masterField +:+ Sprintf_04d (Z.of_nat i).

(** The conditions [detail_i = :alias_i] for the master fields from
    position [i] on, and the text that joins them. *)
Fixpoint link_conditions (i : nat) (master detail : list string) : list string :=
  match master, detail with
  | m :: master', d :: detail' =>
      (d +:+ " = :" +:+ alias_of m i) :: link_conditions (S i) master' detail'
  | _, _ => []
  end.

Definition where_clause (master detail : list string) : string :=
  Join (link_conditions O master detail) " and ".

(** The parameters after every alias from position [i] on has been
    registered with the value of its master field in the row the master
    DataSet [m] stands on. *)
Fixpoint register_links `{Helpers} (m : DataSet) (i : nat) (master : list string)
         (params : Params.t) : Params.t :=
  match master with
  | [] => params
  | f :: master' =>
      register_links m (S i) master'
        (SetInputParam (alias_of f i) (FieldAsValue m f) params)
  end.

(** Executing a prepared statement once per argument list, in order, and
    stopping at the first error: the state of the server, the calls made and
    the error. *)
Fixpoint exec_in_order {Server} `{Driver Server} (s : Server) (stmt : StmtId)
         (ctx : option Context) (batches : list (list NamedArg))
  : Server * list Event * option error :=
  match batches with
  | [] => (s, [], None)
  | args :: rest =>
      match drv_StmtExec s stmt ctx args with
      | (s', Some e) => (s', [EvStmtExec stmt ctx args], Some e)
      | (s', None) =>
          let '(s'', evs, r) := exec_in_order s' stmt ctx rest in
          (s'', EvStmtExec stmt ctx args :: evs, r)
      end
  end.

(** The arguments of execution [i] of a batch: every parameter bound to
    [Values[i]] ([VNil] where the list is too short, which the properties
    below exclude). *)
Definition batch_args (ds : DataSet) (i : nat) : list NamedArg :=
  map (fun p => bind_arg (Param.Name p)
                         (Value (default {| Value := VNil |} (Param.Values p !! i)))
                         (Param.ParamType p))
      (Params.List (Params ds)).

(** Every parameter has a value for each of the [n] executions. *)
Definition batch_ready (ds : DataSet) (n : nat) : Prop :=
  Forall (fun p => (n <= length (Param.Values p))%nat) (Params.List (Params ds)).

(** The byte [c] occurs in [s]. *)
Fixpoint has_byte (c : ascii) (s : string) : bool :=
  match s with
  | EmptyString => false
  | String d s' => Ascii.eqb c d || has_byte c s'
  end.

(** [p] occurs somewhere in [s]. *)
Definition occurs (p s : string) : Prop :=
  exists before after, s = before +:+ p +:+ after.

(** The text right of a token lets the token count as a parameter: it is
    empty or starts with a delimiter. *)
Definition token_ends (after : string) : bool :=
  match after with
  | EmptyString => true
  | String c _ => is_delim c
  end.

(** Every byte of [s] is of the class [\w]. *)
Fixpoint all_word (s : string) : bool :=
  match s with
  | EmptyString => true
  | String c s' => is_word c && all_word s'
  end.

(** Counting the queries and the reconnections in a trace. *)
Definition is_query (e : Event) : bool :=
  match e with
  | EvQuery _ _ _ _ => true
  | _ => false
  end.

Definition is_reconnect (e : Event) : bool :=
  match e with
  | EvOpen _ => true
  | _ => false
  end.

Definition is_exec (e : Event) : bool :=
  match e with
  | EvStmtExec _ _ _ => true
  | _ => false
  end.

Definition count_events (f : Event -> bool) (evs : list Event) : nat :=
  length (List.filter f evs).

(** ** A concrete setting for the examples *)

Module Sample.

(** Modelled from the spec: [Params.SetInputParam] is declared outside
    [src/]; a Param is "identified by name" and the call registers an input
    parameter with the value, so the parameter of that name is replaced, or
    a new one is appended. *)
Fixpoint set_input (name : string) (v : value) (l : list Param.t) : list Param.t :=
  match l with
  | [] => [Param.mk name {| Value := v |} IN []]
  | p :: l' =>
      if String.eqb (Param.Name p) name
      then Param.mk name {| Value := v |} IN (Param.Values p) :: l'
      else p :: set_input name v l'
  end.

(** Modelled from the spec: [FieldByName] and [Field.AsValue] are declared
    outside [src/]; a Field is "a view": "reading it fetches the Variant
    from the dataset's current Row", a row being "a mapping from upper-cased
    column name to Variant". *)
Definition current_value (ds : DataSet) (name : string) : value :=
  match Rows ds !! Z.to_nat (Index ds) with
  | Some row =>
      match row !! ToUpper name with
      | Some v => Value v
      | None => VNil
      end
  | None => VNil
  end.

(** Modelled from the spec: [Fields.Add] is declared outside [src/]; a
    Field is "identified by a case-insensitive name", so the field of that
    name is found, or a new one is appended. *)
Fixpoint add_field (fields : list Field.t) (name : string) : list Field.t * nat :=
  match fields with
  | [] => ([Field.mk name None None 0 0], O)
  | f :: fields' =>
      if String.eqb (ToUpper (Field.Name f)) (ToUpper name) then (fields, O)
      else let '(r, pos) := add_field fields' name in (f :: r, S pos)
  end.

(** Modelled from the spec: [Variant.AsString] is declared outside [src/];
    a scalar macro is replaced by its "stringified value". *)
Definition as_string (v : value) : string :=
  match v with
  | VNil => ""
  | _ => Sprintf_v v
  end.

(** The helpers of the examples.  The two external parsers are stood in for
    by the scanner of the first edition and by a parser that reports no
    column. *)
#[export] Instance helpers : Helpers := {
  SetInputParam name v ps :=
    Params.mk (set_input name v (Params.List ps)) (Params.BatchSize ps);
  FieldAsValue := current_value;
  AsString := as_string;
  PrintParam ps := map Param.Name (Params.List ps);
  Fields_Add := add_field;
  PreprocessSQL sql := inl (FindAllStringSubmatch Idle sql);
  SelectExprNames sql := inl []
}.

(** A binder that stores the current value of the column, whatever the
    type of the field. *)
#[export] Instance binder : FieldBinder := {
  bindField ds name t v := Returned (GScalar (current_value ds name))
}.

(** A server that answers from a script: each kind of call takes the next
    answer of its list, and succeeds once the list is used up. *)
Record Script := mkScript {
  queries : list (option RowSet * option error);
  pings : list (option error);
  opens : list (option error);
  prepares : list (option StmtId * option error);
  execs : list (option error)
}.

Definition no_rows : RowSet := mkRowSet [] [].

#[export] Instance scripted : Driver Script := {
  drv_Query s _ _ _ _ :=
    match queries s with
    | [] => (s, (Some no_rows, None))
    | r :: rest => (mkScript rest (pings s) (opens s) (prepares s) (execs s), r)
    end;
  drv_Ping s _ _ :=
    match pings s with
    | [] => (s, None)
    | r :: rest => (mkScript (queries s) rest (opens s) (prepares s) (execs s), r)
    end;
  drv_Open s _ :=
    match opens s with
    | [] => (s, None)
    | r :: rest => (mkScript (queries s) (pings s) rest (prepares s) (execs s), r)
    end;
  drv_Prepare s _ _ _ :=
    match prepares s with
    | [] => (s, (Some O, None))
    | r :: rest => (mkScript (queries s) (pings s) (opens s) rest (execs s), r)
    end;
  drv_StmtExec s _ _ _ :=
    match execs s with
    | [] => (s, None)
    | r :: rest => (mkScript (queries s) (pings s) (opens s) (prepares s) rest, r)
    end
}.

Definition oracle : Conn.t := Conn.mk O false (OtherDialect O).
Definition postgres : Conn.t := Conn.mk O false POSTGRESQL.

(** A fresh DataSet on a connection, as [NewDataSet] makes it, with one
    SQL fragment. *)
Definition dataset (conn : Conn.t) (sql : string) : DataSet :=
  mkDataSet (Some conn) None None (Strings.Add [] sql) NewFields NewParams
            NewMacros [] 0 0 NewMasterSource "" true.

Definition with_MasterSource (ds : DataSet) (ms : MasterSource.t) : DataSet :=
  mkDataSet (Connection ds) (Tx ds) (Ctx ds) (Sql ds) (Fields ds) (Params ds)
            (Macros ds) (Rows ds) (Index ds) (Recno ds) ms
            (IndexFieldNames ds) (Silent ds).

Definition row (column : string) (v : value) : Row :=
  {[ column := {| Value := v |} ]}.

(** A master DataSet standing on its only row, [CODE = 7]. *)
Definition master : DataSet :=
  with_cursor (with_Rows (dataset oracle "select CODE from m") [row "CODE" (VInt 7)]) 0 1.

Definition heap_with_master : gmap loc DataSet := {[ 1%nat := master ]}.

Definition detail (masterFields detailFields : list string) : DataSet :=
  with_MasterSource (dataset oracle "select * from t")
                    (MasterSource.mk (Some 1%nat) masterFields detailFields).

Definition world (script : Script) (h : gmap loc DataSet) : World Script :=
  mkWorld script h [] [].

Definition all_succeed : Script := mkScript [] [] [] [] [].

Definition batch_param (name : string) (vs : list value) : Param.t :=
  Param.mk name {| Value := VNil |} IN (map (fun v => {| Value := v |}) vs).

Definition batch_dataset (batchSize : Z) (ps : list Param.t) : DataSet :=
  with_Params (dataset oracle "insert into t values (:a)") (Params.mk ps batchSize).

(** A batch of two rows for one parameter, in the DataSet at location 0. *)
Definition two_rows : DataSet :=
  batch_dataset 2 [batch_param "a" [VInt 1; VInt 2]].

Definition batch_world : World Script := world all_succeed {[ O := two_rows ]}.

(** A parameter that has a scalar value and no batch values. *)
Definition scalar_only : DataSet :=
  batch_dataset 1 [Param.mk "a" {| Value := VInt 1 |} IN []].

(** The first query fails; the ping that follows succeeds. *)
Definition query_fails : Script :=
  mkScript [(None, Some (DriverError "connection reset"))] [] [] [] [].

(** The first query and the ping fail, the reconnection succeeds, and so
    does the second query. *)
Definition server_restarted : Script :=
  mkScript [(None, Some (DriverError "connection reset"))]
           [Some (DriverError "bad connection")] [] [] [].

End Sample.

(** The state of the cursor on row [k] (counted from 0). *)
Definition on_row (ds : DataSet) (k : nat) : DataSet :=
  with_cursor ds (Z.of_nat k) (Z.of_nat k + 1).

(** The state [Open] starts from: no rows, cursor at 0. *)
Definition is_cleared (ds : DataSet) : Prop :=
  Rows ds = [] /\ Count ds = 0 /\ Index ds = 0 /\ Recno ds = 0.

(** The DataSet at [l] has no rows and its cursor is at 0. *)
Definition cleared {Server} (l : loc) (w : World Server) : Prop :=
  exists ds, heap w !! l = Some ds /\ is_cleared ds.

(** A piece of engine code keeps [cleared]; a piece that returns an error
    leaves the world [cleared]. *)
Definition keeps_cleared {Server A} (l : loc) (m : M Server A) : Prop :=
  forall w a w', cleared l w -> m w = Returned (a, w') -> cleared l w'.

Definition error_cleared {Server} (l : loc) (m : M Server (option error)) : Prop :=
  forall w e w', cleared l w -> m w = Returned (Some e, w') -> cleared l w'.

(** The DataSet as the first three assignments of [Open] leave it. *)
Definition reset_rows (ds : DataSet) : DataSet := with_cursor (with_Rows ds []) 0 0.

(** What a run returned, and the world it left, when it did not panic. *)
Definition returned {A W : Type} (o : outcome (A * W)) : option A :=
  match o with
  | Returned (a, _) => Some a
  | Panicked _ => None
  end.

Definition world_after {A W : Type} (o : outcome (A * W)) : option W :=
  match o with
  | Returned (_, w) => Some w
  | Panicked _ => None
  end.

(** What a call returned, when it did not panic. *)
Definition result {A : Type} (o : outcome A) : option A :=
  match o with
  | Returned a => Some a
  | Panicked _ => None
  end.


(** The text of the error [ToStruct] returns for a pointer to something that
    is neither a struct nor a slice nor an array. *)
Definition not_a_sequence_or_struct (second : bool) : error :=
  ErrorString (if second
               then "the interface is not a slice, array or struct"
               else "The interface is not a slice, array or struct").

Definition not_a_pointer (t : GoType) : error :=
  ErrorString ("the variable " +:+ TypeName t +:+ " is not a pointer.").

(** A piece of engine code sends at most [queries] queries and reopens the
    connection at most [reconnects] times, whenever it returns. *)
Definition calls_within {Server A : Type} (queries reconnects : nat) (m : M Server A)
  : Prop :=
  forall w a w',
    m w = Returned (a, w') ->
    exists evs,
      trace w' = (trace w ++ evs)%list
      /\ (count_events is_query evs <= queries)%nat
      /\ (count_events is_reconnect evs <= reconnects)%nat.

(** ** Further notions used by the properties of the rest of the engine *)

(** The cursor stands on a row, or just past the last one. *)
Definition cursor_ok (ds : DataSet) : Prop :=
  Recno ds = Index ds + 1 /\ 1 <= Recno ds <= Count ds + 1.

(** A text of ASCII bytes. *)
Fixpoint ascii_only (s : string) : bool :=
  match s with
  | EmptyString => true
  | String c s' => (nat_of_ascii c <? 128)%nat && ascii_only s'
  end.

(** The cursor stands on a row. *)
Definition on_a_row (ds : DataSet) : Prop :=
  Recno ds = Index ds + 1 /\ 1 <= Recno ds <= Count ds.

(** The row the cursor points to, if it points to one. *)
Definition current_row (ds : DataSet) : option Row :=
  if Index ds <? 0 then None else Rows ds !! Z.to_nat (Index ds).

(** Where [Open] sends its query, and the connection whose [log] flag it
    reads: the transaction when one is bound, else the connection. *)
Definition open_route (ds : DataSet) (target : Target) (conn : Conn.t) : Prop :=
  match Tx ds with
  | Some t => Transaction.Conn t = Some conn /\ target = OnTx (Transaction.tx t)
  | None => Connection ds = Some conn /\ target = OnDB (Conn.DB conn)
  end.

(** What [GetSql] writes in place of the token of a macro: the joined
    elements of a slice, the stringified value otherwise. *)
Definition macro_text `{Helpers} (m : Macro.t) : string :=
  match Value (Macro.Value m) with
  | VSlice of_strings elems => JoinSlice of_strings elems
  | v => AsString v
  end.

(** Every line feed of a text is followed by a space. *)
Definition newlines_indented (s : string) : Prop :=
  forall before after, s = before +:+ LF +:+ after -> HasPrefix after " " = true.

(** [limitStr(value, limit)]: the first [limit] bytes of a longer value.
    The slice expression [value[:limit]] panics for a negative [limit]. *)
Definition limitStr (value : string) (limit : Z) : outcome string :=
  if len value >? limit
  then if limit <? 0
       then Panicked "slice bounds out of range"
       else Returned (slice_to value limit)
  else Returned value.

(** What the loop of [toStructList] appends for the row the DataSet stands
    on: a new element of the type, bound twice. *)
Definition bound_twice `{FieldBinder} (ds : DataSet) (modelType : GoType)
  : outcome GoValue :=
  once ← toStructUniqResult ds modelType (Some (zero modelType));
  toStructUniqResult ds modelType (Some once).

(** The column a struct field is bound from: its [column] tag, or its name
    when it has none. *)
Definition column_of (f : StructField) : string :=
  if String.eqb (sf_Tag_column f) "" then sf_Name f else sf_Tag_column f.

(** One round of the loop of [replaceAllParam]: the tokens of the parameter
    [name] rewritten with the number [n]. *)
Definition translate_one (name : string) (n : Z) (sql : string) : string :=
  fst (replaceParamPG_run sql (":" +:+ name) n).

(** Every line feed of a text is followed by two spaces. *)
Definition newlines_indented_twice (s : string) : Prop :=
  forall before after, s = before +:+ LF +:+ after -> HasPrefix after "  " = true.


(** ** Locate *)

(** [==] on two interface values.  The Go runtime decides it by the dynamic
    types and the boxed values, and panics when both have the same
    uncomparable dynamic type; [value] does not carry the dynamic type, so
    the comparison is taken from outside. *)
Class Comparison := {
  go_equal : value -> value -> outcome bool
}.

Section Locating.
Context `{Helpers} `{Comparison}.

(** The loop of [Locate]; both arms of its type switch run the same
    comparison.  [None] stands for a loop still running when [fuel] is used
    up. *)
Fixpoint Locate_loop (fuel : nat) (ds : DataSet) (key : string) (v : value)
  : option (outcome (bool * DataSet)) :=
  match fuel with
  | O => None
  | S fuel' =>
      if Eof ds then Some (Returned (false, ds))
      else match go_equal (FieldAsValue ds key) v with
           | Panicked msg => Some (Panicked msg)
           | Returned true => Some (Returned (true, ds))
           | Returned false => Locate_loop fuel' (Next ds) key v
           end
  end.

Definition Locate (fuel : nat) (ds : DataSet) (key : string) (v : value)
  : option (outcome (bool * DataSet)) :=
  Locate_loop fuel (First ds) key v.

End Locating.

(** ** Statements that return a result *)

(** What the engine reads from an [sql.Result]: the two values of
    [RowsAffected()]. *)
Record SqlResult := mkSqlResult {
  RowsAffected : Z;
  RowsAffected_error : option error
}.

(** The [sql.Result] that [stmt.Exec] and [stmt.ExecContext] hand back
    beside the error [drv_StmtExec] describes. *)
Class ResultDriver (Server : Type) := {
  drv_StmtResult : Server -> StmtId -> option Context -> list NamedArg ->
                   option SqlResult
}.

Section Executing.
Context `{Helpers} {Server : Type} `{Driver Server} `{ResultDriver Server}.

Definition Stmt_Exec_result (stmt : option StmtId) (ctx : option Context)
           (args : list NamedArg) : M Server (option SqlResult * option error) :=
  match stmt with
  | None => lift (Panicked nil_dereference)
  | Some st =>
      fun w => let r := drv_StmtResult (server w) st ctx args in
               let '(s, e) := drv_StmtExec (server w) st ctx args in
               Returned ((r, e), emit (EvStmtExec st ctx args) s w)
  end.

(** What every branch of [Exec] and [ExecContext] does with the answer of
    [Prepare]: return its error, or [defer stmt.Close()] and execute with
    the bound arguments. *)
Definition run_prepared (prepared : option StmtId * option error)
           (ctx : option Context) (args : list NamedArg)
  : M Server (option SqlResult * option error) :=
  let '(stmt, err) := prepared in
  match err with
  | Some e => mret (None, Some e)
  | None =>
      r ← Stmt_Exec_result stmt ctx args;
      Stmt_Close stmt;;
      mret r
  end.

(** The tail of [Delete] and [DeleteContext]; [RowsAffected] on a nil
    [sql.Result] dereferences it. *)
Definition rows_affected (r : option SqlResult * option error)
  : outcome (Z * option error) :=
  let '(result, err) := r in
  match err with
  | Some e => Returned (0, Some e)
  | None =>
      match result with
      | None => Panicked nil_dereference
      | Some res =>
          match RowsAffected_error res with
          | Some e => Returned (0, Some e)
          | None => Returned (RowsAffected res, None)
          end
      end
  end.

End Executing.

(** Edition 1: [Exec], [ExecContext], [Delete] and [DeleteContext]. *)
Module ExecV1.
Section Engine.
Context `{Helpers} {Server : Type} `{Driver Server} `{ResultDriver Server}.

Definition Exec (l : loc) : M Server (option SqlResult * option error) :=
  ds ← get_ds l;
  let sql := V1.GetSql ds in
  conn ← deref (Connection ds);
  V1.log_query conn sql ds;;
  match Tx ds with
  | Some t =>
      prepared ← Prepare_stmt (OnTx (Transaction.tx t)) None sql;
      run_prepared prepared None (GetParams ds)
  | None =>
      prepared ← Prepare_stmt (OnDB (Conn.DB conn)) None sql;
      run_prepared prepared None (GetParams ds)
  end.

Definition ExecContext (l : loc) (context : Context)
  : M Server (option SqlResult * option error) :=
  ds ← get_ds l;
  let sql := V1.GetSql ds in
  match Connection ds with
  | Some conn => V1.log_query conn sql ds
  | None => mret tt
  end;;
  match Tx ds with
  | Some t =>
      prepared ← Prepare_stmt (OnTx (Transaction.tx t)) (Some context) sql;
      run_prepared prepared None (GetParams ds)
  | None =>
      conn ← deref (Connection ds);
      prepared ← Prepare_stmt (OnDB (Conn.DB conn)) (Some context) sql;
      run_prepared prepared (Some context) (GetParams ds)
  end.

Definition Delete (l : loc) : M Server (Z * option error) :=
  r ← Exec l;
  lift (rows_affected r).

Definition DeleteContext (l : loc) (context : Context) : M Server (Z * option error) :=
  r ← ExecContext l context;
  lift (rows_affected r).

End Engine.
End ExecV1.

(** Edition 2: [ExecContext] and [DeleteContext]. *)
Module ExecV2.
Section Engine.
Context `{Helpers} {Server : Type} `{Driver Server} `{ResultDriver Server}.

Definition ExecContext (l : loc) (context : Context)
  : M Server (option SqlResult * option error) :=
  ds ← get_ds l;
  vsql ← lift (V2.GetSql ds);
  prepared ←
    match Tx ds with
    | Some t =>
        conn ← deref (Transaction.Conn t);
        V2.log_query conn vsql ds;;
        Prepare_stmt (OnTx (Transaction.tx t)) (Some context) vsql
    | None =>
        conn ← deref (Connection ds);
        V2.log_query conn vsql ds;;
        Prepare_stmt (OnDB (Conn.DB conn)) (Some context) vsql
    end;
  run_prepared prepared (Some context) (GetParams ds).

Definition DeleteContext (l : loc) (context : Context) : M Server (Z * option error) :=
  r ← ExecContext l context;
  lift (rows_affected r).

End Engine.
End ExecV2.

(** ** Further concrete settings for the examples *)

Module Sample2.

(** Equality of boxed values of the same kind; two slices of one type are
    not comparable. *)
#[export] Instance comparison : Comparison := {
  go_equal a b :=
    match a, b with
    | VNil, VNil => Returned true
    | VInt x, VInt y => Returned (x =? y)
    | VString s, VString t => Returned (String.eqb s t)
    | VBool x, VBool y => Returned (Bool.eqb x y)
    | VSlice _ _, VSlice _ _ => Panicked "runtime error: comparing uncomparable type"
    | _, _ => Returned false
    end
}.

(** A DataSet of three rows, [CODE = 7], [CODE = 9], [CODE = 9], standing on
    the first. *)
Definition three_rows : DataSet :=
  with_cursor (with_Rows (Sample.dataset Sample.oracle "select CODE from m")
                         [Sample.row "CODE" (VInt 7); Sample.row "CODE" (VInt 9);
                          Sample.row "CODE" (VInt 9)]) 0 1.

(** An answer of two columns and two records. *)
Definition two_records : RowSet :=
  mkRowSet [("code", ScanInt64); ("name", ScanString)]
           [[VInt 1; VString "one"]; [VInt 2; VString "two"]].

(** A DataSet with one field declared under a name no column has. *)
Definition declared : DataSet :=
  with_Fields (Sample.dataset Sample.oracle "select code, name from m")
              [Field.mk "TOTAL" None None 0 0].

(** The only query is answered with [two_records]. *)
Definition answers_two_records : Sample.Script :=
  Sample.mkScript [(Some two_records, None)] [] [] [] [].

(** The master DataSet of the examples, bound to transaction 5 of its
    connection. *)
Definition in_transaction : DataSet :=
  mkDataSet (Connection Sample.master) (Some (Transaction.mk 5%nat (Some Sample.oracle)))
            (Ctx Sample.master) (Sql Sample.master) (Fields Sample.master)
            (Params Sample.master) (Macros Sample.master) (Rows Sample.master)
            (Index Sample.master) (Recno Sample.master) (MasterSource Sample.master)
            (IndexFieldNames Sample.master) (Silent Sample.master).

(** The macro [&tab], expanding to [users]. *)
Definition table_macro : Macro.t := Macro.mk "tab" {| Value := VString "users" |}.

(** A DataSet whose SQL does not name its macro. *)
Definition unused_macro : DataSet :=
  mkDataSet (Some Sample.oracle) None None (Strings.Add [] "select 1 from dual")
            NewFields NewParams [table_macro] [] 0 0 NewMasterSource "" true.

(** The struct type of the examples: a tagged field, an embedded one and a
    slice. *)
Definition code_struct : GoType :=
  TStruct "Item" [("Id", "CODE", false, TBasic BInt "int");
                  ("Base", "", true, TStruct "Base" []);
                  ("Tags", "", false, TSlice (TBasic BString "string"))].

(** Every execution reports one affected row. *)
#[export] Instance one_row_affected : ResultDriver Sample.Script := {
  drv_StmtResult _ _ _ _ := Some (mkSqlResult 1 None)
}.

(** The statement cannot be prepared. *)
Definition prepare_fails : Sample.Script :=
  Sample.mkScript [] [] [] [(None, Some (DriverError "syntax error"))] [].

End Sample2.

(** * Properties *)

(** ** Go strings *)

Lemma str_app_cons (c : ascii) (s t : string) : String c s +:+ t = String c (s +:+ t).
Proof. reflexivity. Qed.

Lemma str_app_nil_l (s : string) : "" +:+ s = s.
Proof. reflexivity. Qed.

Lemma str_app_nil_r (s : string) : s +:+ "" = s.
Proof. induction s as [|c s IH]; [done | by rewrite str_app_cons, IH]. Qed.

Lemma str_app_assoc (s1 s2 s3 : string) : (s1 +:+ s2) +:+ s3 = s1 +:+ s2 +:+ s3.
Proof. induction s1 as [|c s1 IH]; [reflexivity | by rewrite !str_app_cons, IH]. Qed.

Lemma str_length_app (s1 s2 : string) :
  String.length (s1 +:+ s2) = (String.length s1 + String.length s2)%nat.
Proof. induction s1 as [|c s1 IH]; [reflexivity | rewrite str_app_cons; simpl; by rewrite IH]. Qed.

Lemma HasPrefix_app (p after : string) : HasPrefix (p +:+ after) p = true.
Proof.
  induction p as [|c p IH]; [reflexivity|].
  rewrite str_app_cons. simpl. by rewrite Ascii.eqb_refl.
Qed.

Lemma HasPrefix_split (s p : string) :
  HasPrefix s p = true -> exists after, s = p +:+ after.
Proof.
  revert s. induction p as [|c p IH]; intros s Hp; simpl in *.
  - by exists s.
  - destruct s as [|d s]; [done|].
    destruct (Ascii.eqb_spec c d) as [->|]; [|done].
    destruct (IH s Hp) as [after ->]. by exists after.
Qed.

Lemma str_take_app (s1 s2 : string) : str_take (String.length s1) (s1 +:+ s2) = s1.
Proof.
  induction s1 as [|c s1 IH]; [by destruct s2|].
  rewrite str_app_cons. simpl. by rewrite IH.
Qed.

Lemma str_drop_app (s1 s2 : string) : str_drop (String.length s1) (s1 +:+ s2) = s2.
Proof.
  induction s1 as [|c s1 IH]; [by destruct s2|].
  rewrite str_app_cons. simpl. exact IH.
Qed.

Lemma get_app_r (s1 s2 : string) :
  String.get (String.length s1) (s1 +:+ s2) = String.get 0 s2.
Proof.
  induction s1 as [|c s1 IH]; [reflexivity|].
  rewrite str_app_cons. simpl. exact IH.
Qed.

(** ** Cursor navigation *)

Lemma wrap_int_small (z : Z) : - 2 ^ 63 <= z < 2 ^ 63 -> wrap_int z = z.
Proof.
  intros Hz. unfold wrap_int.
  rewrite Z.mod_small; lia.
Qed.

Lemma Count_with_cursor (ds : DataSet) (i r : Z) : Count (with_cursor ds i r) = Count ds.
Proof. reflexivity. Qed.

Lemma with_cursor_twice (ds : DataSet) (i r i' r' : Z) :
  with_cursor (with_cursor ds i r) i' r' = with_cursor ds i' r'.
Proof. reflexivity. Qed.

Lemma Eof_on_row (ds : DataSet) (k : nat) :
  Rows ds <> [] ->
  Eof (on_row ds k) = bool_decide (length (Rows ds) <= k)%nat.
Proof.
  intros Hne. unfold Eof, on_row. rewrite Count_with_cursor. simpl.
  unfold Count. destruct (Rows ds) as [|r rows]; [done|]. simpl length.
  replace (Z.of_nat (S (length rows)) =? 0) with false by (symmetry; apply Z.eqb_neq; lia).
  simpl. case_bool_decide.
  - apply Z.ltb_lt. lia.
  - apply Z.ltb_ge. lia.
Qed.

Lemma Next_on_row (ds : DataSet) (k : nat) :
  Rows ds <> [] ->
  (k < length (Rows ds))%nat ->
  Count ds < 2 ^ 63 - 1 ->
  Next (on_row ds k) = on_row ds (S k).
Proof.
  intros Hne Hk Hmax. unfold Next. rewrite Eof_on_row by done.
  rewrite bool_decide_eq_false_2 by lia. simpl.
  unfold on_row. rewrite with_cursor_twice. simpl.
  unfold Count in Hmax.
  rewrite !wrap_int_small by lia.
  f_equal; lia.
Qed.

Lemma walk_on_row (ds : DataSet) (m : nat) :
  forall k : nat,
    Rows ds <> [] ->
    Count ds < 2 ^ 63 - 1 ->
    (k + m = length (Rows ds))%nat ->
    walk (S m) (on_row ds k)
    = Some (map (on_row ds) (seq k m), on_row ds (length (Rows ds))).
Proof.
  induction m as [|m IH]; intros k Hne Hmax Hkm.
  - simpl. rewrite Eof_on_row by done.
    rewrite bool_decide_eq_true_2 by lia.
    replace k with (length (Rows ds)) by lia. reflexivity.
  - change (walk (S (S m)) (on_row ds k))
      with (if Eof (on_row ds k) then Some ([], on_row ds k)
            else match walk (S m) (Next (on_row ds k)) with
                 | Some (visited, final) => Some (on_row ds k :: visited, final)
                 | None => None
                 end).
    rewrite Eof_on_row by done.
    rewrite bool_decide_eq_false_2 by lia.
    rewrite Next_on_row by (done || lia).
    rewrite (IH (S k)) by (done || lia).
    reflexivity.
Qed.

Lemma walk_more_fuel (fuel : nat) :
  forall (ds : DataSet) r (extra : nat),
    walk fuel ds = Some r -> walk (fuel + extra) ds = Some r.
Proof.
  induction fuel as [|fuel IH]; intros ds r extra Hw; [discriminate|].
  simpl in *. destruct (Eof ds); [done|].
  destruct (walk fuel (Next ds)) as [[visited final]|] eqn:Hrec; [|discriminate].
  by rewrite (IH _ _ extra Hrec).
Qed.

Lemma First_on_row (ds : DataSet) : Rows ds <> [] -> First ds = on_row ds O.
Proof.
  intros Hne. unfold First, on_row, Count.
  destruct (Rows ds) as [|r rows] eqn:Hrows; [done|].
  reflexivity.
Qed.

(** C8.  On a non-empty row set, the loop that starts with [First] and calls
    [Next] until [Eof] returns, runs its body exactly [Count()] times, on the
    rows 0, 1, ..., [Count()-1] in this order, ends in a state where [Eof]
    holds, and [Recno = Index + 1] holds in every state of the iteration, the
    last one included. *)
Theorem walk_visits_every_row (ds : DataSet) :
  Rows ds <> [] ->
  Count ds < 2 ^ 63 - 1 ->
  exists visited final,
    (forall fuel, (length (Rows ds) < fuel)%nat ->
                  walk fuel (First ds) = Some (visited, final))
    /\ Z.of_nat (length visited) = Count ds
    /\ map Index visited = map Z.of_nat (seq 0 (length (Rows ds)))
    /\ Forall (fun d => Rows d = Rows ds /\ Recno d = Index d + 1) (visited ++ [final])
    /\ Forall (fun d => Eof d = false) visited
    /\ Eof final = true.
Proof.
  intros Hne Hmax.
  exists (map (on_row ds) (seq 0 (length (Rows ds)))), (on_row ds (length (Rows ds))).
  split; [|split; [|split; [|split; [|split]]]].
  - intros fuel Hfuel. rewrite First_on_row by done.
    replace fuel with (S (length (Rows ds)) + (fuel - S (length (Rows ds))))%nat by lia.
    apply walk_more_fuel. by apply walk_on_row.
  - rewrite length_map, length_seq. reflexivity.
  - rewrite map_map. reflexivity.
  - apply Forall_app. split.
    + apply Forall_forall. intros d Hd. apply list_elem_of_In, in_map_iff in Hd.
      destruct Hd as (k & <- & _). done.
    + by constructor.
  - apply Forall_forall. intros d Hd. apply list_elem_of_In, in_map_iff in Hd.
    destruct Hd as (k & <- & Hk). apply in_seq in Hk.
    rewrite Eof_on_row by done. apply bool_decide_eq_false_2. lia.
  - rewrite Eof_on_row by done. by apply bool_decide_eq_true_2.
Qed.

Lemma walk_visits_every_row_witness :
  exists visited final,
    (forall fuel, (length (Rows Sample.master) < fuel)%nat ->
                  walk fuel (First Sample.master) = Some (visited, final))
    /\ Z.of_nat (length visited) = Count Sample.master
    /\ map Index visited = map Z.of_nat (seq 0 (length (Rows Sample.master)))
    /\ Forall (fun d => Rows d = Rows Sample.master /\ Recno d = Index d + 1)
              (visited ++ [final])
    /\ Forall (fun d => Eof d = false) visited
    /\ Eof final = true.
Proof.
  apply (walk_visits_every_row Sample.master).
  - discriminate.
  - reflexivity.
Defined.

(** ** Close *)

(** C3, as amended.  [Close] discards the rows, the fields, the parameters,
    the macros and the master-source link, resets the cursor to
    [Index = Recno = 0], and also clears the SQL text; the separate variant
    [CloseNoClearSQL] does the same and leaves the SQL text as it is. *)
Theorem Close_clears_the_sql_text (ds : DataSet) :
  (Rows (Close ds) = [] /\ Fields (Close ds) = NewFields
   /\ Params (Close ds) = NewParams /\ Macros (Close ds) = NewMacros
   /\ MasterSource (Close ds) = NewMasterSource
   /\ Index (Close ds) = 0 /\ Recno (Close ds) = 0
   /\ Sql (Close ds) = [] /\ Strings.Text (Sql (Close ds)) = "")
  /\ (Rows (CloseNoClearSQL ds) = [] /\ Fields (CloseNoClearSQL ds) = NewFields
      /\ Params (CloseNoClearSQL ds) = NewParams
      /\ Macros (CloseNoClearSQL ds) = NewMacros
      /\ MasterSource (CloseNoClearSQL ds) = NewMasterSource
      /\ Index (CloseNoClearSQL ds) = 0 /\ Recno (CloseNoClearSQL ds) = 0
      /\ Sql (CloseNoClearSQL ds) = Sql ds).
Proof. repeat split. Qed.

(** [Close] does not leave the SQL text unchanged. *)
Lemma Close_keeps_sql_counterexample :
  Strings.Text (Sql (Close (Sample.dataset Sample.oracle "select 1")))
  <> Strings.Text (Sql (Sample.dataset Sample.oracle "select 1")).
Proof. discriminate. Qed.

(** ** Open: what an error leaves behind *)

Section OpenErrors.
Context `{Helpers} {Server : Type} `{Driver Server}.
Implicit Types (w : World Server) (l : loc).

Lemma M_bind_inv {A B} (m : M Server A) (f : A -> M Server B) w r :
  (m ≫= f) w = Returned r ->
  exists a w1, m w = Returned (a, w1) /\ f a w1 = Returned r.
Proof.
  unfold mbind, M_bind. destruct (m w) as [[a w1]|msg]; [|discriminate].
  intros Hf. by exists a, w1.
Qed.

Lemma keeps_bind {A B} l (m : M Server A) (f : A -> M Server B) :
  keeps_cleared l m -> (forall a, keeps_cleared l (f a)) ->
  keeps_cleared l (m ≫= f).
Proof.
  intros Hm Hf w b w' Hw Hrun.
  apply M_bind_inv in Hrun as (a & w1 & Hrun1 & Hrun2).
  eapply Hf; [|done]. by eapply Hm.
Qed.

Lemma error_bind {A} l (m : M Server A) (f : A -> M Server (option error)) :
  keeps_cleared l m -> (forall a, error_cleared l (f a)) ->
  error_cleared l (m ≫= f).
Proof.
  intros Hm Hf w e w' Hw Hrun.
  apply M_bind_inv in Hrun as (a & w1 & Hrun1 & Hrun2).
  eapply Hf; [|done]. by eapply Hm.
Qed.

Lemma error_ret l (r : option error) : error_cleared (Server:=Server) l (mret r).
Proof. intros w e w' Hw Hrun. by injection Hrun as _ <-. Qed.

Lemma keeps_ret {A} l (a : A) : keeps_cleared (Server:=Server) l (mret a).
Proof. intros w b w' Hw Hrun. by injection Hrun as _ <-. Qed.

Lemma keeps_lift {A} l (o : outcome A) : keeps_cleared (Server:=Server) l (lift o).
Proof. intros w b w' Hw Hrun. destruct o; [|done]. by injection Hrun as _ <-. Qed.

Lemma keeps_deref {A} l (p : option A) : keeps_cleared (Server:=Server) l (deref p).
Proof. destruct p; [apply keeps_ret | apply keeps_lift]. Qed.

Lemma keeps_get_ds l l' : keeps_cleared (Server:=Server) l (get_ds l').
Proof.
  intros w b w' Hw Hrun. unfold get_ds in Hrun.
  destruct (heap w !! l'); [|done]. by injection Hrun as _ <-.
Qed.

Lemma keeps_Println l lines : keeps_cleared (Server:=Server) l (Println lines).
Proof. intros w b w' Hw Hrun. by injection Hrun as _ <-. Qed.

Lemma keeps_Query l t ctx sql args : keeps_cleared l (Query t ctx sql args).
Proof.
  intros w b w' Hw Hrun. unfold Query in Hrun.
  destruct (drv_Query (server w) t ctx sql args) as [s r].
  by injection Hrun as _ <-.
Qed.

Lemma keeps_Ping l db ctx : keeps_cleared l (Ping db ctx).
Proof.
  intros w b w' Hw Hrun. unfold Ping in Hrun.
  destruct (drv_Ping (server w) db ctx) as [s r].
  by injection Hrun as _ <-.
Qed.

Lemma keeps_Conn_Open l db : keeps_cleared l (Conn_Open db).
Proof.
  intros w b w' Hw Hrun. unfold Conn_Open in Hrun.
  destruct (drv_Open (server w) db) as [s r].
  by injection Hrun as _ <-.
Qed.

Lemma keeps_log_query2 l conn query ds : keeps_cleared (Server:=Server) l (V2.log_query conn query ds).
Proof. unfold V2.log_query. destruct (Conn.log conn); [apply keeps_Println | apply keeps_ret]. Qed.

Lemma keeps_log_query1 l conn query ds : keeps_cleared (Server:=Server) l (V1.log_query conn query ds).
Proof. unfold V1.log_query. destruct (Conn.log conn); [apply keeps_Println | apply keeps_ret]. Qed.

(** Assembly changes the parameters only. *)
Lemma masterDetail_frame2 h ds query ds' lines :
  V2.GetSqlMasterDetail h ds = Returned (query, ds', lines) ->
  exists params, ds' = with_Params ds params.
Proof.
  unfold V2.GetSqlMasterDetail. destruct (V2.GetSql ds) as [vsql|]; [|done]. simpl.
  destruct (masterDetail_wrap h ds vsql) as [[[vsql' params] lines']|]; [|done]. simpl.
  destruct (V2.replaceAllParam _ _); [|done]. simpl.
  intros [= _ <- _]. by exists params.
Qed.

Lemma masterDetail_frame1 h ds query ds' lines :
  V1.GetSqlMasterDetail h ds = Returned (query, ds', lines) ->
  exists params, ds' = with_Params ds params.
Proof.
  unfold V1.GetSqlMasterDetail.
  destruct (masterDetail_wrap h ds _) as [[[vsql' params] lines']|]; [|done]. simpl.
  intros [= _ <- _]. by exists params.
Qed.

Lemma cleared_put l w ds :
  is_cleared ds ->
  cleared l (mkWorld (server w) (<[l:=ds]> (heap w)) (stdout w) (trace w)).
Proof. intros Hds. exists ds. simpl. by rewrite lookup_insert_eq. Qed.

Lemma keeps_assembly2 l : keeps_cleared (Server:=Server) l (V2.GetSqlMasterDetail_at l).
Proof.
  intros w q w' (ds0 & Hl & Hds0) Hrun. unfold V2.GetSqlMasterDetail_at in Hrun.
  apply M_bind_inv in Hrun as (ds & w1 & Hget & Hrun).
  unfold get_ds in Hget. rewrite Hl in Hget. injection Hget as <- <-.
  apply M_bind_inv in Hrun as (h & w1 & [= <- <-] & Hrun).
  apply M_bind_inv in Hrun as ([[query ds'] lines] & w1 & Hasm & Hrun).
  unfold lift in Hasm.
  destruct (V2.GetSqlMasterDetail (heap w) ds0) as [r|] eqn:Hgsmd; [|done].
  injection Hasm as -> <-.
  apply masterDetail_frame2 in Hgsmd as [params ->].
  apply M_bind_inv in Hrun as ([] & w1 & [= <-] & Hrun).
  apply M_bind_inv in Hrun as ([] & w2 & [= <-] & Hrun).
  injection Hrun as _ <-.
  exists (with_Params ds0 params). simpl. by rewrite lookup_insert_eq.
Qed.

Lemma keeps_assembly1 l : keeps_cleared (Server:=Server) l (V1.GetSqlMasterDetail_at l).
Proof.
  intros w q w' (ds0 & Hl & Hds0) Hrun. unfold V1.GetSqlMasterDetail_at in Hrun.
  apply M_bind_inv in Hrun as (ds & w1 & Hget & Hrun).
  unfold get_ds in Hget. rewrite Hl in Hget. injection Hget as <- <-.
  apply M_bind_inv in Hrun as (h & w1 & [= <- <-] & Hrun).
  apply M_bind_inv in Hrun as ([[query ds'] lines] & w1 & Hasm & Hrun).
  unfold lift in Hasm.
  destruct (V1.GetSqlMasterDetail (heap w) ds0) as [r|] eqn:Hgsmd; [|done].
  injection Hasm as -> <-.
  apply masterDetail_frame1 in Hgsmd as [params ->].
  apply M_bind_inv in Hrun as ([] & w1 & [= <-] & Hrun).
  apply M_bind_inv in Hrun as ([] & w2 & [= <-] & Hrun).
  injection Hrun as _ <-.
  exists (with_Params ds0 params). simpl. by rewrite lookup_insert_eq.
Qed.

(** Once the rows are there, no error is returned any more, but for the
    nil check of edition 2's [OpenContext], which comes before the scan. *)
Lemma Open_finish2_no_error l rows : error_cleared (Server:=Server) l (V2.Open_finish l rows).
Proof.
  intros w e w' Hw Hrun. unfold V2.Open_finish in Hrun. destruct rows as [list|].
  - apply M_bind_inv in Hrun as (ds & w1 & _ & Hrun).
    apply M_bind_inv in Hrun as (ds' & w2 & _ & Hrun).
    apply M_bind_inv in Hrun as ([] & w3 & _ & Hrun).
    apply M_bind_inv in Hrun as ([] & w4 & _ & Hrun).
    discriminate.
  - apply M_bind_inv in Hrun as ([] & w1 & Hclose & _). discriminate.
Qed.

Lemma OpenContext_finish2_error l rows : error_cleared (Server:=Server) l (V2.OpenContext_finish l rows).
Proof.
  intros w e w' Hw Hrun. unfold V2.OpenContext_finish in Hrun. destruct rows as [list|].
  - apply M_bind_inv in Hrun as (ds & w1 & _ & Hrun).
    apply M_bind_inv in Hrun as (ds' & w2 & _ & Hrun).
    apply M_bind_inv in Hrun as ([] & w3 & _ & Hrun).
    apply M_bind_inv in Hrun as ([] & w4 & _ & Hrun).
    discriminate.
  - by injection Hrun as _ <-.
Qed.

Lemma Open_finish1_no_error l rows : error_cleared (Server:=Server) l (V1.Open_finish l rows).
Proof.
  intros w e w' Hw Hrun. unfold V1.Open_finish in Hrun. destruct rows as [list|].
  - apply M_bind_inv in Hrun as (ds & w1 & _ & Hrun).
    apply M_bind_inv in Hrun as ([] & w3 & _ & Hrun).
    apply M_bind_inv in Hrun as ([] & w4 & _ & Hrun).
    discriminate.
  - discriminate.
Qed.

Ltac keeps_step :=
  first [ apply keeps_ret | apply keeps_lift | apply keeps_deref
        | apply keeps_get_ds | apply keeps_Println | apply keeps_Query
        | apply keeps_Ping | apply keeps_Conn_Open | apply keeps_log_query2
        | apply keeps_log_query1 | apply keeps_assembly2 | apply keeps_assembly1 ].

Ltac error_step :=
  lazymatch goal with
  | |- error_cleared _ (mret _) => apply error_ret
  | |- error_cleared _ (V2.Open_finish _ _) => apply Open_finish2_no_error
  | |- error_cleared _ (V2.OpenContext_finish _ _) => apply OpenContext_finish2_error
  | |- error_cleared _ (V1.Open_finish _ _) => apply Open_finish1_no_error
  | |- error_cleared _ (_ ≫= _) =>
      apply error_bind; [keeps_step | intros ?; cbv beta]
  | |- error_cleared _ (match ?x with _ => _ end) => destruct x
  end.

(** After the reset that opens [Open], an error leaves the DataSet as the
    reset made it. *)
Lemma reset_then_error l (g : DataSet -> DataSet) (k : M Server (option error)) w e w' :
  (forall ds, is_cleared (g ds)) ->
  error_cleared l k ->
  (ds ← get_ds l; put_ds l (g ds);; k) w = Returned (Some e, w') ->
  cleared l w'.
Proof.
  intros Hg Hk Hrun.
  apply M_bind_inv in Hrun as (ds & w1 & Hget & Hrun).
  apply M_bind_inv in Hrun as ([] & w2 & [= <-] & Hrun).
  eapply Hk; [|done]. by apply cleared_put.
Qed.

Lemma reset_is_cleared (ds : DataSet) : is_cleared (with_cursor (with_Rows ds []) 0 0).
Proof. done. Qed.

Lemma CreateFields_is_cleared (ds : DataSet) :
  is_cleared ds -> is_cleared (snd (V1.CreateFields ds)).
Proof. unfold V1.CreateFields. by destruct (SelectExprNames _). Qed.

Lemma Open2_error l w e w' : V2.Open l w = Returned (Some e, w') -> cleared l w'.
Proof.
  unfold V2.Open. apply reset_then_error; [apply reset_is_cleared|].
  repeat error_step.
Qed.

Lemma OpenContext2_error l c w e w' :
  V2.OpenContext l c w = Returned (Some e, w') -> cleared l w'.
Proof.
  unfold V2.OpenContext. apply reset_then_error; [apply reset_is_cleared|].
  repeat error_step.
Qed.

Lemma Open1_error l ctx w e w' : V1.Open_with ctx l w = Returned (Some e, w') -> cleared l w'.
Proof.
  unfold V1.Open_with.
  apply (reset_then_error l
           (fun ds => if (length (Fields (with_cursor (with_Rows ds []) 0 0)) =? 0)%nat
                      then snd (V1.CreateFields (with_cursor (with_Rows ds []) 0 0))
                      else with_cursor (with_Rows ds []) 0 0)).
  - intros ds. case_match; [apply CreateFields_is_cleared|]; apply reset_is_cleared.
  - repeat error_step.
Qed.

End OpenErrors.

(** C10.  When [Open] or [OpenContext], of either edition, returns an error,
    the rows of any earlier [Open] are gone: the row store of the DataSet is
    empty, [Count() = 0], and [Index = Recno = 0]. *)
Theorem Open_error_discards_rows `{Helpers} {Server : Type} `{Driver Server}
        (l : loc) (context : Context) (op : M Server (option error))
        (w w' : World Server) (e : error) :
  op ∈ [V2.Open l; V2.OpenContext l context; V1.Open l; V1.OpenContext l context] ->
  op w = Returned (Some e, w') ->
  exists ds', heap w' !! l = Some ds'
              /\ Rows ds' = [] /\ Count ds' = 0 /\ Index ds' = 0 /\ Recno ds' = 0.
Proof.
  intros Hop Hrun.
  assert (cleared l w') as (ds' & Hl & Hds').
  { rewrite !elem_of_cons, elem_of_nil in Hop.
    destruct Hop as [-> | [-> | [-> | [-> | []]]]].
    - by eapply Open2_error.
    - by eapply OpenContext2_error.
    - by eapply Open1_error.
    - by eapply Open1_error. }
  by exists ds'.
Qed.

Section OpenErrorExample.
#[local] Existing Instances Sample.helpers Sample.scripted.

Lemma Open_error_discards_rows_witness :
  exists e w',
  V2.Open 1%nat (Sample.world Sample.query_fails Sample.heap_with_master)
  = Returned (Some e, w')
  /\ exists ds', heap w' !! 1%nat = Some ds'
                 /\ Rows ds' = [] /\ Count ds' = 0 /\ Index ds' = 0 /\ Recno ds' = 0.
Proof.
  assert (exists e w',
           V2.Open 1%nat (Sample.world Sample.query_fails Sample.heap_with_master)
           = Returned (Some e, w')) as (e & w' & Hrun).
  { vm_compute. eauto. }
  exists e, w'. split; [exact Hrun|].
  apply (Open_error_discards_rows 1%nat O (V2.Open 1%nat)
         (Sample.world Sample.query_fails Sample.heap_with_master) w' e);
  [constructor | exact Hrun].
Defined.

End OpenErrorExample.

(** ** Open: reconnection *)

Section Reconnect.
Context `{Helpers} {Server : Type} `{Driver Server}.

(** Once the rows are there, [Open] makes no further call but
    [rows.Close()]. *)
Lemma Open_finish_trace (l : loc) (rows : option RowSet) (w w' : World Server)
      (r : option error) :
  V2.Open_finish l rows w = Returned (r, w') ->
  r = None /\ trace w' = (trace w ++ [EvRowsClose])%list.
Proof.
  unfold V2.Open_finish. destruct rows as [list|].
  - unfold mbind, M_bind, get_ds, lift, put_ds, Rows_Close, mret, M_ret, emit.
    destruct (heap w !! l); [|done]. destruct (V2.scan _ _); [|done]. simpl.
    by intros [= <- <-].
  - unfold mbind, M_bind, Rows_Close, lift. done.
Qed.

Lemma could_not_open_differs (e : error) : could_not_open e <> e.
Proof.
  unfold could_not_open. destruct e as [msg|msg]; [discriminate|].
  simpl. intros [= Heq].
  apply (f_equal String.length) in Heq.
  rewrite !str_length_app in Heq. simpl in Heq. lia.
Qed.

Lemma count_events_app (f : Event -> bool) (evs1 evs2 : list Event) :
  count_events f (evs1 ++ evs2) = (count_events f evs1 + count_events f evs2)%nat.
Proof. unfold count_events. by rewrite List.filter_app, length_app. Qed.

Lemma within_silent {A} (m : M Server A) (queries reconnects : nat) :
  (forall w a w', m w = Returned (a, w') -> trace w' = trace w) ->
  calls_within queries reconnects m.
Proof.
  intros Hm w a w' Hrun. exists []. rewrite app_nil_r.
  split; [by eapply Hm|]. split; unfold count_events; simpl; lia.
Qed.

Lemma within_bind {A B} (m : M Server A) (f : A -> M Server B)
      (q1 r1 queries reconnects : nat) :
  calls_within q1 r1 m -> (q1 <= queries)%nat -> (r1 <= reconnects)%nat ->
  (forall a, calls_within (queries - q1) (reconnects - r1) (f a)) ->
  calls_within queries reconnects (m ≫= f).
Proof.
  intros Hm Hq Hr Hf w b w' Hrun.
  apply M_bind_inv in Hrun as (a & w1 & Hrun1 & Hrun2).
  destruct (Hm _ _ _ Hrun1) as (evs1 & Ht1 & Hq1 & Hr1).
  destruct (Hf a _ _ _ Hrun2) as (evs2 & Ht2 & Hq2 & Hr2).
  exists (evs1 ++ evs2)%list. rewrite Ht2, Ht1, <- app_assoc, !count_events_app.
  split; [done|]. split; lia.
Qed.

Lemma within_Query t ctx sql args (reconnects : nat) :
  calls_within 1 reconnects (Query t ctx sql args).
Proof.
  intros w a w' Hrun. unfold Query in Hrun.
  destruct (drv_Query (server w) t ctx sql args) as [s r].
  injection Hrun as _ <-. eexists. split; [reflexivity|]. split; unfold count_events; simpl; lia.
Qed.

Lemma within_Conn_Open db (queries : nat) : calls_within queries 1 (Conn_Open db).
Proof.
  intros w a w' Hrun. unfold Conn_Open in Hrun.
  destruct (drv_Open (server w) db) as [s r].
  injection Hrun as _ <-. eexists. split; [reflexivity|]. split; unfold count_events; simpl; lia.
Qed.

Lemma within_Ping db ctx (queries reconnects : nat) :
  calls_within queries reconnects (Ping db ctx).
Proof.
  intros w a w' Hrun. unfold Ping in Hrun.
  destruct (drv_Ping (server w) db ctx) as [s r].
  injection Hrun as _ <-. eexists. split; [reflexivity|]. split; unfold count_events; simpl; lia.
Qed.

Lemma within_Rows_Close rows (queries reconnects : nat) :
  calls_within (Server:=Server) queries reconnects (Rows_Close rows).
Proof.
  intros w a w' Hrun. destruct rows; [|done].
  injection Hrun as _ <-. eexists. split; [reflexivity|]. split; unfold count_events; simpl; lia.
Qed.

Lemma within_ret {A} (a : A) (queries reconnects : nat) :
  calls_within (Server:=Server) queries reconnects (mret a).
Proof. apply within_silent. by intros w b w' [= _ <-]. Qed.

Lemma within_lift {A} (o : outcome A) (queries reconnects : nat) :
  calls_within (Server:=Server) queries reconnects (lift o).
Proof. apply within_silent. intros w b w'. destruct o; [|done]. by intros [= _ <-]. Qed.

Lemma within_deref {A} (p : option A) (queries reconnects : nat) :
  calls_within (Server:=Server) queries reconnects (deref p).
Proof. destruct p; [apply within_ret | apply within_lift]. Qed.

Lemma within_get_ds l (queries reconnects : nat) :
  calls_within (Server:=Server) queries reconnects (get_ds l).
Proof.
  apply within_silent. intros w b w'. unfold get_ds.
  destruct (heap w !! l); [|done]. by intros [= _ <-].
Qed.

Lemma within_get_heap (queries reconnects : nat) :
  calls_within (Server:=Server) queries reconnects get_heap.
Proof. apply within_silent. by intros w b w' [= _ <-]. Qed.

Lemma within_put_ds l ds (queries reconnects : nat) :
  calls_within (Server:=Server) queries reconnects (put_ds l ds).
Proof. apply within_silent. by intros w b w' [= _ <-]. Qed.

Lemma within_Println lines (queries reconnects : nat) :
  calls_within (Server:=Server) queries reconnects (Println lines).
Proof. apply within_silent. by intros w b w' [= _ <-]. Qed.

Lemma within_log_query conn query ds (queries reconnects : nat) :
  calls_within (Server:=Server) queries reconnects (V2.log_query conn query ds).
Proof. unfold V2.log_query. destruct (Conn.log conn); [apply within_Println | apply within_ret]. Qed.

Ltac within_leaf :=
  first [ apply within_Query | apply within_Conn_Open | apply within_Ping
        | apply within_Rows_Close | apply within_ret | apply within_lift
        | apply within_deref | apply within_get_ds | apply within_get_heap
        | apply within_put_ds | apply within_Println | apply within_log_query ].

Lemma within_assembly l (queries reconnects : nat) :
  calls_within (Server:=Server) queries reconnects (V2.GetSqlMasterDetail_at l).
Proof.
  unfold V2.GetSqlMasterDetail_at.
  eapply (within_bind _ _ 0 0); [within_leaf | lia | lia | intros ds].
  eapply (within_bind _ _ 0 0); [within_leaf | lia | lia | intros h].
  eapply (within_bind _ _ 0 0); [within_leaf | lia | lia | intros [[query ds'] lines]].
  eapply (within_bind _ _ 0 0); [within_leaf | lia | lia | intros ?].
  eapply (within_bind _ _ 0 0); [within_leaf | lia | lia | intros ?].
  within_leaf.
Qed.

Lemma within_Open_finish l rows (queries reconnects : nat) :
  calls_within (Server:=Server) queries reconnects (V2.Open_finish l rows).
Proof.
  unfold V2.Open_finish. destruct rows.
  - eapply (within_bind _ _ 0 0); [within_leaf | lia | lia | intros ?].
    eapply (within_bind _ _ 0 0); [within_leaf | lia | lia | intros ?].
    eapply (within_bind _ _ 0 0); [within_leaf | lia | lia | intros ?].
    eapply (within_bind _ _ 0 0); [within_leaf | lia | lia | intros ?].
    within_leaf.
  - eapply (within_bind _ _ 0 0); [within_leaf | lia | lia | intros ?]. within_leaf.
Qed.

(** Whatever happens, a call of [Open] sends at most two queries and reopens
    the connection at most once. *)
Lemma Open_calls_within (l : loc) : calls_within (Server:=Server) 2 1 (V2.Open l).
Proof.
  unfold V2.Open.
  eapply (within_bind _ _ 0 0); [within_leaf | lia | lia | intros ds].
  eapply (within_bind _ _ 0 0); [within_leaf | lia | lia | intros ?].
  eapply (within_bind _ _ 0 0); [apply within_assembly | lia | lia | intros query].
  eapply (within_bind _ _ 0 0); [within_leaf | lia | lia | intros ds'].
  cbn [Nat.sub]. destruct (Tx ds') as [t|].
  - eapply (within_bind _ _ 0 0); [within_leaf | lia | lia | intros conn].
    eapply (within_bind _ _ 0 0); [within_leaf | lia | lia | intros ?].
    eapply (within_bind _ _ 1 0); [within_leaf | lia | lia | intros [rows [e|]]];
      [within_leaf | apply within_Open_finish].
  - eapply (within_bind _ _ 0 0); [within_leaf | lia | lia | intros conn].
    eapply (within_bind _ _ 0 0); [within_leaf | lia | lia | intros ?].
    eapply (within_bind _ _ 1 0); [within_leaf | lia | lia | intros [rows [e|]]];
      [|apply within_Open_finish].
    eapply (within_bind _ _ 0 0); [within_leaf | lia | lia | intros [ep|]];
      [|within_leaf].
    eapply (within_bind _ _ 0 1); [within_leaf | lia | lia | intros [ec|]];
      [within_leaf|].
    eapply (within_bind _ _ 1 0); [within_leaf | lia | lia | intros [rows' [e'|]]];
      [within_leaf | apply within_Open_finish].
Qed.

(** C6, as amended.  When the query of [Open] against the connection (no
    transaction bound) fails with [e], the engine pings the connection.  If
    the ping succeeds, [Open] returns a new error whose text is "could not
    open dataset ", the text of [e] and a line feed, which is never [e]
    itself.  If the ping fails, the connection is reopened once: when that
    fails, [Open] returns [e]; when it succeeds, the query is sent a second
    time, and [Open] returns the error of that second query or goes on to
    read the rows.  The calls are exactly those listed: at most two queries
    and one reconnection, and reading the rows adds only [rows.Close()]. *)
Theorem Open_reconnects_once (l : loc) (w : World Server) (ds0 ds1 : DataSet)
        (conn : Conn.t) (query : string) (lines : list string)
        (s2 : Server) (rows : option RowSet) (e : error) :
  heap w !! l = Some ds0 ->
  Tx ds0 = None ->
  Connection ds0 = Some conn ->
  V2.GetSqlMasterDetail (<[l:=reset_rows ds0]> (heap w)) (reset_rows ds0)
  = Returned (query, ds1, lines) ->
  drv_Query (server w) (OnDB (Conn.DB conn)) (Ctx ds0) query (GetParams ds1)
  = (s2, (rows, Some e)) ->
  let db := Conn.DB conn in
  let q := EvQuery (OnDB db) (Ctx ds0) query (GetParams ds1) in
  let after s evs :=
    mkWorld s (<[l:=ds1]> (<[l:=reset_rows ds0]> (heap w)))
            ((stdout w ++ lines)
             ++ (if Conn.log conn then query :: PrintParam (Params ds1) else []))%list
            (trace w ++ evs)%list in
  V2.Open l w
  = match drv_Ping s2 db None with
    | (s3, None) =>
        Returned (Some (could_not_open e), after s3 [q; EvPing db None])
    | (s3, Some _) =>
        match drv_Open s3 db with
        | (s4, Some _) => Returned (Some e, after s4 [q; EvPing db None; EvOpen db])
        | (s4, None) =>
            match drv_Query s4 (OnDB db) (Ctx ds0) query (GetParams ds1) with
            | (s5, (_, Some e')) =>
                Returned (Some e', after s5 [q; EvPing db None; EvOpen db; q])
            | (s5, (rows', None)) =>
                V2.Open_finish l rows' (after s5 [q; EvPing db None; EvOpen db; q])
            end
        end
    end
  /\ could_not_open e <> e
  /\ (forall rows' (w1 w2 : World Server) r,
         V2.Open_finish l rows' w1 = Returned (r, w2) ->
         r = None /\ trace w2 = (trace w1 ++ [EvRowsClose])%list).
Proof.
  intros Hl Htx Hconn Hasm Hq db q after.
  split; [|split; [apply could_not_open_differs | intros *; apply Open_finish_trace]].
  destruct (masterDetail_frame2 _ _ _ _ _ Hasm) as [params ->].
  unfold V2.Open, V2.GetSqlMasterDetail_at.
  unfold mbind at 1, M_bind at 1, get_ds at 1. rewrite Hl.
  unfold mbind at 1, M_bind at 1, put_ds at 1.
  unfold mbind at 1, M_bind at 1.
  unfold mbind at 1, M_bind at 1, get_ds at 1. cbn [heap].
  rewrite lookup_insert_eq.
  unfold mbind at 1, M_bind at 1, get_heap at 1. cbn [heap].
  unfold mbind at 1, M_bind at 1, lift at 1.
  fold (reset_rows ds0). rewrite Hasm.
  unfold mbind at 1, M_bind at 1, put_ds at 1.
  unfold mbind at 1, M_bind at 1, Println at 1.
  unfold mret at 1, M_ret at 1.
  unfold mbind at 1, M_bind at 1, get_ds at 1. cbn [heap stdout server trace].
  rewrite lookup_insert_eq.
  cbn [Tx with_Params reset_rows with_cursor with_Rows Connection Ctx].
  rewrite Htx, Hconn.
  unfold mbind at 1, M_bind at 1, deref at 1, mret at 1, M_ret at 1.
  unfold mbind at 1, M_bind at 1.
  assert (forall w0 : World Server,
             V2.log_query conn query
               (with_Params (reset_rows ds0) params) w0
             = Returned (tt, mkWorld (server w0) (heap w0)
                               (stdout w0 ++ (if Conn.log conn
                                              then query :: PrintParam params
                                              else []))%list (trace w0))) as Hlog.
  { intros [sv hp out tr]. unfold V2.log_query, Println, mret, M_ret. simpl.
    destruct (Conn.log conn); [done|]. by rewrite app_nil_r. }
  fold (reset_rows ds0). rewrite Hlog. cbn [heap stdout server trace].
  unfold mbind, M_bind, Query, Ping, Conn_Open, emit, mret, M_ret.
  cbn [heap stdout server trace Ctx with_Params reset_rows with_cursor with_Rows Params] in *.
  subst db q after. cbv beta. rewrite Hq. cbn [heap stdout server trace].
  destruct (drv_Ping s2 (Conn.DB conn) None) as [s3 [ep|]];
    cbn [heap stdout server trace]; [|by rewrite <- !app_assoc].
  destruct (drv_Open s3 (Conn.DB conn)) as [s4 [ec|]];
    cbn [heap stdout server trace]; [by rewrite <- !app_assoc|].
  destruct (drv_Query s4 (OnDB (Conn.DB conn)) (Ctx ds0) query _) as [s5 [rows' [e'|]]];
    cbn [heap stdout server trace]; by rewrite <- !app_assoc.
Qed.

End Reconnect.

Section ReconnectExamples.
#[local] Existing Instances Sample.helpers Sample.scripted.

(** The query fails, the ping succeeds: the error [Open] returns is not the
    error of the query. *)
Lemma Open_wraps_error_counterexample :
  let run := V2.Open 1%nat (Sample.world Sample.query_fails Sample.heap_with_master) in
  (trace <$> world_after run)
  = Some [EvQuery (OnDB O) None "select CODE from m" []; EvPing O None]
  /\ returned run
     = Some (Some (ErrorString ("could not open dataset connection reset" +:+ LF)))
  /\ returned run <> Some (Some (DriverError "connection reset")).
Proof. vm_compute. repeat split. discriminate. Qed.

Lemma Open_reconnects_once_witness :
  let run := V2.Open 1%nat (Sample.world Sample.server_restarted Sample.heap_with_master) in
  returned run = Some None
  /\ (trace <$> world_after run)
     = Some [EvQuery (OnDB O) None "select CODE from m" []; EvPing O None; EvOpen O;
             EvQuery (OnDB O) None "select CODE from m" []; EvRowsClose].
Proof.
  destruct (Open_reconnects_once 1%nat
              (Sample.world Sample.server_restarted Sample.heap_with_master)
              Sample.master (reset_rows Sample.master) Sample.oracle
              "select CODE from m" []
              (Sample.mkScript [] [Some (DriverError "bad connection")] [] [] [])
              None (DriverError "connection reset")) as (Hopen & _ & _);
    [reflexivity | reflexivity | reflexivity | reflexivity | reflexivity |].
  cbv zeta. rewrite Hopen. vm_compute. split; reflexivity.
Defined.

(** The first edition reopens the connection and then reads the rows of the
    failed query, which are nil. *)
Example Open_first_edition_does_not_retry :
  V1.Open 1%nat (Sample.world Sample.server_restarted Sample.heap_with_master)
  = Panicked nil_dereference.
Proof. reflexivity. Qed.

End ReconnectExamples.

(** ** Batches *)

Section Batches.
Context `{Helpers} {Server : Type} `{Driver Server}.

Lemma index_not_negative (i : nat) : (Z.of_nat i <? 0) = false.
Proof. apply Z.ltb_ge. lia. Qed.

Lemma GetParamsBatch_ready (ds : DataSet) (n i : nat) :
  batch_ready ds n -> (i < n)%nat ->
  GetParamsBatch ds (Z.of_nat i) = Returned (batch_args ds i).
Proof.
  unfold batch_ready, GetParamsBatch, batch_args.
  induction (Params.List (Params ds)) as [|p ps IH]; intros Hready Hi; [done|].
  apply Forall_cons in Hready as [Hp Hps]. simpl.
  rewrite index_not_negative, Nat2Z.id.
  destruct (Param.Values p !! i) as [v|] eqn:Hv.
  - rewrite (IH Hps Hi). reflexivity.
  - apply lookup_ge_None in Hv. lia.
Qed.

(** The loop of [ExecBatch] executes in order and stops at the first
    error. *)
Lemma ExecBatch_loop_in_order (ds : DataSet) (stmt : StmtId) (count : nat) :
  forall (i : nat) (w : World Server),
    batch_ready ds (i + count) ->
    V2.ExecBatch_loop ds (Some stmt) count (Z.of_nat i) w
    = let '(s', evs, r) :=
        exec_in_order (server w) stmt (Ctx ds) (map (batch_args ds) (seq i count)) in
      Returned (r, mkWorld s' (heap w) (stdout w) (trace w ++ evs)%list).
Proof.
  induction count as [|count IH]; intros i w Hready.
  - simpl. unfold mret, M_ret. rewrite app_nil_r. by destruct w.
  - cbn [V2.ExecBatch_loop seq map exec_in_order].
    unfold mbind at 1, M_bind at 1, lift at 1.
    rewrite (GetParamsBatch_ready ds (i + S count) i) by (done || lia).
    unfold mbind at 1, M_bind at 1, Stmt_Exec at 1.
    destruct (drv_StmtExec (server w) stmt (Ctx ds) (batch_args ds i)) as [s1 [e|]].
    + reflexivity.
    + replace (Z.of_nat i + 1) with (Z.of_nat (S i)) by lia.
      rewrite IH by (eapply Forall_impl; [exact Hready | simpl; intros; lia]).
      unfold emit. cbn [server heap stdout trace].
      destruct (exec_in_order s1 stmt (Ctx ds) _) as [[s' evs] r].
      by rewrite <- app_assoc.
Qed.

(** What [exec_in_order] executes is a prefix of the batches: all of them
    when no execution fails, else those up to the first that fails. *)
Lemma exec_in_order_prefix (stmt : StmtId) (ctx : option Context)
      (batches : list (list NamedArg)) :
  forall (s s' : Server) (evs : list Event) (r : option error),
    exec_in_order s stmt ctx batches = (s', evs, r) ->
    exists k : nat,
      evs = map (EvStmtExec stmt ctx) (take k batches)
      /\ (k <= length batches)%nat
      /\ (r = None -> k = length batches)
      /\ (forall e, r = Some e ->
            exists s0 s1 args,
              batches !! (k - 1)%nat = Some args /\ (0 < k)%nat
              /\ drv_StmtExec s0 stmt ctx args = (s1, Some e)).
Proof.
  induction batches as [|args rest IH]; intros s s' evs r Hrun; simpl in Hrun.
  - injection Hrun as <- <- <-. exists O. repeat split; done.
  - destruct (drv_StmtExec s stmt ctx args) as [s1 [e|]] eqn:Hexec.
    + injection Hrun as <- <- <-. exists 1%nat.
      split; [reflexivity|]. split; [simpl; lia|]. split; [discriminate|].
      intros e' [= <-]. exists s, s1, args. split; [reflexivity|]. split; [lia | exact Hexec].
    + destruct (exec_in_order s1 stmt ctx rest) as [[s'' evs'] r'] eqn:Hrest.
      injection Hrun as <- <- <-.
      destruct (IH _ _ _ _ Hrest) as (k & -> & Hk & Hnone & Hsome).
      exists (S k). split; [reflexivity|]. split; [simpl; lia|].
      split; [intros Hr; simpl; by rewrite Hnone|].
      intros e Hr. destruct (Hsome e Hr) as (s0 & s2 & a & Ha & Hpos & Hex).
      exists s0, s2, a. split; [|split; [lia | exact Hex]].
      replace (S k - 1)%nat with (S (k - 1)) by lia. exact Ha.
Qed.

(** C5, as amended.  [ExecBatch(n)] prepares the assembled statement once
    and executes it [Params.BatchSize] times, whatever [n] is; execution [i]
    (from 0) binds every parameter to its value at batch index [i], every
    parameter having such a value (there is no fallback to the scalar value);
    the executions run in order ([exec_in_order]) and the first one that
    fails ends the loop, its error is returned and the executions after it
    are not attempted; the statement is closed at the end. *)
Theorem ExecBatch_runs_BatchSize_times (l : loc) (size : Z) (w : World Server)
        (ds : DataSet) (query : string) (target : Target) (conn : Conn.t)
        (s1 : Server) (stmt : StmtId) :
  heap w !! l = Some ds ->
  V2.GetSql ds = Returned query ->
  (Tx ds = None /\ Connection ds = Some conn /\ target = OnDB (Conn.DB conn))
  \/ (exists t, Tx ds = Some t /\ Transaction.Conn t = Some conn
                 /\ target = OnTx (Transaction.tx t)) ->
  drv_Prepare (server w) target (Ctx ds) query = (s1, (Some stmt, None)) ->
  batch_ready ds (Z.to_nat (Params.BatchSize (Params ds))) ->
  exists (s' : Server) (evs : list Event) (r : option error) (k : nat),
    exec_in_order s1 stmt (Ctx ds)
                  (map (batch_args ds) (seq 0 (Z.to_nat (Params.BatchSize (Params ds)))))
    = (s', evs, r)
    /\ V2.ExecBatch l size w
       = Returned (r,
                   mkWorld s' (heap w)
                     (stdout w ++ (if Conn.log conn
                                   then query :: PrintParam (Params ds) else []))%list
                     (trace w ++ [EvPrepare target (Ctx ds) query]
                      ++ evs ++ [EvStmtClose stmt])%list)
    /\ evs = map (fun i => EvStmtExec stmt (Ctx ds) (batch_args ds i)) (seq 0 k)
    /\ (k <= Z.to_nat (Params.BatchSize (Params ds)))%nat
    /\ (r = None -> k = Z.to_nat (Params.BatchSize (Params ds)))
    /\ (forall e, r = Some e ->
          (0 < k)%nat
          /\ exists s0 s2,
               drv_StmtExec s0 stmt (Ctx ds) (batch_args ds (k - 1)) = (s2, Some e)).
Proof.
  intros Hl Hsql Htarget Hprep Hready.
  set (n := Z.to_nat (Params.BatchSize (Params ds))) in *.
  destruct (exec_in_order s1 stmt (Ctx ds) (map (batch_args ds) (seq 0 n)))
    as [[s' evs] r] eqn:Hrun.
  destruct (exec_in_order_prefix _ _ _ _ _ _ _ Hrun) as (k & Hevs & Hk & Hnone & Hsome).
  rewrite length_map, length_seq in Hk, Hnone.
  assert (evs = map (fun i => EvStmtExec stmt (Ctx ds) (batch_args ds i)) (seq 0 k))
    as Hevs'.
  { rewrite Hevs, <- fmap_take, take_seq, Nat.min_l by lia.
    by rewrite <- list_fmap_compose. }
  exists s', evs, r, k. split; [reflexivity|].
  split; [|split; [done|split; [done|split; [done|]]]].
  - unfold V2.ExecBatch.
    unfold mbind at 1, M_bind at 1, get_ds at 1. rewrite Hl.
    unfold mbind at 1, M_bind at 1, lift at 1. rewrite Hsql.
    unfold mbind at 1, M_bind at 1.
    assert ((match Tx ds with
             | Some t =>
                 conn0 ← deref (Transaction.Conn t);
                 mret (OnTx (Transaction.tx t), conn0)
             | None =>
                 conn0 ← deref (Connection ds);
                 mret (OnDB (Conn.DB conn0), conn0)
             end) w = Returned ((target, conn), w)) as ->.
    { destruct Htarget as [(-> & -> & ->) | (t & -> & -> & ->)]; reflexivity. }
    unfold mbind at 1, M_bind at 1.
    assert (V2.log_query conn query ds w
            = Returned (tt, mkWorld (server w) (heap w)
                              (stdout w ++ (if Conn.log conn
                                            then query :: PrintParam (Params ds)
                                            else []))%list (trace w))) as ->.
    { unfold V2.log_query, Println, mret, M_ret.
      destruct (Conn.log conn); [done|]. rewrite app_nil_r. by destruct w. }
    unfold mbind at 1, M_bind at 1, Prepare_stmt at 1. cbn [server heap stdout trace].
    rewrite Hprep. unfold emit. cbn [server heap stdout trace].
    unfold mbind at 1, M_bind at 1.
    rewrite (ExecBatch_loop_in_order ds stmt n O) by done.
    cbn [server heap stdout trace]. rewrite Hrun.
    unfold mbind, M_bind, Stmt_Close, emit, mret, M_ret. cbn [server heap stdout trace].
    by rewrite <- !app_assoc.
  - intros e He. destruct (Hsome e He) as (s0 & s2 & args & Hargs & Hpos & Hex).
    split; [done|]. exists s0, s2.
    rewrite list_lookup_fmap, lookup_seq_lt in Hargs by lia.
    injection Hargs as <-. exact Hex.
Qed.

End Batches.

Section BatchExamples.
#[local] Existing Instances Sample.helpers Sample.scripted.

(** [ExecBatch(3)] on a batch of size 2 executes twice; and a parameter
    without batch values is not bound to its scalar value: the call
    panics. *)
Lemma ExecBatch_ignores_n_counterexample :
  let run := V2.ExecBatch O 3 Sample.batch_world in
  returned run = Some None
  /\ (count_events is_exec <$> (trace <$> world_after run)) = Some 2%nat
  /\ (count_events is_exec <$> (trace <$> world_after run)) <> Some 3%nat
  /\ V2.ExecBatch O 1 (Sample.world Sample.all_succeed {[ O := Sample.scalar_only ]})
     = Panicked "index out of range".
Proof. vm_compute. repeat split. discriminate. Qed.

Lemma ExecBatch_runs_BatchSize_times_witness :
  exists (s' : Sample.Script) (evs : list Event) (r : option error) (k : nat),
    exec_in_order Sample.all_succeed O (Ctx Sample.two_rows)
                  (map (batch_args Sample.two_rows)
                       (seq 0 (Z.to_nat (Params.BatchSize (Params Sample.two_rows)))))
    = (s', evs, r)
    /\ V2.ExecBatch O 3 Sample.batch_world
       = Returned (r,
                   mkWorld s' (heap Sample.batch_world)
                     (stdout Sample.batch_world
                      ++ (if Conn.log Sample.oracle
                          then "insert into t values (:a)"
                                 :: PrintParam (Params Sample.two_rows) else []))%list
                     (trace Sample.batch_world
                      ++ [EvPrepare (OnDB O) (Ctx Sample.two_rows)
                                    "insert into t values (:a)"]
                      ++ evs ++ [EvStmtClose O])%list)
    /\ evs = map (fun i => EvStmtExec O (Ctx Sample.two_rows)
                                      (batch_args Sample.two_rows i)) (seq 0 k)
    /\ (k <= Z.to_nat (Params.BatchSize (Params Sample.two_rows)))%nat
    /\ (r = None -> k = Z.to_nat (Params.BatchSize (Params Sample.two_rows)))
    /\ (forall e, r = Some e ->
          (0 < k)%nat
          /\ exists s0 s2,
               drv_StmtExec s0 O (Ctx Sample.two_rows)
                            (batch_args Sample.two_rows (k - 1)) = (s2, Some e)).
Proof.
  apply (ExecBatch_runs_BatchSize_times O 3 Sample.batch_world Sample.two_rows
           "insert into t values (:a)" (OnDB O) Sample.oracle Sample.all_succeed O).
  - reflexivity.
  - reflexivity.
  - left. repeat split.
  - reflexivity.
  - repeat constructor.
Defined.

End BatchExamples.

(** ** Master-detail assembly *)

Section MasterDetail.
Context `{Helpers}.

Lemma Join_cons_cons (c1 c2 : string) (cs : list string) (sep : string) :
  Join (c1 :: c2 :: cs) sep = c1 +:+ sep +:+ Join (c2 :: cs) sep.
Proof. reflexivity. Qed.

(** The loop builds the joined conditions and registers every alias. *)
Lemma masterDetail_loop_spec (m : DataSet) (n : Z) (detail : list string)
      (rest : list string) :
  forall (i : nat) (where_ : string) (params : Params.t),
    (length rest <= length (drop i detail))%nat ->
    Z.of_nat (i + length rest) = n ->
    masterDetail_loop (Some m) n detail (Z.of_nat i) rest where_ params
    = Returned (where_ +:+ Join (link_conditions i rest (drop i detail)) " and ",
                register_links m i rest params).
Proof.
  induction rest as [|f rest IH]; intros i where_ params Hlen Hn.
  - simpl. by rewrite str_app_nil_r.
  - simpl in Hlen. cbn [masterDetail_loop]. rewrite Nat2Z.id.
    destruct (drop i detail) as [|d dtl] eqn:Hdrop; [simpl in Hlen; lia|].
    assert (detail !! i = Some d) as ->.
    { rewrite <- (Nat.add_0_r i), <- lookup_drop, Hdrop. reflexivity. }
    assert (drop (S i) detail = dtl) as Hdrop'.
    { replace (S i) with (i + 1)%nat by lia. rewrite <- drop_drop, Hdrop. reflexivity. }
    replace (Z.of_nat i + 1) with (Z.of_nat (S i)) by lia.
    rewrite IH; [|rewrite Hdrop'; simpl in Hlen; lia | simpl in Hn; lia].
    rewrite Hdrop'. cbn [link_conditions register_links]. unfold alias_of at 2.
    f_equal. f_equal.
    destruct rest as [|f2 rest].
    + replace (Z.of_nat i =? n - 1) with true
        by (symmetry; apply Z.eqb_eq; simpl in Hn; lia).
      cbn [link_conditions Join]. unfold alias_of. by rewrite str_app_nil_r.
    + replace (Z.of_nat i =? n - 1) with false
        by (symmetry; apply Z.eqb_neq; simpl in Hn; lia).
      destruct dtl as [|d2 dtl]; [simpl in Hlen; lia|].
      cbn [link_conditions]. rewrite Join_cons_cons.
      unfold alias_of. rewrite !str_app_assoc. reflexivity.
Qed.

(** A detail sequence shorter than the master sequence makes the loop index
    past its end. *)
Lemma masterDetail_loop_short (master : option DataSet) (n : Z) (detail : list string)
      (rest : list string) :
  forall (i : nat) (where_ : string) (params : Params.t),
    (length (drop i detail) < length rest)%nat ->
    exists msg,
      masterDetail_loop master n detail (Z.of_nat i) rest where_ params = Panicked msg.
Proof.
  induction rest as [|f rest IH]; intros i where_ params Hlen; [simpl in Hlen; lia|].
  cbn [masterDetail_loop]. rewrite Nat2Z.id.
  destruct (detail !! i) as [d|] eqn:Hd; [|by eexists].
  destruct master as [m|]; [|by eexists].
  replace (Z.of_nat i + 1) with (Z.of_nat (S i)) by lia.
  apply IH.
  rewrite length_drop in *. simpl in Hlen.
  apply lookup_lt_Some in Hd. lia.
Qed.

Lemma where_clause_not_empty (f : string) (master : list string) (d : string)
      (detail : list string) :
  String.eqb ("" +:+ where_clause (f :: master) (d :: detail)) "" = false.
Proof.
  apply String.eqb_neq. unfold where_clause. cbn [link_conditions].
  intros Heq. apply (f_equal String.length) in Heq.
  destruct (link_conditions 1 master detail).
  - simpl in Heq. rewrite !str_length_app in Heq. simpl in Heq. lia.
  - rewrite Join_cons_cons in Heq. rewrite !str_length_app in Heq. simpl in Heq. lia.
Qed.

(** The wrapping step, when the link is attached, the master sequence is
    not empty and the detail sequence is at least as long. *)
Lemma masterDetail_wrap_spec (heap : gmap loc DataSet) (ds m : DataSet) (l : loc)
      (sql : string) :
  MasterSource.DataSource (MasterSource ds) = Some l ->
  heap !! l = Some m ->
  MasterSource.MasterFields (MasterSource ds) <> [] ->
  (length (MasterSource.MasterFields (MasterSource ds))
   <= length (MasterSource.DetailFields (MasterSource ds)))%nat ->
  masterDetail_wrap heap ds sql
  = Returned ("select * from (" +:+ sql +:+ ") t where "
              +:+ where_clause (MasterSource.MasterFields (MasterSource ds))
                               (MasterSource.DetailFields (MasterSource ds)),
              register_links m O (MasterSource.MasterFields (MasterSource ds)) (Params ds),
              []).
Proof.
  intros Hsrc Hm Hne Hlen. unfold masterDetail_wrap. rewrite Hsrc, Hm.
  destruct (MasterSource.MasterFields (MasterSource ds)) as [|f master] eqn:Hmaster; [done|].
  destruct (MasterSource.DetailFields (MasterSource ds)) as [|d detail] eqn:Hdetail;
    [simpl in Hlen; lia|].
  cbn [length Nat.eqb negb orb].
  rewrite (masterDetail_loop_spec m _ (d :: detail) (f :: master) O) by (simpl in *; lia).
  cbn [mbind outcome_bind mret outcome_ret drop].
  fold (where_clause (f :: master) (d :: detail)).
  rewrite where_clause_not_empty. reflexivity.
Qed.

Lemma replace_single_absent (c : ascii) (new s : string) :
  has_byte c s = false -> ReplaceAll s (String c "") new = s.
Proof.
  unfold ReplaceAll. induction s as [|d s IH]; intros Habs; [reflexivity|].
  simpl in Habs. apply orb_false_iff in Habs as [Hcd Hs].
  cbn [replace_go HasPrefix]. rewrite Hcd. by rewrite IH.
Qed.

(** Text without CR and LF passes the closing normalisation unchanged. *)
Lemma indent_newlines_plain (s : string) :
  has_byte (ascii_of_nat 13) s = false -> has_byte (ascii_of_nat 10) s = false ->
  indent_newlines s = s.
Proof.
  intros Hcr Hlf. unfold indent_newlines, CR, LF.
  rewrite (replace_single_absent _ _ s Hcr). by apply replace_single_absent.
Qed.

(** C2, as amended.  When a master-detail link is attached, the master
    sequence is not empty and the detail sequence is at least as long, the
    assembled detail SQL is [select * from (<sql>) t where <detail_i> =
    :alias_i [and ...]], put through the closing newline normalisation and the
    placeholder translation, where [alias_i] is the MASTER field name followed
    by the index [i] as at least four digits, zero-padded; and every
    [alias_i] is registered through [SetInputParam] with the value read, at
    assembly time, from the row the master DataSet stands on.  Where the
    dialect does not translate and the text has no line breaks, the result is
    literally that [select]. *)
Theorem GetSqlMasterDetail_wraps (heap : gmap loc DataSet) (ds m : DataSet) (l : loc)
        (dialect : DialectType) (sql : string) :
  MasterSource.DataSource (MasterSource ds) = Some l ->
  heap !! l = Some m ->
  MasterSource.MasterFields (MasterSource ds) <> [] ->
  (length (MasterSource.MasterFields (MasterSource ds))
   <= length (MasterSource.DetailFields (MasterSource ds)))%nat ->
  V2.dialect_of ds = Returned dialect ->
  V2.GetSql ds = Returned sql ->
  let master := MasterSource.MasterFields (MasterSource ds) in
  let detail := MasterSource.DetailFields (MasterSource ds) in
  let params := register_links m O master (Params ds) in
  let wrapped sql0 := "select * from (" +:+ sql0 +:+ ") t where " +:+ where_clause master detail in
  V2.GetSqlMasterDetail heap ds
  = Returned (replaceParams dialect (map Param.Name (Params.List params))
                            (indent_newlines (wrapped sql)),
              with_Params ds params, [])
  /\ V1.GetSqlMasterDetail heap ds
     = Returned (indent_newlines (wrapped (V1.GetSql ds)), with_Params ds params, [])
  /\ (dialect <> POSTGRESQL ->
      has_byte (ascii_of_nat 13) (wrapped sql) = false ->
      has_byte (ascii_of_nat 10) (wrapped sql) = false ->
      V2.GetSqlMasterDetail heap ds = Returned (wrapped sql, with_Params ds params, [])).
Proof.
  intros Hsrc Hm Hne Hlen Hdialect Hsql master detail params wrapped.
  assert (V2.GetSqlMasterDetail heap ds
          = Returned (replaceParams dialect (map Param.Name (Params.List params))
                                    (indent_newlines (wrapped sql)),
                      with_Params ds params, [])) as Hv2.
  { unfold V2.GetSqlMasterDetail. rewrite Hsql. cbn [mbind outcome_bind].
    rewrite (masterDetail_wrap_spec heap ds m l sql) by done.
    cbn [mbind outcome_bind]. unfold V2.replaceAllParam.
    change (V2.dialect_of (with_Params ds _)) with (V2.dialect_of ds).
    rewrite Hdialect. reflexivity. }
  split; [exact Hv2|split].
  - unfold V1.GetSqlMasterDetail.
    rewrite (masterDetail_wrap_spec heap ds m l (V1.GetSql ds)) by done.
    reflexivity.
  - intros Hpg Hcr Hlf. rewrite Hv2, indent_newlines_plain by done.
    by destruct dialect.
Qed.

(** C4, at the inputs where the code fails.  When the link is attached and
    the detail sequence is shorter than the master sequence (an empty detail
    sequence with a non-empty master sequence included), assembly does not
    skip the link: it panics, in both editions. *)
Theorem GetSqlMasterDetail_short_detail_panics (heap : gmap loc DataSet)
        (ds : DataSet) (l : loc) :
  MasterSource.DataSource (MasterSource ds) = Some l ->
  (length (MasterSource.DetailFields (MasterSource ds))
   < length (MasterSource.MasterFields (MasterSource ds)))%nat ->
  (exists msg, V2.GetSqlMasterDetail heap ds = Panicked msg)
  /\ (exists msg, V1.GetSqlMasterDetail heap ds = Panicked msg).
Proof.
  intros Hsrc Hlen.
  assert (forall sql, exists msg, masterDetail_wrap heap ds sql = Panicked msg) as Hwrap.
  { intros sql. unfold masterDetail_wrap. rewrite Hsrc.
    destruct (MasterSource.MasterFields (MasterSource ds)) as [|f master] eqn:Hmaster;
      [simpl in Hlen; lia|].
    cbn [length Nat.eqb negb orb].
    destruct (masterDetail_loop_short (heap !! l)
                (Z.of_nat (S (length master)))
                (MasterSource.DetailFields (MasterSource ds)) (f :: master) O ""
                (Params ds)) as [msg Hloop]; [by rewrite drop_0|].
    exists msg. change 0 with (Z.of_nat O). by rewrite Hloop. }
  split.
  - unfold V2.GetSqlMasterDetail. destruct (V2.GetSql ds) as [sql|msg]; [|by eexists].
    destruct (Hwrap sql) as [msg Hmsg]. exists msg. cbn [mbind outcome_bind].
    by rewrite Hmsg.
  - unfold V1.GetSqlMasterDetail.
    destruct (Hwrap (V1.GetSql ds)) as [msg Hmsg]. exists msg. by rewrite Hmsg.
Qed.

End MasterDetail.

Section MasterDetailExamples.
#[local] Existing Instances Sample.helpers.

(** Master field [CODE], detail field [ORDER_CODE]: the alias is made from
    the master field. *)
Lemma alias_uses_master_field_counterexample :
  let run := V2.GetSqlMasterDetail Sample.heap_with_master
                                   (Sample.detail ["CODE"] ["ORDER_CODE"]) in
  (fst ∘ fst <$> result run)
  = Some "select * from (select * from t) t where ORDER_CODE = :CODE0000"
  /\ (fst ∘ fst <$> result run)
     <> Some "select * from (select * from t) t where ORDER_CODE = :ORDER_CODE0000"
  /\ (param_names ∘ snd ∘ fst <$> result run) = Some ["CODE0000"].
Proof. vm_compute. repeat split. discriminate. Qed.

(** The example of the specification: master field [CODE], detail field
    [CODE], the master standing on a row with [CODE = 7]. *)
Lemma GetSqlMasterDetail_wraps_witness :
  V2.GetSqlMasterDetail Sample.heap_with_master (Sample.detail ["CODE"] ["CODE"])
  = Returned ("select * from (select * from t) t where CODE = :CODE0000",
              with_Params (Sample.detail ["CODE"] ["CODE"])
                          (Params.mk [Param.mk "CODE0000" {| Value := VInt 7 |} IN []] 0),
              []).
Proof.
  destruct (GetSqlMasterDetail_wraps Sample.heap_with_master
              (Sample.detail ["CODE"] ["CODE"]) Sample.master 1%nat
              (OtherDialect O) "select * from t")
    as (_ & _ & Hplain);
    [reflexivity | reflexivity | discriminate | simpl; lia | reflexivity | reflexivity |].
  rewrite Hplain; [reflexivity | discriminate | reflexivity | reflexivity].
Defined.

(** Master field [CODE] and no detail field, the input on which assembly
    fails. *)
Lemma GetSqlMasterDetail_short_detail_panics_witness :
  (exists msg,
      V2.GetSqlMasterDetail Sample.heap_with_master (Sample.detail ["CODE"] [])
      = Panicked msg)
  /\ (exists msg,
         V1.GetSqlMasterDetail Sample.heap_with_master (Sample.detail ["CODE"] [])
         = Panicked msg).
Proof.
  apply (GetSqlMasterDetail_short_detail_panics Sample.heap_with_master
           (Sample.detail ["CODE"] []) 1%nat).
  - reflexivity.
  - simpl. lia.
Defined.

Example GetSqlMasterDetail_no_detail_field :
  V2.GetSqlMasterDetail Sample.heap_with_master (Sample.detail ["CODE"] [])
  = Panicked "index out of range"
  /\ V1.GetSqlMasterDetail Sample.heap_with_master (Sample.detail ["CODE"] [])
     = Panicked "index out of range".
Proof. split; reflexivity. Qed.

(** What the guard of the link does on the other misconfigured links: with
    both sequences empty the link is skipped and the diagnostic is printed;
    with only the master sequence empty it is skipped and nothing is
    printed; with more detail fields than master fields, the statement is
    wrapped on the first of them. *)
Example GetSqlMasterDetail_other_links :
  V2.GetSqlMasterDetail Sample.heap_with_master (Sample.detail [] [])
  = Returned ("select * from t", Sample.detail [] [],
              ["MasterFields or DetailFields field cannot be empty"])
  /\ V2.GetSqlMasterDetail Sample.heap_with_master (Sample.detail [] ["CODE"])
     = Returned ("select * from t", Sample.detail [] ["CODE"], [])
  /\ (fst ∘ fst <$> result (V2.GetSqlMasterDetail Sample.heap_with_master
                              (Sample.detail ["CODE"] ["CODE"; "KIND"])))
     = Some "select * from (select * from t) t where CODE = :CODE0000".
Proof. repeat split. Qed.

End MasterDetailExamples.

(** ** Prepare *)

Lemma FindAll_Idle_cons (c : ascii) (s : string) :
  FindAllStringSubmatch Idle (String c s) = FindAllStringSubmatch (restart c) s.
Proof. reflexivity. Qed.




Section PrepareExamples.
#[local] Existing Instances Sample.helpers.



(** A token that no space precedes is not a match; a token that occurs twice
    is matched twice. *)
Example FindAllStringSubmatch_samples :
  FindAllStringSubmatch Idle "values (:a, :b)" = ["b"]
  /\ FindAllStringSubmatch Idle "x = :id or y = :id" = ["id"; "id"]
  /\ FindAllStringSubmatch Idle "x = :a_1+ :b2" = ["a_1"; "b2"].
Proof. repeat split. Qed.

End PrepareExamples.

(** ** ToStruct *)

(** C9, as amended.  [ToStruct(target)] of either edition ([second] tells
    them apart) returns an error, and leaves the DataSet and the destination
    as they are, when [target] holds a value that is not a pointer, or a
    pointer to something that is neither a struct nor a slice nor an array.
    For a pointer to a struct the single-record binding runs; for a pointer
    to a slice or an array the list binding runs whatever the element type
    is, structs or not; in these two shapes no error is ever returned. *)
Theorem ToStruct_destination_shapes `{FieldBinder} (second : bool) (fuel : nat)
        (ds : DataSet) :
  (forall t v,
      Kind_of t <> KPointer ->
      ToStruct_of second fuel ds (boxed t v)
      = Some (Returned (Some (not_a_pointer t), ds, boxed t v)))
  /\ (forall elem v,
        Kind_of elem <> KStruct -> Kind_of elem <> KSlice -> Kind_of elem <> KArray ->
        ToStruct_of second fuel ds (boxed (TPointer elem) v)
        = Some (Returned (Some (not_a_sequence_or_struct second), ds,
                          boxed (TPointer elem) v)))
  /\ (forall elem v,
        Kind_of elem = KStruct ->
        ToStruct_of second fuel ds (boxed (TPointer elem) v)
        = match toStructUniqResult ds elem (Elem v) with
          | Returned v' =>
              Some (Returned (None, ds, boxed (TPointer elem) (GPointer (Some v'))))
          | Panicked msg => Some (Panicked msg)
          end)
  /\ (forall elem item v,
        (elem = TSlice item \/ exists n, elem = TArray n item) ->
        ToStruct_of second fuel ds (boxed (TPointer elem) v)
        = match toStructList second fuel ds item (Elem v) with
          | Some (Returned (ds', v')) =>
              Some (Returned (None, ds', boxed (TPointer elem) (GPointer (Some v'))))
          | Some (Panicked msg) => Some (Panicked msg)
          | None => None
          end)
  /\ (forall elem v e ds' model',
        Kind_of elem = KStruct \/ Kind_of elem = KSlice \/ Kind_of elem = KArray ->
        ToStruct_of second fuel ds (boxed (TPointer elem) v)
        = Some (Returned (e, ds', model')) ->
        e = None).
Proof.
  split; [|split; [|split; [|split]]].
  - intros t v Ht. by destruct t.
  - intros elem v Hs Hl Ha. by destruct elem.
  - intros elem v Hk. destruct elem; try discriminate. reflexivity.
  - intros elem item v [-> | [n ->]]; reflexivity.
  - intros elem v e ds' model' Hk. unfold ToStruct_of.
    destruct elem; simpl in Hk; try (destruct Hk as [Hk | [Hk | Hk]]; discriminate);
      cbn [Kind_of].
    + destruct (toStructList _ _ _ _ _) as [[[??]|?]|]; by intros [=].
    + destruct (toStructList _ _ _ _ _) as [[[??]|?]|]; by intros [=].
    + destruct (toStructUniqResult _ _ _); by intros [=].
Qed.

Section ToStructExamples.
#[local] Existing Instances Sample.binder.

(** A pointer to a slice of [int]: on a DataSet without rows [ToStruct]
    returns no error; on one with a row it panics; it returns an error in
    neither case. *)
Lemma ToStruct_slice_of_int_counterexample :
  let target := boxed (TPointer (TSlice (TBasic BInt "int"))) (GPointer (Some (GSlice []))) in
  let empty := Sample.dataset Sample.oracle "select 1" in
  V2.ToStruct 1%nat empty target = Some (Returned (None, empty, target))
  /\ V1.ToStruct 1%nat empty target = Some (Returned (None, empty, target))
  /\ (exists msg, V2.ToStruct 2%nat Sample.master target = Some (Panicked msg)).
Proof. repeat split. by eexists. Qed.

Lemma ToStruct_destination_shapes_witness :
  V2.ToStruct 1%nat Sample.master (boxed (TBasic BInt "int") (GScalar (VInt 3)))
  = Some (Returned (Some (ErrorString "the variable int is not a pointer."),
                    Sample.master, boxed (TBasic BInt "int") (GScalar (VInt 3))))
  /\ V2.ToStruct 1%nat Sample.master
                 (boxed (TPointer (TBasic BString "string"))
                        (GPointer (Some (GScalar (VString "x")))))
     = Some (Returned (Some (ErrorString "the interface is not a slice, array or struct"),
                       Sample.master,
                       boxed (TPointer (TBasic BString "string"))
                             (GPointer (Some (GScalar (VString "x")))))).
Proof.
  destruct (ToStruct_destination_shapes true 1%nat Sample.master)
    as (Hvalue & Hpointer & _).
  split.
  - apply Hvalue. discriminate.
  - apply Hpointer; discriminate.
Defined.

(** A pointer to a struct with the fields [ID] and [Name], the latter tagged
    [NAME], is bound from the current row. *)
Example ToStruct_struct :
  let person := TStruct "Person" [("ID", "", false, TBasic BInt "int");
                                  ("Name", "NAME", false, TBasic BString "string")] in
  let ds := with_cursor
              (with_Rows (Sample.dataset Sample.oracle "select ID, NAME from p")
                         [<["NAME" := {| Value := VString "Ann" |}]>
                            (Sample.row "ID" (VInt 5))]) 0 1 in
  V2.ToStruct 1%nat ds (boxed (TPointer person) (GPointer (Some (zero person))))
  = Some (Returned (None, ds,
                    boxed (TPointer person)
                          (GPointer (Some (GStruct [GScalar (VInt 5);
                                                    GScalar (VString "Ann")]))))).
Proof. reflexivity. Qed.

End ToStructExamples.

(** ** Placeholder translation *)

Lemma occurs_cons (p s : string) (c : ascii) : occurs p s -> occurs p (String c s).
Proof. intros (before & after & ->). by exists (String c before), after. Qed.

Lemma HasPrefix_occurs (s p : string) : HasPrefix s p = true -> occurs p s.
Proof. intros Hp. destruct (HasPrefix_split s p Hp) as [after ->]. by exists "", after. Qed.

Lemma index_of_occurs (p s : string) (k : nat) : index_of s p = Some k -> occurs p s.
Proof.
  revert k. induction s as [|c s IH]; intros k; cbn [index_of].
  - destruct (HasPrefix "" p) eqn:Hp; [|done]. intros _. by apply HasPrefix_occurs.
  - destruct (HasPrefix (String c s) p) eqn:Hp; [intros _; by apply HasPrefix_occurs|].
    destruct (index_of s p) as [k'|]; [|done]. intros _. apply occurs_cons. by eapply IH.
Qed.

Lemma Index_absent (p s : string) : ~ occurs p s -> GoString.Index s p = -1.
Proof.
  intros Hno. unfold GoString.Index. destruct (index_of s p) as [k|] eqn:Hk; [|done].
  destruct Hno. by eapply index_of_occurs.
Qed.

(** A name without a colon that starts a text in which a colon follows a
    prefix [s] lies within [s]. *)
Lemma name_before_colon (name : string) :
  forall s after : string,
    has_byte ":" name = false ->
    HasPrefix (s +:+ String ":" after) name = true -> HasPrefix s name = true.
Proof.
  induction name as [|d name IH]; intros s after Hname Hp; [reflexivity|].
  cbn [has_byte] in Hname. apply orb_false_iff in Hname as [Hd Hname].
  destruct s as [|e s].
  - rewrite str_app_nil_l in Hp. cbn [HasPrefix] in Hp.
    rewrite Ascii.eqb_sym, Hd in Hp. discriminate.
  - rewrite str_app_cons in Hp. cbn [HasPrefix] in *.
    destruct (Ascii.eqb d e); [|done]. by eapply IH.
Qed.

(** The token of a name without a colon does not overlap itself: where it
    does not occur in [before], its first occurrence in [before], the token,
    [after] is the one written. *)
Lemma index_of_token (name : string) (after : string) :
  has_byte ":" name = false ->
  forall before : string,
    ~ occurs (":" +:+ name) before ->
    index_of (before +:+ (":" +:+ name) +:+ after) (":" +:+ name)
    = Some (String.length before).
Proof.
  intros Hname. induction before as [|c before IH]; intros Hno.
  - rewrite str_app_nil_l.
    change ((":" +:+ name) +:+ after) with (String ":" (name +:+ after)).
    change (":" +:+ name) with (String ":" name).
    cbn [index_of HasPrefix]. by rewrite Ascii.eqb_refl, HasPrefix_app.
  - rewrite str_app_cons. cbn [index_of].
    destruct (HasPrefix (String c (before +:+ (":" +:+ name) +:+ after)) (":" +:+ name))
      eqn:Hp.
    + exfalso. apply Hno.
      change (":" +:+ name) with (String ":" name) in Hp. cbn [HasPrefix] in Hp.
      destruct (Ascii.eqb_spec ":" c) as [<-|]; [|done].
      change (String ":" name +:+ after) with (String ":" (name +:+ after)) in Hp.
      apply name_before_colon in Hp; [|done].
      apply HasPrefix_occurs. change (":" +:+ name) with (String ":" name).
      cbn [HasPrefix]. by rewrite Ascii.eqb_refl.
    + rewrite IH; [reflexivity|]. intros Hocc. apply Hno. by apply occurs_cons.
Qed.

Lemma str_drop_length (n : nat) (s : string) :
  String.length (str_drop n s) = (String.length s - n)%nat.
Proof.
  revert s. induction n as [|n IH]; intros [|c s]; cbn [str_drop String.length]; done.
Qed.

Lemma index_of_bound (p s : string) (k : nat) :
  index_of s p = Some k -> (k + String.length p <= String.length s)%nat.
Proof.
  revert k. induction s as [|c s IH]; intros k; cbn [index_of].
  - destruct (HasPrefix "" p) eqn:Hp; [|done]. intros [= <-].
    destruct (HasPrefix_split _ _ Hp) as [after Hs].
    apply (f_equal String.length) in Hs. rewrite str_length_app in Hs. simpl in *. lia.
  - destruct (HasPrefix (String c s) p) eqn:Hp.
    + intros [= <-]. destruct (HasPrefix_split _ _ Hp) as [after Hs].
      apply (f_equal String.length) in Hs. rewrite str_length_app in Hs. simpl in *. lia.
    + destruct (index_of s p) as [k'|] eqn:Hk; [|done]. intros [= <-].
      specialize (IH k' eq_refl). simpl. lia.
Qed.

(** With a parameter that is not empty, [replaceParamPG] returns: one call
    per byte of the text, and one more, are enough. *)
Lemma replaceParamPG_returns (param : string) (paramNumber : Z) (fuel : nat) :
  param <> "" ->
  forall sql : string,
    (String.length sql < fuel)%nat ->
    exists out, replaceParamPG fuel sql param paramNumber = Some (out, paramNumber).
Proof.
  intros Hparam. induction fuel as [|fuel IH]; intros sql Hfuel; [lia|].
  cbn [replaceParamPG]. unfold GoString.Index.
  destruct (index_of sql param) as [k|] eqn:Hk; [|by eexists].
  replace (Z.of_nat k =? -1) with false by (symmetry; apply Z.eqb_neq; lia).
  apply index_of_bound in Hk.
  destruct (IH (slice_from sql (Z.of_nat k + len param))) as [out Hout].
  { unfold slice_from, len. rewrite str_drop_length.
    destruct param; [done|]. simpl in *. lia. }
  rewrite Hout. by eexists.
Qed.

Lemma replaceParamPG_more_fuel (param : string) (paramNumber : Z) (fuel : nat) :
  forall (sql : string) r (extra : nat),
    replaceParamPG fuel sql param paramNumber = Some r ->
    replaceParamPG (fuel + extra) sql param paramNumber = Some r.
Proof.
  induction fuel as [|fuel IH]; intros sql r extra Hrun; [discriminate|].
  cbn [replaceParamPG Nat.add] in *.
  destruct (GoString.Index sql param =? -1); [done|].
  destruct (replaceParamPG fuel _ param paramNumber) as [[end_ n']|] eqn:Hrec; [|done].
  by rewrite (IH _ _ extra Hrec).
Qed.

Lemma replaceParamPG_enough (param : string) (paramNumber : Z) (fuel : nat)
      (sql : string) :
  param <> "" -> (String.length sql < fuel)%nat ->
  replaceParamPG fuel sql param paramNumber
  = Some (fst (replaceParamPG_run sql param paramNumber), paramNumber).
Proof.
  intros Hparam Hfuel.
  destruct (replaceParamPG_returns param paramNumber (S (String.length sql)) Hparam sql)
    as [out Hout]; [lia|].
  unfold replaceParamPG_run. rewrite Hout. cbn [default fst].
  replace fuel with (S (String.length sql) + (fuel - S (String.length sql)))%nat by lia.
  by apply replaceParamPG_more_fuel.
Qed.

Lemma replaceParamPG_run_absent (sql param : string) (paramNumber : Z) :
  ~ occurs param sql -> replaceParamPG_run sql param paramNumber = (sql, paramNumber).
Proof.
  intros Hno. unfold replaceParamPG_run. cbn [replaceParamPG].
  by rewrite (Index_absent _ _ Hno).
Qed.

(** One step of [replaceParamPG] at the first occurrence of a token. *)
Lemma replaceParamPG_run_token (name before after : string) (paramNumber : Z) :
  has_byte ":" name = false ->
  ~ occurs (":" +:+ name) before ->
  fst (replaceParamPG_run (before +:+ (":" +:+ name) +:+ after) (":" +:+ name) paramNumber)
  = before
    +:+ (if token_ends after then "$" +:+ Sprintf_d paramNumber else ":" +:+ name)
    +:+ fst (replaceParamPG_run after (":" +:+ name) paramNumber).
Proof.
  intros Hname Hno.
  set (param := ":" +:+ name). set (sql := before +:+ param +:+ after).
  assert (param <> "") as Hparam by done.
  assert (GoString.Index sql param = Z.of_nat (String.length before)) as Hindex.
  { unfold GoString.Index, sql, param. by rewrite index_of_token. }
  assert (String.length sql
          = (String.length before + String.length param + String.length after)%nat)
    as Hlen.
  { unfold sql. rewrite !str_length_app. lia. }
  assert (slice_from sql (Z.of_nat (String.length before) + len param) = after) as Hrest.
  { unfold slice_from, len, sql.
    replace (Z.to_nat (Z.of_nat (String.length before) + Z.of_nat (String.length param)))
      with (String.length (before +:+ param))
      by (rewrite str_length_app; lia).
    rewrite <- str_app_assoc. apply str_drop_app. }
  unfold replaceParamPG_run at 1. cbn [replaceParamPG].
  rewrite Hindex, Hrest.
  replace (Z.of_nat (String.length before) =? -1) with false
    by (symmetry; apply Z.eqb_neq; lia).
  rewrite (replaceParamPG_enough param paramNumber (String.length sql) after Hparam)
    by (rewrite Hlen; destruct param; [done | simpl; lia]).
  cbn [default fst].
  assert (slice_to sql (Z.of_nat (String.length before)) = before) as ->.
  { unfold slice_to, sql. rewrite Nat2Z.id. apply str_take_app. }
  assert ((if Z.of_nat (String.length before) =? len sql - len param
           then true
           else match byte_at sql (Z.of_nat (String.length before) + len param) with
                | Some c => is_delim c
                | None => false
                end) = token_ends after) as ->.
  { unfold len. rewrite Hlen. destruct after as [|c after].
    - replace (_ =? _) with true by (symmetry; apply Z.eqb_eq; simpl; lia). reflexivity.
    - replace (_ =? _) with false by (symmetry; apply Z.eqb_neq; simpl; lia).
      unfold byte_at.
      replace (_ <? 0) with false by (symmetry; apply Z.ltb_ge; lia).
      replace (Z.to_nat (Z.of_nat (String.length before) + Z.of_nat (String.length param)))
        with (String.length (before +:+ param))
        by (rewrite str_length_app; lia).
      unfold sql. rewrite <- str_app_assoc, get_app_r. reflexivity. }
  destruct (token_ends after); reflexivity.
Qed.

Lemma occurs_index_of (p s : string) : occurs p s -> index_of s p <> None.
Proof.
  intros (before & after & ->).
  induction before as [|c before IH].
  - rewrite str_app_nil_l.
    destruct (p +:+ after) eqn:Hs; cbn [index_of]; rewrite <- Hs;
      by rewrite HasPrefix_app.
  - rewrite str_app_cons. cbn [index_of].
    destruct (HasPrefix _ p); [done|].
    destruct (index_of (before +:+ p +:+ after) p); done.
Qed.

Lemma occurs_empty (p : string) : p <> "" -> ~ occurs p "".
Proof.
  intros Hp (before & after & Heq). destruct before; [|discriminate].
  destruct p; [done | discriminate].
Qed.

(** The first occurrence splits the text: nothing occurs before it. *)
Lemma index_of_split (p : string) :
  p <> "" ->
  forall (s : string) (k : nat),
    index_of s p = Some k ->
    exists before after, s = before +:+ p +:+ after /\ ~ occurs p before.
Proof.
  intros Hp. induction s as [|c s IH]; intros k; cbn [index_of].
  - destruct (HasPrefix "" p) eqn:Hpre; [|done]. intros _.
    destruct (HasPrefix_split _ _ Hpre) as [after Hs]. destruct p; [done | discriminate].
  - destruct (HasPrefix (String c s) p) eqn:Hpre.
    + intros _. destruct (HasPrefix_split _ _ Hpre) as [after Hs].
      exists "", after. split; [done | by apply occurs_empty].
    + destruct (index_of s p) as [k'|] eqn:Hk; [|done]. intros _.
      destruct (IH k' eq_refl) as (before & after & -> & Hno).
      exists (String c before), after. split; [reflexivity|].
      intros (b & a & Heq). destruct b as [|c' b].
      * rewrite str_app_nil_l in Heq.
        assert (HasPrefix (String c (before +:+ p +:+ after)) p = true) as Hyes.
        { rewrite <- str_app_cons, Heq, str_app_assoc. apply HasPrefix_app. }
        congruence.
      * rewrite str_app_cons in Heq. injection Heq as -> ->. apply Hno. by exists b, a.
Qed.





Section PlaceholderExamples.
#[local] Existing Instances Sample.helpers.

(** Through [GetSql], on a DataSet bound to a PostgreSQL connection, with
    the parameters [a] and [b] registered; on a connection of another
    dialect the text is passed through. *)
Example GetSql_translates :
  let ps := SetInputParam "b" (VInt 2) (SetInputParam "a" (VInt 1) NewParams) in
  V2.GetSql (with_Params (Sample.dataset Sample.postgres "x = :a and y = :a and z = :b") ps)
  = Returned "x = $1 and y = $1 and z = $2"
  /\ V2.GetSql (with_Params (Sample.dataset Sample.oracle "x = :a and y = :a and z = :b") ps)
     = Returned "x = :a and y = :a and z = :b".
Proof. split; reflexivity. Qed.

End PlaceholderExamples.

(** * Further properties of the engine *)

(** ** Navigation *)

Lemma Count_pos (ds : DataSet) : Rows ds <> [] -> 0 < Count ds.
Proof. unfold Count. destruct (Rows ds); [done | simpl; lia]. Qed.

(** X1.  On a non-empty row set, [First] and edition 2's [Last] put the
    cursor on a row, the first and the last one, from any state: there
    [Recno = Index + 1], [Recno] is between 1 and [Count], the row exists and
    [Eof] is false.  From a cursor on a row or just past the last one,
    [Previous] leaves it on a row, and [Next] and edition 1's [Last] leave it
    on a row or just past the last one.  None of them changes the rows. *)
Theorem navigation_keeps_cursor (ds : DataSet) :
  Rows ds <> [] ->
  Count ds < 2 ^ 63 - 1 ->
  (on_a_row (First ds) /\ Index (First ds) = 0
   /\ is_Some (current_row (First ds)) /\ Eof (First ds) = false)
  /\ (on_a_row (V2.Last ds) /\ Index (V2.Last ds) = Count ds - 1
      /\ is_Some (current_row (V2.Last ds)) /\ Eof (V2.Last ds) = false)
  /\ (cursor_ok ds ->
      on_a_row (Previous ds) /\ cursor_ok (Next ds) /\ cursor_ok (V1.Last ds))
  /\ (forall ds', on_a_row ds' -> cursor_ok ds')
  /\ (Rows (First ds) = Rows ds /\ Rows (Next ds) = Rows ds
      /\ Rows (Previous ds) = Rows ds /\ Rows (V1.Last ds) = Rows ds
      /\ Rows (V2.Last ds) = Rows ds).
Proof.
  intros Hne Hmax. pose proof (Count_pos ds Hne) as Hpos.
  assert (Hon : forall i, 0 <= i < Count ds ->
                  on_a_row (with_cursor ds i (i + 1))
                  /\ is_Some (current_row (with_cursor ds i (i + 1)))
                  /\ Eof (with_cursor ds i (i + 1)) = false).
  { intros i Hi. split; [|split].
    - unfold on_a_row. rewrite Count_with_cursor. cbn [Index Recno with_cursor]. lia.
    - unfold current_row. cbn [Index Rows with_cursor].
      replace (i <? 0) with false by (symmetry; apply Z.ltb_ge; lia).
      apply lookup_lt_is_Some. unfold Count in Hi. lia.
    - unfold Eof. rewrite Count_with_cursor. cbn [Recno with_cursor].
      apply orb_false_iff. split; [apply Z.eqb_neq | apply Z.ltb_ge]; lia. }
  assert (Hfirst : First ds = with_cursor ds 0 (0 + 1)).
  { unfold First. by replace (0 <? Count ds) with true by (symmetry; apply Z.ltb_lt; lia). }
  assert (Hlast : V2.Last ds = with_cursor ds (Count ds - 1) (Count ds - 1 + 1)).
  { unfold V2.Last.
    replace (Count ds =? 0) with false by (symmetry; apply Z.eqb_neq; lia).
    rewrite wrap_int_small by lia. f_equal. lia. }
  split; [|split; [|split; [|split]]].
  - rewrite Hfirst. destruct (Hon 0 ltac:(lia)) as (H1 & H2 & H3). done.
  - rewrite Hlast. destruct (Hon (Count ds - 1) ltac:(lia)) as (H1 & H2 & H3). done.
  - intros [Heq Hrange]. split; [|split].
    + unfold Previous, Bof. destruct (negb _) eqn:Hbof.
      * apply negb_true_iff, orb_false_iff in Hbof as [_ Hone]. apply Z.eqb_neq in Hone.
        unfold on_a_row. rewrite Count_with_cursor. cbn [Index Recno with_cursor].
        rewrite !wrap_int_small by lia. lia.
      * apply negb_false_iff, orb_true_iff in Hbof as [Hzero|Hone].
        -- apply Z.eqb_eq in Hzero. lia.
        -- apply Z.eqb_eq in Hone. unfold on_a_row. lia.
    + unfold Next, Eof. destruct (negb _) eqn:Heof; [|done].
      apply negb_true_iff, orb_false_iff in Heof as [_ Hlt]. apply Z.ltb_ge in Hlt.
      unfold cursor_ok. rewrite Count_with_cursor. cbn [Index Recno with_cursor].
      rewrite !wrap_int_small by lia. lia.
    + unfold V1.Last. destruct (negb _) eqn:Heof; [|done].
      unfold cursor_ok. rewrite Count_with_cursor. cbn [Index Recno with_cursor].
      rewrite wrap_int_small by lia. lia.
  - intros ds' [Heq Hrange]. unfold cursor_ok. lia.
  - unfold First, Next, Previous, V1.Last, V2.Last.
    destruct (negb (Eof ds)), (negb (Bof ds)); done.
Qed.

Lemma navigation_keeps_cursor_witness :
  (on_a_row (First Sample2.three_rows) /\ Index (First Sample2.three_rows) = 0
   /\ is_Some (current_row (First Sample2.three_rows))
   /\ Eof (First Sample2.three_rows) = false)
  /\ (on_a_row (V2.Last Sample2.three_rows)
      /\ Index (V2.Last Sample2.three_rows) = Count Sample2.three_rows - 1
      /\ is_Some (current_row (V2.Last Sample2.three_rows))
      /\ Eof (V2.Last Sample2.three_rows) = false)
  /\ (cursor_ok Sample2.three_rows ->
      on_a_row (Previous Sample2.three_rows) /\ cursor_ok (Next Sample2.three_rows)
      /\ cursor_ok (V1.Last Sample2.three_rows))
  /\ (forall ds', on_a_row ds' -> cursor_ok ds')
  /\ (Rows (First Sample2.three_rows) = Rows Sample2.three_rows
      /\ Rows (Next Sample2.three_rows) = Rows Sample2.three_rows
      /\ Rows (Previous Sample2.three_rows) = Rows Sample2.three_rows
      /\ Rows (V1.Last Sample2.three_rows) = Rows Sample2.three_rows
      /\ Rows (V2.Last Sample2.three_rows) = Rows Sample2.three_rows).
Proof.
  apply (navigation_keeps_cursor Sample2.three_rows).
  - discriminate.
  - reflexivity.
Defined.

(** X2.  With the cursor on a row or just past the last one, [Previous]
    undoes [Next] wherever [Next] moves (not at [Eof]), and [Next] undoes
    [Previous] wherever [Previous] moves (not at [Bof]). *)
Theorem Previous_undoes_Next (ds : DataSet) :
  Rows ds <> [] ->
  Count ds < 2 ^ 63 - 1 ->
  cursor_ok ds ->
  (Eof ds = false -> Previous (Next ds) = ds)
  /\ (Bof ds = false -> Next (Previous ds) = ds).
Proof.
  intros Hne Hmax [Heq Hrange]. pose proof (Count_pos ds Hne) as Hpos.
  destruct ds as [conn tx ctx sql fields params macros rows index recno ms ifn silent].
  unfold Count in *. cbn [Rows Index Recno] in *. split.
  - intros Heof. unfold Next. rewrite Heof. cbn [negb].
    unfold Eof, Count in Heof. cbn [Rows Recno] in Heof.
    apply orb_false_iff in Heof as [_ Hlt]. apply Z.ltb_ge in Hlt.
    unfold Previous, Bof, Count, with_cursor. cbn [Rows Index Recno].
    rewrite !(wrap_int_small (_ + 1)) by lia.
    replace (Z.of_nat (length rows) =? 0) with false by (symmetry; apply Z.eqb_neq; lia).
    replace (recno + 1 =? 1) with false by (symmetry; apply Z.eqb_neq; lia).
    cbn [orb negb Rows Index Recno]. rewrite !wrap_int_small by lia. f_equal; lia.
  - intros Hbof. unfold Previous. rewrite Hbof. cbn [negb].
    unfold Bof, Count in Hbof. cbn [Rows Recno] in Hbof.
    apply orb_false_iff in Hbof as [_ Hone]. apply Z.eqb_neq in Hone.
    unfold Next, Eof, Count, with_cursor. cbn [Rows Index Recno].
    rewrite !(wrap_int_small (_ - 1)) by lia.
    replace (Z.of_nat (length rows) =? 0) with false by (symmetry; apply Z.eqb_neq; lia).
    replace (Z.of_nat (length rows) <? recno - 1) with false
      by (symmetry; apply Z.ltb_ge; lia).
    cbn [orb negb Rows Index Recno]. rewrite !wrap_int_small by lia. f_equal; lia.
Qed.

Lemma Previous_undoes_Next_witness :
  (Eof Sample.master = false -> Previous (Next Sample.master) = Sample.master)
  /\ (Bof Sample.master = false -> Next (Previous Sample.master) = Sample.master).
Proof.
  apply (Previous_undoes_Next Sample.master).
  - discriminate.
  - reflexivity.
  - split; [reflexivity | split; discriminate].
Defined.

(** X3.  Edition 2's [Last] puts the cursor on the last row of a non-empty
    row set: the row exists, [Eof] is false, and one [Next] reaches [Eof].
    On an empty row set it resets the cursor to zero. *)
Theorem Last_lands_on_the_last_row (ds : DataSet) :
  Count ds < 2 ^ 63 - 1 ->
  (Rows ds <> [] ->
   Index (V2.Last ds) = Count ds - 1
   /\ Recno (V2.Last ds) = Count ds
   /\ current_row (V2.Last ds) = last (Rows ds)
   /\ Eof (V2.Last ds) = false
   /\ Eof (Next (V2.Last ds)) = true)
  /\ (Rows ds = [] ->
      Index (V2.Last ds) = 0 /\ Recno (V2.Last ds) = 0 /\ Eof (V2.Last ds) = true).
Proof.
  intros Hmax. split.
  - intros Hne. pose proof (Count_pos ds Hne) as Hpos.
    assert (Hlast : V2.Last ds = with_cursor ds (Count ds - 1) (Count ds)).
    { unfold V2.Last.
      replace (Count ds =? 0) with false by (symmetry; apply Z.eqb_neq; lia).
      by rewrite wrap_int_small by lia. }
    rewrite Hlast. cbn [Index Recno with_cursor]. repeat split.
    + unfold current_row. cbn [Index Rows with_cursor].
      replace (Count ds - 1 <? 0) with false by (symmetry; apply Z.ltb_ge; lia).
      unfold Count. rewrite last_lookup. f_equal. lia.
    + unfold Eof. rewrite Count_with_cursor. cbn [Recno with_cursor].
      apply orb_false_iff. split; [apply Z.eqb_neq | apply Z.ltb_ge]; lia.
    + unfold Next.
      replace (Eof (with_cursor ds (Count ds - 1) (Count ds))) with false.
      2:{ symmetry. unfold Eof. rewrite Count_with_cursor. cbn [Recno with_cursor].
          apply orb_false_iff. split; [apply Z.eqb_neq | apply Z.ltb_ge]; lia. }
      cbn [negb]. unfold Eof. rewrite !Count_with_cursor. cbn [Recno with_cursor].
      rewrite wrap_int_small by lia.
      apply orb_true_iff. right. apply Z.ltb_lt. lia.
  - intros Hempty. unfold V2.Last, Eof. rewrite Count_with_cursor.
    unfold Count. rewrite Hempty. done.
Qed.

Lemma Last_lands_on_the_last_row_witness :
  (Rows Sample.master <> [] ->
   Index (V2.Last Sample.master) = Count Sample.master - 1
   /\ Recno (V2.Last Sample.master) = Count Sample.master
   /\ current_row (V2.Last Sample.master) = last (Rows Sample.master)
   /\ Eof (V2.Last Sample.master) = false
   /\ Eof (Next (V2.Last Sample.master)) = true)
  /\ (Rows Sample.master = [] ->
      Index (V2.Last Sample.master) = 0 /\ Recno (V2.Last Sample.master) = 0
      /\ Eof (V2.Last Sample.master) = true).
Proof. apply (Last_lands_on_the_last_row Sample.master). reflexivity. Defined.

(** X4.  Edition 1's [Last] moves past the last row: from a row of a
    non-empty row set it sets [Index] to [Count], where there is no row, and
    [Eof] becomes true; one [Previous] is needed to stand on the last row.
    At [Eof] it does nothing. *)
Theorem Last_first_edition_moves_past_the_end (ds : DataSet) :
  Count ds < 2 ^ 63 - 1 ->
  (Eof ds = false ->
   Index (V1.Last ds) = Count ds
   /\ current_row (V1.Last ds) = None
   /\ Eof (V1.Last ds) = true
   /\ current_row (Previous (V1.Last ds)) = last (Rows ds)
   /\ Eof (Previous (V1.Last ds)) = false)
  /\ (Eof ds = true -> V1.Last ds = ds).
Proof.
  intros Hmax. split.
  - intros Heof. unfold V1.Last. rewrite Heof. cbn [negb].
    unfold Eof in Heof. apply orb_false_iff in Heof as [Hzero _].
    apply Z.eqb_neq in Hzero.
    assert (Hpos : 0 < Count ds) by (unfold Count in *; lia).
    rewrite wrap_int_small by lia.
    assert (Hprev : Previous (with_cursor ds (Count ds) (Count ds + 1))
                    = with_cursor ds (Count ds - 1) (Count ds)).
    { unfold Previous, Bof. rewrite Count_with_cursor. cbn [Index Recno with_cursor].
      replace (Count ds =? 0) with false by (symmetry; apply Z.eqb_neq; lia).
      replace (Count ds + 1 =? 1) with false by (symmetry; apply Z.eqb_neq; lia).
      cbn [orb negb]. rewrite with_cursor_twice.
      rewrite !wrap_int_small by lia. f_equal. lia. }
    rewrite Hprev. repeat split.
    + unfold current_row. cbn [Index Rows with_cursor].
      replace (Count ds <? 0) with false by (symmetry; apply Z.ltb_ge; lia).
      apply lookup_ge_None. unfold Count. lia.
    + unfold Eof. rewrite Count_with_cursor. cbn [Recno with_cursor].
      apply orb_true_iff. right. apply Z.ltb_lt. lia.
    + unfold current_row. cbn [Index Rows with_cursor].
      replace (Count ds - 1 <? 0) with false by (symmetry; apply Z.ltb_ge; lia).
      unfold Count. rewrite last_lookup. f_equal. lia.
    + unfold Eof. rewrite Count_with_cursor. cbn [Recno with_cursor].
      apply orb_false_iff. split; [apply Z.eqb_neq | apply Z.ltb_ge]; lia.
  - intros Heof. unfold V1.Last. by rewrite Heof.
Qed.

Lemma Last_first_edition_moves_past_the_end_witness :
  (Eof Sample.master = false ->
   Index (V1.Last Sample.master) = Count Sample.master
   /\ current_row (V1.Last Sample.master) = None
   /\ Eof (V1.Last Sample.master) = true
   /\ current_row (Previous (V1.Last Sample.master)) = last (Rows Sample.master)
   /\ Eof (Previous (V1.Last Sample.master)) = false)
  /\ (Eof Sample.master = true -> V1.Last Sample.master = Sample.master).
Proof. apply (Last_first_edition_moves_past_the_end Sample.master). reflexivity. Defined.

(** ** Locate *)

Section LocateProperties.
Context `{Helpers} `{Comparison}.

Lemma Locate_loop_from_row (ds : DataSet) (key : string) (v : value) (j : nat) :
  Rows ds <> [] ->
  Count ds < 2 ^ 63 - 1 ->
  (j <= length (Rows ds))%nat ->
  (forall i, (i < j)%nat -> go_equal (FieldAsValue (on_row ds i) key) v = Returned false) ->
  ((j < length (Rows ds))%nat ->
   go_equal (FieldAsValue (on_row ds j) key) v = Returned true) ->
  forall (m k fuel : nat),
    (k + m = j)%nat -> (m < fuel)%nat ->
    Locate_loop fuel (on_row ds k) key v
    = Some (Returned (bool_decide (j < length (Rows ds))%nat, on_row ds j)).
Proof.
  intros Hne Hmax Hj Hbefore Hat m.
  induction m as [|m IH]; intros k fuel Hk Hfuel.
  - destruct fuel as [|fuel]; [lia|]. replace k with j by lia.
    cbn [Locate_loop]. rewrite Eof_on_row by done.
    destruct (decide (j < length (Rows ds))%nat) as [Hlt|Hge].
    + rewrite bool_decide_false by lia. rewrite (Hat Hlt).
      by rewrite bool_decide_true by lia.
    + rewrite bool_decide_true by lia. by rewrite (bool_decide_false _ Hge).
  - destruct fuel as [|fuel]; [lia|].
    cbn [Locate_loop]. rewrite Eof_on_row by done.
    rewrite bool_decide_false by lia.
    rewrite Hbefore by lia. rewrite Next_on_row by (done || lia).
    apply IH; lia.
Qed.

(** X5.  [Locate] starts from the first row whatever the cursor was, and
    stops on the first row whose field equals the value: it returns true
    with the cursor on that row, or false with the cursor past the last row
    when no row matches. *)
Theorem Locate_stops_at_the_first_match
    (ds : DataSet) (key : string) (v : value) (j : nat) :
  Rows ds <> [] ->
  Count ds < 2 ^ 63 - 1 ->
  (j <= length (Rows ds))%nat ->
  (forall i, (i < j)%nat -> go_equal (FieldAsValue (on_row ds i) key) v = Returned false) ->
  ((j < length (Rows ds))%nat ->
   go_equal (FieldAsValue (on_row ds j) key) v = Returned true) ->
  Locate (S (length (Rows ds))) ds key v
  = Some (Returned (bool_decide (j < length (Rows ds))%nat, on_row ds j))
  /\ Eof (on_row ds j) = negb (bool_decide (j < length (Rows ds))%nat).
Proof.
  intros Hne Hmax Hj Hbefore Hat. split.
  - unfold Locate. rewrite First_on_row by done.
    apply (Locate_loop_from_row ds key v j Hne Hmax Hj Hbefore Hat j O); lia.
  - rewrite Eof_on_row by done.
    destruct (decide (j < length (Rows ds))%nat).
    + rewrite bool_decide_false by lia. by rewrite bool_decide_true.
    + rewrite bool_decide_true by lia. by rewrite bool_decide_false.
Qed.

(** X6.  On an empty row set [Bof] and [Eof] are both true; [Next],
    [Previous] and edition 1's [Last] leave the DataSet as it is from any
    cursor, [First] and edition 2's [Last] reset the cursor to zero; and
    [Locate] returns false without comparing anything. *)
Theorem empty_row_set_has_no_position (ds : DataSet) (key : string) (v : value) :
  Rows ds = [] ->
  (Bof ds = true /\ Eof ds = true /\ IsEmpty ds = true /\ IsNotEmpty ds = false)
  /\ (Next ds = ds /\ Previous ds = ds /\ V1.Last ds = ds)
  /\ (First ds = with_cursor ds 0 0 /\ V2.Last ds = with_cursor ds 0 0)
  /\ Locate 1 ds key v = Some (Returned (false, with_cursor ds 0 0)).
Proof.
  intros Hempty.
  assert (Hcount : Count ds = 0) by (unfold Count; by rewrite Hempty).
  assert (Heof : Eof ds = true) by (unfold Eof; by rewrite Hcount).
  assert (Hbof : Bof ds = true) by (unfold Bof; by rewrite Hcount).
  assert (Hfirst : First ds = with_cursor ds 0 0) by (unfold First; by rewrite Hcount).
  repeat split; try done.
  - unfold IsEmpty. by rewrite Hcount.
  - unfold IsNotEmpty. by rewrite Hcount.
  - unfold Next. by rewrite Heof.
  - unfold Previous. by rewrite Hbof.
  - unfold V1.Last. by rewrite Heof.
  - unfold V2.Last. by rewrite Hcount.
  - unfold Locate. rewrite Hfirst. cbn [Locate_loop].
    unfold Eof. rewrite Count_with_cursor, Hcount. done.
Qed.

End LocateProperties.

Section LocateExamples.
#[local] Existing Instances Sample.helpers Sample2.comparison.

Lemma Locate_stops_at_the_first_match_witness :
  Locate 4 Sample2.three_rows "code" (VInt 9)
  = Some (Returned (true, on_row Sample2.three_rows 1))
  /\ Eof (on_row Sample2.three_rows 1) = false.
Proof.
  apply (Locate_stops_at_the_first_match Sample2.three_rows "code" (VInt 9) 1).
  - discriminate.
  - reflexivity.
  - simpl. lia.
  - intros i Hi. assert (i = O) as -> by lia. reflexivity.
  - intros _. reflexivity.
Defined.

Lemma empty_row_set_has_no_position_witness :
  Locate 1 (Sample.dataset Sample.oracle "select 1") "code" (VInt 9)
  = Some (Returned (false, with_cursor (Sample.dataset Sample.oracle "select 1") 0 0)).
Proof.
  apply (empty_row_set_has_no_position
           (Sample.dataset Sample.oracle "select 1") "code" (VInt 9)).
  reflexivity.
Defined.

End LocateExamples.

(** ** Bound arguments *)

(** X7.  [GetParamsBatch(index)], for an index that is not negative,
    returns exactly when every parameter holds a value at that index, and
    then binds each parameter, in order, to that value; one parameter
    without a value there makes the call panic, whatever the others hold. *)
Theorem GetParamsBatch_needs_every_value (ds : DataSet) (i : nat) :
  (Forall (fun p => (i < length (Param.Values p))%nat) (Params.List (Params ds))
   <-> exists args, GetParamsBatch ds (Z.of_nat i) = Returned args)
  /\ (forall args,
        GetParamsBatch ds (Z.of_nat i) = Returned args ->
        Forall2 (fun p a =>
                   exists v, Param.Values p !! i = Some v
                             /\ a = bind_arg (Param.Name p) (Value v) (Param.ParamType p))
                (Params.List (Params ds)) args)
  /\ (Exists (fun p => (length (Param.Values p) <= i)%nat) (Params.List (Params ds))
      -> exists msg, GetParamsBatch ds (Z.of_nat i) = Panicked msg).
Proof.
  unfold GetParamsBatch.
  assert (Hspec : forall l args,
             GetParamsBatch_loop (Z.of_nat i) l = Returned args ->
             Forall2 (fun p a =>
                        exists v, Param.Values p !! i = Some v
                                  /\ a = bind_arg (Param.Name p) (Value v)
                                                  (Param.ParamType p)) l args).
  { induction l as [|p l IH]; intros args Hrun.
    - injection Hrun as <-. constructor.
    - cbn [GetParamsBatch_loop] in Hrun.
      rewrite index_not_negative, Nat2Z.id in Hrun.
      destruct (Param.Values p !! i) as [v|] eqn:Hv; [|discriminate].
      destruct (GetParamsBatch_loop (Z.of_nat i) l) as [rest|msg] eqn:Hrest;
        [|discriminate].
      injection Hrun as <-. constructor; [by exists v | by apply IH]. }
  assert (Hpanic : forall l,
             Exists (fun p => (length (Param.Values p) <= i)%nat) l ->
             exists msg, GetParamsBatch_loop (Z.of_nat i) l = Panicked msg).
  { induction l as [|p l IH]; intros Hex; [by apply Exists_nil in Hex|].
    cbn [GetParamsBatch_loop]. rewrite index_not_negative, Nat2Z.id.
    destruct (Param.Values p !! i) as [v|] eqn:Hv; [|by eexists].
    apply Exists_cons in Hex as [Hp|Hl].
    - apply lookup_lt_Some in Hv. lia.
    - destruct (IH Hl) as [msg ->]. by eexists. }
  split; [|split; [apply Hspec | apply Hpanic]].
  split.
  - induction (Params.List (Params ds)) as [|p l IH]; intros Hall; [by eexists|].
    apply Forall_cons in Hall as [Hp Hl]. cbn [GetParamsBatch_loop].
    rewrite index_not_negative, Nat2Z.id.
    destruct (lookup_lt_is_Some_2 _ _ Hp) as [v ->].
    destruct (IH Hl) as [rest ->]. by eexists.
  - intros [args Hrun]. apply Hspec in Hrun.
    induction Hrun as [|p a l args' (v & Hv & _) _ IH]; constructor; [|done].
    by apply lookup_lt_Some in Hv.
Qed.

(** ** Open: reading the rows *)

Section OpenLoads.
Context `{Helpers} {Server : Type} `{Driver Server}.

Lemma log_query2_run (conn : Conn.t) (query : string) (ds : DataSet) (w0 : World Server) :
  V2.log_query conn query ds w0
  = Returned (tt, mkWorld (server w0) (heap w0)
                    (stdout w0 ++ (if Conn.log conn
                                   then query :: PrintParam (Params ds)
                                   else []))%list (trace w0)).
Proof.
  destruct w0 as [sv hp out tr]. unfold V2.log_query, Println, mret, M_ret. simpl.
  destruct (Conn.log conn); [done|]. by rewrite app_nil_r.
Qed.


(** The loop of [scan] over fields declared beforehand. *)
Lemma scan_old_fields_spec (columns : list (string * ScanKind)) (count : nat) :
  forall (i : nat) (fields fields' : list Field.t),
    V2.scan_old_fields count i columns fields = Returned fields' ->
    length fields' = length fields
    /\ forall j,
         fields' !! j
         = if bool_decide (i <= j < i + count)%nat
           then match columns !! j with
                | Some (_, k) => V2.typed_field k j <$> fields !! j
                | None => fields !! j
                end
           else fields !! j.
Proof.
  induction count as [|count IH]; intros i fields fields' Hrun.
  - injection Hrun as <-. split; [done|]. intros j.
    by rewrite bool_decide_false by lia.
  - cbn [V2.scan_old_fields] in Hrun.
    destruct (columns !! i) as [[name k]|] eqn:Hcol; [|discriminate].
    destruct (IH _ _ _ Hrun) as [Hlen Hat]. split.
    + by rewrite Hlen, length_alter.
    + intros j. rewrite Hat. destruct (decide (j = i)) as [->|Hne].
      * rewrite bool_decide_false by lia. rewrite bool_decide_true by lia.
        by rewrite Hcol, list_lookup_alter_eq.
      * rewrite list_lookup_alter_ne by done.
        destruct (decide (S i <= j < S i + count)%nat).
        -- rewrite !bool_decide_true by lia.
           by destruct (columns !! j) as [[? ?]|].
        -- by rewrite !bool_decide_false by lia.
Qed.

Lemma scan_old_fields_returns (columns : list (string * ScanKind)) (count : nat) :
  forall (i : nat) (fields : list Field.t),
    (i + count <= length columns)%nat ->
    exists fields', V2.scan_old_fields count i columns fields = Returned fields'.
Proof.
  induction count as [|count IH]; intros i fields Hle; [by eexists|].
  cbn [V2.scan_old_fields].
  destruct (lookup_lt_is_Some_2 columns i ltac:(lia)) as [[name k] ->].
  apply IH. lia.
Qed.

Lemma scan_old_fields_panics (columns : list (string * ScanKind)) (count : nat) :
  forall (i : nat) (fields : list Field.t),
    (i <= length columns < i + count)%nat ->
    exists msg, V2.scan_old_fields count i columns fields = Panicked msg.
Proof.
  induction count as [|count IH]; intros i fields Hle; [lia|].
  cbn [V2.scan_old_fields].
  destruct (columns !! i) as [[name k]|] eqn:Hcol; [|by eexists].
  apply lookup_lt_Some in Hcol. apply IH. lia.
Qed.


(** X8.  [scan] on a DataSet whose fields were declared beforehand pairs
    field [i] with column [i] of the result, whatever their names: it
    returns when there are at least as many columns as fields, with the same
    number of fields and each one typed from the column at its position, and
    it panics when there are fewer columns than fields. *)
Theorem scan_pairs_declared_fields_by_position (ds : DataSet) (rs : RowSet) :
  Fields ds <> [] ->
  ((length (Fields ds) <= length (Columns rs))%nat ->
   exists fields',
     V2.scan ds rs
     = Returned (with_Rows (with_Fields ds fields')
                           (Rows ds ++ map (row_of (Columns rs)) (Records rs))%list)
     /\ length fields' = length (Fields ds)
     /\ forall i f name k,
          Fields ds !! i = Some f ->
          Columns rs !! i = Some (name, k) ->
          fields' !! i = Some (V2.typed_field k i f))
  /\ ((length (Columns rs) < length (Fields ds))%nat ->
      exists msg, V2.scan ds rs = Panicked msg).
Proof.
  intros Hne.
  assert (Hlen : (length (Fields ds) =? 0)%nat = false).
  { apply Nat.eqb_neq. destruct (Fields ds); [done | simpl; lia]. }
  unfold V2.scan. rewrite Hlen. split.
  - intros Hle.
    destruct (scan_old_fields_returns (Columns rs) (length (Fields ds)) O (Fields ds))
      as [fields' Hrun]; [lia|].
    rewrite Hrun. exists fields'. split; [done|].
    destruct (scan_old_fields_spec _ _ _ _ _ Hrun) as [Hsame Hat].
    split; [done|]. intros i f name k Hf Hcol.
    rewrite Hat. apply lookup_lt_Some in Hf as Hi.
    rewrite bool_decide_true by lia. by rewrite Hcol, Hf.
  - intros Hlt.
    destruct (scan_old_fields_panics (Columns rs) (length (Fields ds)) O (Fields ds))
      as [msg ->]; [lia|]. by eexists.
Qed.


(** X10.  With a transaction bound, [Open] sends its query on the
    transaction and hands a failure back as the driver reported it: it does
    not ping, reopen the connection or send the query again, whatever
    connection the DataSet also holds. *)
Theorem Open_in_transaction_does_not_retry (l : loc) (w : World Server)
        (ds0 ds1 : DataSet) (t : Transaction.t) (conn : Conn.t)
        (query : string) (lines : list string)
        (s2 : Server) (rows : option RowSet) (e : error) :
  heap w !! l = Some ds0 ->
  Tx ds0 = Some t ->
  Transaction.Conn t = Some conn ->
  V2.GetSqlMasterDetail (<[l:=reset_rows ds0]> (heap w)) (reset_rows ds0)
  = Returned (query, ds1, lines) ->
  drv_Query (server w) (OnTx (Transaction.tx t)) (Ctx ds0) query (GetParams ds1)
  = (s2, (rows, Some e)) ->
  V2.Open l w
  = Returned
      (Some e,
       mkWorld s2 (<[l:=ds1]> (<[l:=reset_rows ds0]> (heap w)))
               ((stdout w ++ lines)
                ++ (if Conn.log conn then query :: PrintParam (Params ds1) else []))%list
               (trace w
                ++ [EvQuery (OnTx (Transaction.tx t)) (Ctx ds0) query (GetParams ds1)])%list).
Proof.
  intros Hl Htx Hconn Hasm Hq.
  destruct (masterDetail_frame2 _ _ _ _ _ Hasm) as [params ->].
  unfold V2.Open, V2.GetSqlMasterDetail_at.
  unfold mbind at 1, M_bind at 1, get_ds at 1. rewrite Hl.
  unfold mbind at 1, M_bind at 1, put_ds at 1.
  unfold mbind at 1, M_bind at 1.
  unfold mbind at 1, M_bind at 1, get_ds at 1. cbn [heap].
  rewrite lookup_insert_eq.
  unfold mbind at 1, M_bind at 1, get_heap at 1. cbn [heap].
  unfold mbind at 1, M_bind at 1, lift at 1.
  fold (reset_rows ds0). rewrite Hasm.
  unfold mbind at 1, M_bind at 1, put_ds at 1.
  unfold mbind at 1, M_bind at 1, Println at 1.
  unfold mret at 1, M_ret at 1.
  unfold mbind at 1, M_bind at 1, get_ds at 1. cbn [heap stdout server trace].
  rewrite lookup_insert_eq.
  cbn [Tx with_Params reset_rows with_cursor with_Rows Connection Ctx].
  rewrite Htx, Hconn.
  unfold mbind at 1, M_bind at 1, deref at 1, mret at 1, M_ret at 1.
  unfold mbind at 1, M_bind at 1.
  fold (reset_rows ds0). rewrite log_query2_run. cbn [heap stdout server trace].
  unfold mbind, M_bind, Query, emit, mret, M_ret.
  cbn [heap stdout server trace Ctx with_Params reset_rows with_cursor with_Rows Params]
    in *.
  rewrite Hq. reflexivity.
Qed.

End OpenLoads.

Section OpenLoadsExamples.
#[local] Existing Instances Sample.helpers Sample.scripted.

Lemma scan_pairs_declared_fields_by_position_witness :
  ((length (Fields Sample2.declared) <= length (Columns Sample2.two_records))%nat ->
   exists fields',
     V2.scan Sample2.declared Sample2.two_records
     = Returned (with_Rows (with_Fields Sample2.declared fields')
                           (Rows Sample2.declared
                            ++ map (row_of (Columns Sample2.two_records))
                                   (Records Sample2.two_records))%list)
     /\ length fields' = length (Fields Sample2.declared)
     /\ forall i f name k,
          Fields Sample2.declared !! i = Some f ->
          Columns Sample2.two_records !! i = Some (name, k) ->
          fields' !! i = Some (V2.typed_field k i f))
  /\ ((length (Columns Sample2.two_records) < length (Fields Sample2.declared))%nat ->
      exists msg, V2.scan Sample2.declared Sample2.two_records = Panicked msg).
Proof.
  apply (scan_pairs_declared_fields_by_position Sample2.declared Sample2.two_records).
  discriminate.
Defined.


Lemma Open_in_transaction_does_not_retry_witness :
  V2.Open 1%nat (Sample.world Sample.server_restarted {[ 1%nat := Sample2.in_transaction ]})
  = Returned
      (Some (DriverError "connection reset"),
       mkWorld (Sample.mkScript [] [Some (DriverError "bad connection")] [] [] [])
               (<[1%nat:=reset_rows Sample2.in_transaction]>
                  (<[1%nat:=reset_rows Sample2.in_transaction]>
                     {[ 1%nat := Sample2.in_transaction ]}))
               []
               [EvQuery (OnTx 5%nat) None "select CODE from m" []]).
Proof.
  rewrite (Open_in_transaction_does_not_retry 1%nat
             (Sample.world Sample.server_restarted {[ 1%nat := Sample2.in_transaction ]})
             Sample2.in_transaction (reset_rows Sample2.in_transaction)
             (Transaction.mk 5%nat (Some Sample.oracle)) Sample.oracle
             "select CODE from m" []
             (Sample.mkScript [] [Some (DriverError "bad connection")] [] [] [])
             None (DriverError "connection reset")) by reflexivity.
  reflexivity.
Defined.

End OpenLoadsExamples.

(** ** DataSets made for a transaction *)

Section TransactionDataSets.
Context `{Helpers} {Server : Type} `{Driver Server}.

Lemma CreateFields_keeps_Connection (ds : DataSet) :
  Connection (snd (V1.CreateFields ds)) = Connection ds.
Proof. unfold V1.CreateFields. by destruct (SelectExprNames _). Qed.

(** X11.  Edition 1's [Open] and [OpenContext] read [ds.Connection]
    whether or not a transaction is bound: on a DataSet without a
    connection, as [NewDataSetTx] makes it, they never return. *)
Theorem Open_first_edition_needs_a_connection
        (ctx : option Context) (l : loc) (w : World Server) (ds : DataSet) :
  heap w !! l = Some ds ->
  Connection ds = None ->
  exists msg, V1.Open_with ctx l w = Panicked msg.
Proof.
  intros Hl Hconn. unfold V1.Open_with, V1.GetSqlMasterDetail_at.
  unfold mbind at 1, M_bind at 1, get_ds at 1. rewrite Hl.
  unfold mbind at 1, M_bind at 1, put_ds at 1.
  unfold mbind at 1, M_bind at 1.
  unfold mbind at 1, M_bind at 1, get_ds at 1. cbn [heap].
  rewrite lookup_insert_eq.
  unfold mbind at 1, M_bind at 1, get_heap at 1. cbn [heap].
  unfold mbind at 1, M_bind at 1, lift at 1.
  set (ds0 := if (length (Fields (with_cursor (with_Rows ds []) 0 0)) =? 0)%nat
              then snd (V1.CreateFields (with_cursor (with_Rows ds []) 0 0))
              else with_cursor (with_Rows ds []) 0 0).
  assert (Hconn0 : Connection ds0 = None).
  { subst ds0. destruct (_ =? _)%nat; [by rewrite CreateFields_keeps_Connection|done]. }
  destruct (V1.GetSqlMasterDetail _ ds0) as [[[sql ds'] lines]|msg] eqn:Hasm;
    [|by eexists].
  destruct (masterDetail_frame1 _ _ _ _ _ Hasm) as [params ->].
  unfold mbind at 1, M_bind at 1, put_ds at 1.
  unfold mbind at 1, M_bind at 1, Println at 1.
  unfold mret at 1, M_ret at 1.
  unfold mbind at 1, M_bind at 1, get_ds at 1. cbn [heap stdout server trace].
  rewrite lookup_insert_eq.
  cbn [Connection with_Params]. rewrite Hconn0.
  unfold mbind at 1, M_bind at 1, deref at 1, lift at 1. by eexists.
Qed.

(** X12.  Edition 2's [OpenContext] with a transaction bound sends the
    query, with the context it was given, on the database handle of the
    transaction's connection and not on the transaction; it logs for the
    DataSet's connection and again for the transaction's, and hands a
    failure back as the driver reported it, with no ping. *)
Theorem OpenContext_in_transaction_queries_the_connection
        (l : loc) (context : Context) (w : World Server)
        (ds0 ds1 : DataSet) (t : Transaction.t) (conn0 conn : Conn.t)
        (query : string) (lines : list string)
        (s2 : Server) (rows : option RowSet) (e : error) :
  heap w !! l = Some ds0 ->
  Connection ds0 = Some conn0 ->
  Tx ds0 = Some t ->
  Transaction.Conn t = Some conn ->
  V2.GetSqlMasterDetail (<[l:=reset_rows ds0]> (heap w)) (reset_rows ds0)
  = Returned (query, ds1, lines) ->
  drv_Query (server w) (OnDB (Conn.DB conn)) (Some context) query (GetParams ds1)
  = (s2, (rows, Some e)) ->
  let logged (c : Conn.t) :=
    if Conn.log c then query :: PrintParam (Params ds1) else [] in
  V2.OpenContext l context w
  = Returned
      (Some e,
       mkWorld s2 (<[l:=ds1]> (<[l:=reset_rows ds0]> (heap w)))
               (((stdout w ++ lines) ++ logged conn0) ++ logged conn)%list
               (trace w
                ++ [EvQuery (OnDB (Conn.DB conn)) (Some context) query (GetParams ds1)])%list).
Proof.
  intros Hl Hconn0 Htx Hconn Hasm Hq logged.
  destruct (masterDetail_frame2 _ _ _ _ _ Hasm) as [params ->].
  unfold V2.OpenContext, V2.GetSqlMasterDetail_at.
  unfold mbind at 1, M_bind at 1, get_ds at 1. rewrite Hl.
  unfold mbind at 1, M_bind at 1, put_ds at 1.
  unfold mbind at 1, M_bind at 1.
  unfold mbind at 1, M_bind at 1, get_ds at 1. cbn [heap].
  rewrite lookup_insert_eq.
  unfold mbind at 1, M_bind at 1, get_heap at 1. cbn [heap].
  unfold mbind at 1, M_bind at 1, lift at 1.
  fold (reset_rows ds0). rewrite Hasm.
  unfold mbind at 1, M_bind at 1, put_ds at 1.
  unfold mbind at 1, M_bind at 1, Println at 1.
  unfold mret at 1, M_ret at 1.
  unfold mbind at 1, M_bind at 1, get_ds at 1. cbn [heap stdout server trace].
  rewrite lookup_insert_eq.
  cbn [Tx with_Params reset_rows with_cursor with_Rows Connection Ctx].
  rewrite Hconn0.
  unfold mbind at 1, M_bind at 1, deref at 1, mret at 1, M_ret at 1.
  unfold mbind at 1, M_bind at 1.
  fold (reset_rows ds0). rewrite log_query2_run. cbn [heap stdout server trace].
  cbn [Tx with_Params reset_rows with_cursor with_Rows Connection Ctx].
  rewrite Htx, Hconn.
  unfold mbind at 1, M_bind at 1, deref at 1, mret at 1, M_ret at 1.
  unfold mbind at 1, M_bind at 1.
  fold (reset_rows ds0). rewrite log_query2_run. cbn [heap stdout server trace].
  unfold mbind, M_bind, Query, emit, mret, M_ret.
  cbn [heap stdout server trace Ctx with_Params reset_rows with_cursor with_Rows Params]
    in *.
  rewrite Hq. reflexivity.
Qed.

End TransactionDataSets.

Section TransactionExamples.
#[local] Existing Instances Sample.helpers Sample.scripted.

Lemma Open_first_edition_needs_a_connection_witness :
  exists msg,
    V1.Open 0%nat (Sample.world Sample.all_succeed {[ 0%nat := V1.NewDataSetTx (Some 5%nat) ]})
    = Panicked msg.
Proof.
  apply (Open_first_edition_needs_a_connection None 0%nat
           (Sample.world Sample.all_succeed {[ 0%nat := V1.NewDataSetTx (Some 5%nat) ]})
           (V1.NewDataSetTx (Some 5%nat))).
  - reflexivity.
  - reflexivity.
Defined.

Lemma OpenContext_in_transaction_queries_the_connection_witness :
  V2.OpenContext 1%nat 3%nat
    (Sample.world Sample.server_restarted {[ 1%nat := Sample2.in_transaction ]})
  = Returned
      (Some (DriverError "connection reset"),
       mkWorld (Sample.mkScript [] [Some (DriverError "bad connection")] [] [] [])
               (<[1%nat:=reset_rows Sample2.in_transaction]>
                  (<[1%nat:=reset_rows Sample2.in_transaction]>
                     {[ 1%nat := Sample2.in_transaction ]}))
               []
               [EvQuery (OnDB O) (Some 3%nat) "select CODE from m" []]).
Proof.
  rewrite (OpenContext_in_transaction_queries_the_connection 1%nat 3%nat
             (Sample.world Sample.server_restarted {[ 1%nat := Sample2.in_transaction ]})
             Sample2.in_transaction (reset_rows Sample2.in_transaction)
             (Transaction.mk 5%nat (Some Sample.oracle)) Sample.oracle Sample.oracle
             "select CODE from m" []
             (Sample.mkScript [] [Some (DriverError "bad connection")] [] [] [])
             None (DriverError "connection reset")) by reflexivity.
  reflexivity.
Defined.

End TransactionExamples.

(** ** Text replacement *)

Lemma replace_go_skip (old new : string) (x : string) :
  forall y : string,
    replace_go (String.length x) (x +:+ y) old new = replace_go O y old new.
Proof.
  induction x as [|c x IH]; intros y.
  - rewrite str_app_nil_l. reflexivity.
  - rewrite str_app_cons. cbn [String.length replace_go]. apply IH.
Qed.

Lemma replace_go_absent (old new : string) :
  forall s : string, ~ occurs old s -> replace_go O s old new = s.
Proof.
  induction s as [|c s IH]; intros Hno; [reflexivity|].
  cbn [replace_go].
  destruct (HasPrefix (String c s) old) eqn:Hp.
  - destruct Hno. by apply HasPrefix_occurs.
  - rewrite IH; [done|]. intros Hocc. apply Hno. by apply occurs_cons.
Qed.

(** [ReplaceAll] at the first occurrence of [old]. *)
Lemma replace_go_at_index (old new : string) :
  old <> "" ->
  forall (s : string) (k : nat),
    index_of s old = Some k ->
    replace_go O s old new
    = str_take k s +:+ new
      +:+ replace_go O (str_drop (k + String.length old) s) old new.
Proof.
  intros Hold. induction s as [|c s IH]; intros k; cbn [index_of].
  - destruct (HasPrefix "" old) eqn:Hp; [|done].
    destruct old; [done | discriminate].
  - destruct (HasPrefix (String c s) old) eqn:Hp.
    + intros [= <-]. cbn [replace_go str_take]. rewrite Hp, str_app_nil_l.
      f_equal. destruct (HasPrefix_split _ _ Hp) as [after Hs].
      destruct old as [|d old]; [done|].
      rewrite str_app_cons in Hs. injection Hs as -> ->.
      cbn [String.length Nat.pred Nat.add str_drop].
      by rewrite replace_go_skip, str_drop_app.
    + destruct (index_of s old) as [k'|] eqn:Hk; [|done]. intros [= <-].
      cbn [replace_go]. rewrite Hp. cbn [str_take Nat.add str_drop].
      rewrite str_app_cons. f_equal. by apply IH.
Qed.

(** A text without the byte [c] that starts a text in which [c] follows a
    prefix [s] lies within [s]. *)
Lemma name_before_byte (c : ascii) (name : string) :
  forall s after : string,
    has_byte c name = false ->
    HasPrefix (s +:+ String c after) name = true -> HasPrefix s name = true.
Proof.
  induction name as [|d name IH]; intros s after Hname Hp; [reflexivity|].
  cbn [has_byte] in Hname. apply orb_false_iff in Hname as [Hd Hname].
  destruct s as [|e s].
  - rewrite str_app_nil_l in Hp. cbn [HasPrefix] in Hp.
    rewrite Ascii.eqb_sym, Hd in Hp. discriminate.
  - rewrite str_app_cons in Hp. cbn [HasPrefix] in *.
    destruct (Ascii.eqb d e); [|done]. by eapply IH.
Qed.

(** A token made of a byte and a name without that byte does not overlap
    itself. *)
Lemma index_of_first_token (c : ascii) (name after : string) :
  has_byte c name = false ->
  forall before : string,
    ~ occurs (String c name) before ->
    index_of (before +:+ String c name +:+ after) (String c name)
    = Some (String.length before).
Proof.
  intros Hname. induction before as [|d before IH]; intros Hno.
  - rewrite str_app_nil_l, str_app_cons.
    cbn [index_of HasPrefix]. by rewrite Ascii.eqb_refl, HasPrefix_app.
  - rewrite str_app_cons. cbn [index_of].
    destruct (HasPrefix (String d (before +:+ String c name +:+ after)) (String c name))
      eqn:Hp.
    + exfalso. apply Hno. cbn [HasPrefix] in Hp.
      destruct (Ascii.eqb_spec c d) as [<-|]; [|done].
      rewrite str_app_cons in Hp.
      apply name_before_byte in Hp; [|done].
      apply HasPrefix_occurs. cbn [HasPrefix]. by rewrite Ascii.eqb_refl.
    + rewrite IH; [reflexivity|]. intros Hocc. apply Hno. by apply occurs_cons.
Qed.

Lemma ReplaceAll_first_token (c : ascii) (name new before after : string) :
  has_byte c name = false ->
  ~ occurs (String c name) before ->
  ReplaceAll (before +:+ String c name +:+ after) (String c name) new
  = before +:+ new +:+ ReplaceAll after (String c name) new.
Proof.
  intros Hname Hno. unfold ReplaceAll.
  rewrite (replace_go_at_index (String c name) new ltac:(done) _ (String.length before))
    by (by apply index_of_first_token).
  rewrite str_take_app. do 2 f_equal.
  rewrite <- str_length_app, <- str_app_assoc. by rewrite str_drop_app.
Qed.

Section Macros.
Context `{Helpers}.

Lemma expandMacro_ReplaceAll (sql : string) (m : Macro.t) :
  expandMacro sql m = ReplaceAll sql (String "&" (Macro.Name m)) (macro_text m).
Proof. unfold expandMacro, macro_text. by destruct (Value (Macro.Value m)). Qed.

(** X13.  A macro is expanded wherever its token [&name] stands, whatever
    follows it: unlike a parameter token it needs no delimiter after it, so
    a macro also replaces the start of a longer name. *)
Theorem macro_is_expanded_at_any_boundary (m : Macro.t) (before after : string) :
  has_byte "&" (Macro.Name m) = false ->
  ~ occurs ("&" +:+ Macro.Name m) before ->
  expandMacro (before +:+ ("&" +:+ Macro.Name m) +:+ after) m
  = before +:+ macro_text m +:+ expandMacro after m.
Proof.
  intros Hname Hno. rewrite !expandMacro_ReplaceAll.
  change ("&" +:+ Macro.Name m) with (String "&" (Macro.Name m)) in *.
  by apply ReplaceAll_first_token.
Qed.

(** X14.  Macros whose token does not occur in the text leave it as it
    is: without line breaks, [GetSql] of edition 1 is then the text of the
    SQL buffer. *)
Theorem macros_without_token_change_nothing (ds : DataSet) :
  Forall (fun m => ~ occurs ("&" +:+ Macro.Name m) (Strings.Text (Sql ds))) (Macros ds) ->
  foldl expandMacro (Strings.Text (Sql ds)) (Macros ds) = Strings.Text (Sql ds)
  /\ (has_byte (ascii_of_nat 13) (Strings.Text (Sql ds)) = false ->
      has_byte (ascii_of_nat 10) (Strings.Text (Sql ds)) = false ->
      V1.GetSql ds = Strings.Text (Sql ds)).
Proof.
  intros Hall.
  assert (Hfold : foldl expandMacro (Strings.Text (Sql ds)) (Macros ds)
                  = Strings.Text (Sql ds)).
  { induction Hall as [|m ms Hm _ IH]; [reflexivity|].
    cbn [foldl]. rewrite expandMacro_ReplaceAll. unfold ReplaceAll.
    rewrite replace_go_absent by done. exact IH. }
  split; [done|]. intros Hcr Hlf. unfold V1.GetSql. rewrite Hfold.
  by apply indent_newlines_plain.
Qed.

End Macros.

(** ** Line breaks *)

Lemma replace_go_keeps_absent (c : ascii) (old new : string) :
  has_byte c new = false ->
  forall (s : string) (k : nat),
    has_byte c s = false -> has_byte c (replace_go k s old new) = false.
Proof.
  intros Hnew. induction s as [|d s IH]; intros k Hs; [by destruct k|].
  cbn [has_byte] in Hs. apply orb_false_iff in Hs as [Hd Hs].
  cbn [replace_go]. destruct k as [|k]; [|by apply IH].
  destruct (HasPrefix (String d s) old).
  - assert (Happ : forall x y, has_byte c x = false -> has_byte c y = false ->
                               has_byte c (x +:+ y) = false).
    { induction x as [|e x IHx]; intros y Hx Hy; [by rewrite str_app_nil_l|].
      rewrite str_app_cons. cbn [has_byte] in *.
      apply orb_false_iff in Hx as [He Hx]. rewrite He. by apply IHx. }
    apply Happ; [done | by apply IH].
  - cbn [has_byte]. rewrite Hd. by apply IH.
Qed.

Lemma replace_single_removes (c : ascii) (new : string) :
  has_byte c new = false ->
  forall s : string, has_byte c (replace_go O s (String c "") new) = false.
Proof.
  intros Hnew.
  assert (Happ : forall x y, has_byte c x = false -> has_byte c y = false ->
                             has_byte c (x +:+ y) = false).
  { induction x as [|e x IHx]; intros y Hx Hy; [by rewrite str_app_nil_l|].
    rewrite str_app_cons. cbn [has_byte] in *.
    apply orb_false_iff in Hx as [He Hx]. rewrite He. by apply IHx. }
  induction s as [|d s IH]; [reflexivity|].
  cbn [replace_go HasPrefix String.length Nat.pred].
  destruct (Ascii.eqb c d) eqn:Hcd.
  - by apply Happ.
  - cbn [has_byte]. by rewrite Hcd.
Qed.

Lemma indent_after_newline_byte (nl : ascii) :
  Ascii.eqb nl " " = false ->
  forall s before after : string,
    replace_go O s (String nl "") (String nl " ") = before +:+ String nl after ->
    HasPrefix after " " = true.
Proof.
  intros Hnl. induction s as [|d s IH]; intros before after Heq.
  - destruct before; discriminate.
  - cbn [replace_go HasPrefix String.length Nat.pred] in Heq.
    destruct (Ascii.eqb nl d) eqn:Hd.
    + rewrite (str_app_cons nl " "), (str_app_cons " " ""), str_app_nil_l in Heq.
      destruct before as [|b before].
      * rewrite str_app_nil_l in Heq. injection Heq as <-. reflexivity.
      * rewrite str_app_cons in Heq. injection Heq as -> Heq.
        destruct before as [|b' before].
        -- rewrite str_app_nil_l in Heq. injection Heq as <- _.
           by rewrite Ascii.eqb_refl in Hnl.
        -- rewrite str_app_cons in Heq. injection Heq as <- Heq.
           by apply (IH before after).
    + destruct before as [|b before].
      * rewrite str_app_nil_l in Heq. injection Heq as <- _.
        by rewrite Ascii.eqb_refl in Hd.
      * rewrite str_app_cons in Heq. injection Heq as -> Heq.
        by apply (IH before after).
Qed.

Lemma indent_after_every_newline (s : string) :
  newlines_indented (replace_go O s LF (LF +:+ " ")).
Proof.
  unfold newlines_indented, LF. intros before after Heq.
  apply (indent_after_newline_byte (ascii_of_nat 10) eq_refl s before after).
  rewrite (str_app_cons (ascii_of_nat 10) ""), str_app_nil_l in Heq. exact Heq.
Qed.

(** X15.  The text [GetSql] assembles holds no carriage return, and every
    line feed in it is followed by a space: in edition 1 always, in edition 2
    under every dialect that is not POSTGRESQL. *)
Theorem GetSql_normalises_line_breaks `{Helpers} (ds : DataSet) :
  (has_byte (ascii_of_nat 13) (V1.GetSql ds) = false
   /\ newlines_indented (V1.GetSql ds))
  /\ (forall (code : nat) (sql : string),
        V2.dialect_of ds = Returned (OtherDialect code) ->
        V2.GetSql ds = Returned sql ->
        has_byte (ascii_of_nat 13) sql = false /\ newlines_indented sql).
Proof.
  assert (Hnorm : forall s,
             has_byte (ascii_of_nat 13) (indent_newlines s) = false
             /\ newlines_indented (indent_newlines s)).
  { intros s. unfold indent_newlines, ReplaceAll, CR, LF. split.
    - apply replace_go_keeps_absent; [reflexivity|].
      by apply replace_single_removes.
    - apply indent_after_every_newline. }
  split; [apply Hnorm|].
  intros code sql Hdialect Hsql. unfold V2.GetSql, V2.replaceAllParam in Hsql.
  rewrite Hdialect in Hsql. cbn in Hsql. injection Hsql as <-. apply Hnorm.
Qed.

(** ** limitStr *)

Lemma str_take_length (n : nat) :
  forall s : string, String.length (str_take n s) = Nat.min n (String.length s).
Proof. induction n as [|n IH]; intros [|c s]; cbn [str_take String.length Nat.min]; auto. Qed.

Lemma str_take_drop (n : nat) :
  forall s : string, str_take n s +:+ str_drop n s = s.
Proof.
  induction n as [|n IH]; intros [|c s]; cbn [str_take str_drop]; try done.
  rewrite str_app_cons. by rewrite IH.
Qed.

(** X16.  [limitStr] with a limit that is not negative returns a prefix
    of the value holding [min(len(value), limit)] bytes, and applying it
    again with the same limit changes nothing; with a negative limit it
    panics, whatever the value. *)
Theorem limitStr_cuts_to_a_prefix (value : string) (limit : Z) :
  (0 <= limit ->
   exists r rest,
     limitStr value limit = Returned r
     /\ value = r +:+ rest
     /\ len r = Z.min (len value) limit
     /\ limitStr r limit = Returned r)
  /\ (limit < 0 -> exists msg, limitStr value limit = Panicked msg).
Proof.
  unfold limitStr, len. split.
  - intros Hlimit. destruct (Z.of_nat (String.length value) >? limit) eqn:Hgt.
    + replace (limit <? 0) with false by (symmetry; apply Z.ltb_ge; lia).
      exists (slice_to value limit), (slice_from value limit).
      unfold slice_to, slice_from. rewrite str_take_drop, str_take_length.
      apply Z.gtb_lt in Hgt. repeat split; [lia|].
      replace (Z.of_nat (Nat.min (Z.to_nat limit) (String.length value)) >? limit)
        with false; [done|].
      symmetry. rewrite Z.gtb_ltb. apply Z.ltb_ge. lia.
    + exists value, "". rewrite str_app_nil_r, Hgt.
      rewrite Z.gtb_ltb in Hgt. apply Z.ltb_ge in Hgt. repeat split. lia.
  - intros Hneg.
    replace (Z.of_nat (String.length value) >? limit) with true
      by (symmetry; rewrite Z.gtb_ltb; apply Z.ltb_lt; lia).
    replace (limit <? 0) with true by (symmetry; apply Z.ltb_lt; lia).
    by eexists.
Qed.

Section MacroExamples.
#[local] Existing Instances Sample.helpers.

Lemma macro_is_expanded_at_any_boundary_witness :
  expandMacro ("select * from " +:+ ("&" +:+ Macro.Name Sample2.table_macro) +:+ "le")
              Sample2.table_macro
  = "select * from " +:+ macro_text Sample2.table_macro
    +:+ expandMacro "le" Sample2.table_macro.
Proof.
  apply (macro_is_expanded_at_any_boundary Sample2.table_macro "select * from " "le").
  - reflexivity.
  - intros Hocc. apply occurs_index_of in Hocc. apply Hocc. reflexivity.
Defined.

Lemma macros_without_token_change_nothing_witness :
  foldl expandMacro (Strings.Text (Sql Sample2.unused_macro)) (Macros Sample2.unused_macro)
  = Strings.Text (Sql Sample2.unused_macro)
  /\ (has_byte (ascii_of_nat 13) (Strings.Text (Sql Sample2.unused_macro)) = false ->
      has_byte (ascii_of_nat 10) (Strings.Text (Sql Sample2.unused_macro)) = false ->
      V1.GetSql Sample2.unused_macro = Strings.Text (Sql Sample2.unused_macro)).
Proof.
  apply (macros_without_token_change_nothing Sample2.unused_macro).
  repeat constructor.
  intros Hocc. apply occurs_index_of in Hocc. apply Hocc. reflexivity.
Defined.

End MacroExamples.

(** ** The scanner of Prepare *)

Lemma all_word_snoc (acc : string) (c : ascii) :
  all_word acc = true -> is_word c = true -> all_word (acc +:+ String c "") = true.
Proof.
  intros Hacc Hc. induction acc as [|d acc IH].
  - rewrite str_app_nil_l. cbn [all_word]. by rewrite Hc.
  - rewrite str_app_cons. cbn [all_word] in *.
    apply andb_true_iff in Hacc as [Hd Hacc]. rewrite Hd. by apply IH.
Qed.

Lemma snoc_not_empty (acc : string) (c : ascii) : acc +:+ String c "" <> "".
Proof. destruct acc; [rewrite str_app_nil_l | rewrite str_app_cons]; discriminate. Qed.

Lemma FindAll_names_are_words (s : string) :
  forall st : scan_state,
    match st with
    | InName acc => acc <> "" /\ all_word acc = true
    | _ => True
    end ->
    Forall (fun name => name <> "" /\ all_word name = true) (FindAllStringSubmatch st s).
Proof.
  assert (Hrestart : forall c, match restart c with
                               | InName acc => acc <> "" /\ all_word acc = true
                               | _ => True
                               end).
  { intros c. unfold restart. by destruct (Ascii.eqb c " "). }
  induction s as [|c s IH]; intros st Hst.
  - destruct st; cbn [FindAllStringSubmatch]; [constructor..|].
    by apply Forall_singleton.
  - destruct st as [| | |acc]; cbn [FindAllStringSubmatch].
    + apply IH, Hrestart.
    + destruct (Ascii.eqb c ":"); [by apply IH | apply IH, Hrestart].
    + destruct (is_word c) eqn:Hc; [|apply IH, Hrestart].
      apply IH. split; [done|]. cbn [all_word]. by rewrite Hc.
    + destruct (is_word c) eqn:Hc.
      * apply IH. destruct Hst as [_ Hacc]. split; [apply snoc_not_empty|].
        by apply all_word_snoc.
      * constructor; [done|]. apply IH, Hrestart.
Qed.

(** Without a space directly before a colon the scanner never leaves its
    first two states. *)
Lemma FindAll_without_space_colon (s : string) :
  forall st : scan_state,
    match st with
    | Idle => ~ occurs " :" s
    | AfterSpace => ~ occurs " :" (String " " s)
    | _ => False
    end ->
    FindAllStringSubmatch st s = [].
Proof.
  induction s as [|c s IH]; intros st Hst.
  - by destruct st.
  - assert (Hnext : ~ occurs " :" (String c s) ->
                    FindAllStringSubmatch (restart c) s = []).
    { intros Hno. apply IH. unfold restart.
      destruct (Ascii.eqb_spec c " ") as [->|]; [done|].
      intros Hocc. apply Hno. by apply occurs_cons. }
    destruct st as [| | |acc]; cbn [FindAllStringSubmatch]; [| |done..].
    + by apply Hnext.
    + destruct (Ascii.eqb_spec c ":") as [->|Hc].
      * destruct Hst. by exists "", s.
      * apply Hnext. intros Hocc. apply Hst. by apply occurs_cons.
Qed.

(** X17.  Every name the scanner of edition 1's [Prepare] finds is a
    non-empty run of letters, digits and underscores, so these are the only
    names [Prepare] appends: the parameters already there stay in place and
    each appended one has such a name, an empty string value and no batch
    values. *)
Theorem Prepare_appends_only_word_names `{Helpers} (ds : DataSet) :
  exists added : list Param.t,
    Params.List (Params (V1.Prepare ds)) = (Params.List (Params ds) ++ added)%list
    /\ Forall (fun p => Param.Name p <> ""
                        /\ all_word (Param.Name p) = true
                        /\ Value (Param.Value p) = VString ""
                        /\ Param.Values p = []) added.
Proof.
  exists (map discovered (FindAllStringSubmatch Idle (V1.GetSql ds))).
  split; [reflexivity|].
  apply Forall_map.
  eapply Forall_impl; [apply (FindAll_names_are_words _ Idle I)|].
  intros name [Hne Hword]. by cbn.
Qed.

(** X18.  The scanner needs a space directly before the colon: when the
    assembled SQL nowhere holds a space followed by a colon, as when its
    only token starts the text or follows a parenthesis or an equals sign,
    edition 1's [Prepare] appends nothing. *)
Theorem Prepare_needs_a_space_before_the_colon `{Helpers} (ds : DataSet) :
  ~ occurs " :" (V1.GetSql ds) ->
  FindAllStringSubmatch Idle (V1.GetSql ds) = []
  /\ Params.List (Params (V1.Prepare ds)) = Params.List (Params ds).
Proof.
  intros Hno.
  assert (Hnone : FindAllStringSubmatch Idle (V1.GetSql ds) = [])
    by (by apply FindAll_without_space_colon).
  split; [done|].
  unfold V1.Prepare. rewrite Hnone. cbn. by rewrite app_nil_r.
Qed.

Section ScannerExamples.
#[local] Existing Instances Sample.helpers.

Lemma Prepare_needs_a_space_before_the_colon_witness :
  let ds := Sample.dataset Sample.oracle "select * from t where x=:a and y in (:b)" in
  FindAllStringSubmatch Idle (V1.GetSql ds) = []
  /\ Params.List (Params (V1.Prepare ds)) = Params.List (Params ds).
Proof.
  apply (Prepare_needs_a_space_before_the_colon
           (Sample.dataset Sample.oracle "select * from t where x=:a and y in (:b)")).
  intros Hocc. apply occurs_index_of in Hocc. apply Hocc. reflexivity.
Defined.

End ScannerExamples.

(** ** Binding rows to structs *)

Section BindingProperties.
Context `{FieldBinder}.

Lemma bind_fields_by_position (ds : DataSet) (fields : list StructField) :
  forall vals vals' : list GoValue,
    bind_fields ds fields vals = Returned vals' ->
    length vals' = length vals
    /\ forall (i : nat) (f : StructField) (v : GoValue),
         fields !! i = Some f -> vals !! i = Some v ->
         if is_sequence (sf_Type f) || sf_Anonymous f
         then vals' !! i = Some v
         else exists v', bindField ds (column_of f) (sf_Type f) v = Returned v'
                         /\ vals' !! i = Some v'.
Proof.
  induction fields as [|f0 fields IH]; intros vals vals' Hrun.
  - cbn [bind_fields] in Hrun. injection Hrun as <-. split; [done|]. by intros [|i].
  - destruct vals as [|v0 vals].
    { cbn [bind_fields] in Hrun. injection Hrun as <-. split; [done|]. by intros [|i]. }
    cbn [bind_fields] in Hrun.
    destruct (if is_sequence (sf_Type f0) then Returned v0
              else if sf_Anonymous f0 then Returned v0
                   else bindField ds
                          (if String.eqb (sf_Tag_column f0) "" then sf_Name f0
                           else sf_Tag_column f0) (sf_Type f0) v0)
      as [v0'|] eqn:Hhead; [|discriminate].
    cbn [mbind outcome_bind] in Hrun.
    destruct (bind_fields ds fields vals) as [rest|] eqn:Hrest; [|discriminate].
    cbn [mbind outcome_bind mret outcome_ret] in Hrun. injection Hrun as <-.
    destruct (IH _ _ Hrest) as [Hlen Hat]. split; [simpl; by rewrite Hlen|].
    intros [|i] f v Hf Hv.
    + cbn in Hf, Hv. injection Hf as <-. injection Hv as <-. cbn [lookup list_lookup].
      destruct (is_sequence (sf_Type f0)); [by injection Hhead as ->|].
      destruct (sf_Anonymous f0); [by injection Hhead as ->|].
      cbn [orb]. by exists v0'.
    + by apply Hat.
Qed.

(** X19.  Binding one row to a struct keeps the number of fields and
    goes by position: a field of slice or array kind and an embedded field
    keep the value they had; any other field receives what the binder
    returns for the column named by its [column] tag, or by its own name
    when the tag is empty. *)
Theorem toStructUniqResult_binds_by_position
        (ds : DataSet) (name : string) (fields : list StructField)
        (vals : list GoValue) (r : GoValue) :
  toStructUniqResult ds (TStruct name fields) (Some (GStruct vals)) = Returned r ->
  exists vals' : list GoValue,
    r = GStruct vals'
    /\ length vals' = length vals
    /\ forall (i : nat) (f : StructField) (v : GoValue),
         fields !! i = Some f -> vals !! i = Some v ->
         if is_sequence (sf_Type f) || sf_Anonymous f
         then vals' !! i = Some v
         else exists v', bindField ds (column_of f) (sf_Type f) v = Returned v'
                         /\ vals' !! i = Some v'.
Proof.
  cbn [toStructUniqResult]. intros Hrun.
  destruct (bind_fields ds fields vals) as [vals'|] eqn:Hbind; [|discriminate].
  cbn [mbind outcome_bind mret outcome_ret] in Hrun. injection Hrun as <-.
  exists vals'. split; [done|]. by apply bind_fields_by_position.
Qed.

Lemma bound_twice_inv (ds : DataSet) (t : GoType) (e : GoValue) :
  bound_twice ds t = Returned e ->
  exists once, toStructUniqResult ds t (Some (zero t)) = Returned once
               /\ toStructUniqResult ds t (Some once) = Returned e.
Proof.
  unfold bound_twice.
  destruct (toStructUniqResult ds t (Some (zero t))) as [once|]; [|done].
  intros Htwice. by exists once.
Qed.

Lemma toStructList_loop_rows (ds : DataSet) (t : GoType) (elem : nat -> GoValue) :
  Rows ds <> [] ->
  Count ds < 2 ^ 63 - 1 ->
  (forall i, (i < length (Rows ds))%nat -> bound_twice (on_row ds i) t = Returned (elem i)) ->
  forall (m k fuel : nat) (elems : list GoValue),
    (k + m = length (Rows ds))%nat -> (m < fuel)%nat ->
    toStructList_loop fuel (on_row ds k) t true elems
    = Some (Returned (on_row ds (length (Rows ds)), (elems ++ map elem (seq k m))%list)).
Proof.
  intros Hne Hmax Helem m.
  induction m as [|m IH]; intros k fuel elems Hk Hfuel.
  - destruct fuel as [|fuel]; [lia|]. cbn [toStructList_loop].
    rewrite Eof_on_row by done. rewrite bool_decide_true by lia.
    cbn [seq map]. rewrite app_nil_r. by replace k with (length (Rows ds)) by lia.
  - destruct fuel as [|fuel]; [lia|]. cbn [toStructList_loop].
    rewrite Eof_on_row by done. rewrite bool_decide_false by lia.
    destruct (bound_twice_inv _ _ _ (Helem k ltac:(lia))) as (once & -> & ->).
    rewrite Next_on_row by (done || lia).
    rewrite (IH (S k) fuel) by lia.
    cbn [seq map]. by rewrite <- app_assoc.
Qed.

(** X20.  [ToStruct] into a pointer to a slice appends one element for
    every row and leaves the cursor past the last row: edition 2 starts from
    the first row whatever the cursor was, edition 1 from the row the cursor
    stands on.  The elements the slice already held stay in front. *)
Theorem ToStruct_appends_one_element_per_row
        (ds : DataSet) (t : GoType) (elem : nat -> GoValue) (old : list GoValue)
        (k : nat) :
  Rows ds <> [] ->
  Count ds < 2 ^ 63 - 1 ->
  (k <= length (Rows ds))%nat ->
  (forall i, (i < length (Rows ds))%nat -> bound_twice (on_row ds i) t = Returned (elem i)) ->
  let n := length (Rows ds) in
  let target elems := boxed (TPointer (TSlice t)) (GPointer (Some (GSlice elems))) in
  V2.ToStruct (S n) (on_row ds k) (target old)
  = Some (Returned (None, on_row ds n, target (old ++ map elem (seq 0 n))%list))
  /\ V1.ToStruct (S n) (on_row ds k) (target old)
     = Some (Returned (None, on_row ds n, target (old ++ map elem (seq k (n - k)))%list)).
Proof.
  intros Hne Hmax Hk Helem n target. subst n target.
  unfold V2.ToStruct, V1.ToStruct, ToStruct_of.
  cbn [Kind_of Elem toStructList].
  assert (Hfirst : First (on_row ds k) = on_row ds O).
  { unfold First, on_row. rewrite Count_with_cursor, with_cursor_twice.
    pose proof (Count_pos ds Hne).
    by replace (0 <? Count ds) with true by (symmetry; apply Z.ltb_lt; lia). }
  rewrite Hfirst. split.
  - by rewrite (toStructList_loop_rows ds t elem Hne Hmax Helem (length (Rows ds)) O)
      by lia.
  - by rewrite (toStructList_loop_rows ds t elem Hne Hmax Helem (length (Rows ds) - k) k)
      by lia.
Qed.

(** X21.  [ToStruct] never fills an array: into a pointer to an array it
    panics as soon as there is a row to bind, in edition 2 whenever the
    DataSet has rows, in edition 1 whenever the cursor is not at [Eof];
    with no row to bind it returns no error and leaves the array as it
    is. *)
Theorem ToStruct_into_an_array_panics
        (second : bool) (fuel : nat) (ds : DataSet) (len : nat) (t : GoType)
        (elems : list GoValue) :
  let start := if second then First ds else ds in
  let target := boxed (TPointer (TArray len t)) (GPointer (Some (GArray elems))) in
  (Eof start = false ->
   exists msg, ToStruct_of second (S fuel) ds target = Some (Panicked msg))
  /\ (Eof start = true ->
      ToStruct_of second (S fuel) ds target = Some (Returned (None, start, target))).
Proof.
  intros start target. subst start target. unfold ToStruct_of.
  cbn [Kind_of Elem toStructList toStructList_loop]. split; intros ->.
  - destruct (toStructUniqResult _ t (Some (zero t))) as [once|]; [|by eexists].
    destruct (toStructUniqResult _ t (Some once)); by eexists.
  - reflexivity.
Qed.

End BindingProperties.

Section BindingExamples.
#[local] Existing Instances Sample.helpers Sample.binder.

Lemma toStructUniqResult_binds_by_position_witness :
  exists vals' : list GoValue,
    GStruct [GScalar (VInt 7); GStruct []; GSlice []] = GStruct vals'
    /\ length vals' = 3%nat
    /\ forall (i : nat) (f : StructField) (v : GoValue),
         [("Id", "CODE", false, TBasic BInt "int");
          ("Base", "", true, TStruct "Base" []);
          ("Tags", "", false, TSlice (TBasic BString "string"))] !! i = Some f ->
         [GScalar (VInt 0); GStruct []; GSlice []] !! i = Some v ->
         if is_sequence (sf_Type f) || sf_Anonymous f
         then vals' !! i = Some v
         else exists v', bindField Sample.master (column_of f) (sf_Type f) v = Returned v'
                         /\ vals' !! i = Some v'.
Proof.
  apply (toStructUniqResult_binds_by_position Sample.master "Item"
           [("Id", "CODE", false, TBasic BInt "int");
            ("Base", "", true, TStruct "Base" []);
            ("Tags", "", false, TSlice (TBasic BString "string"))]
           [GScalar (VInt 0); GStruct []; GSlice []]).
  reflexivity.
Defined.

Lemma ToStruct_appends_one_element_per_row_witness :
  let item code := GStruct [GScalar (VInt code); GStruct []; GSlice []] in
  let target elems :=
    boxed (TPointer (TSlice Sample2.code_struct)) (GPointer (Some (GSlice elems))) in
  V2.ToStruct 4 (on_row Sample2.three_rows 1) (target [item 1])
  = Some (Returned (None, on_row Sample2.three_rows 3,
                    target [item 1; item 7; item 9; item 9]))
  /\ V1.ToStruct 4 (on_row Sample2.three_rows 1) (target [item 1])
     = Some (Returned (None, on_row Sample2.three_rows 3, target [item 1; item 9; item 9])).
Proof.
  intros item target.
  apply (ToStruct_appends_one_element_per_row Sample2.three_rows Sample2.code_struct
           (fun i => item (if i is O then 7 else 9)) [item 1] 1).
  - discriminate.
  - reflexivity.
  - simpl. lia.
  - intros [|[|[|i]]] Hi; [reflexivity..|simpl in Hi; lia].
Defined.

End BindingExamples.

(** ** Rows *)

Lemma upper_byte_ascii (c : ascii) :
  (nat_of_ascii c <? 128)%nat = true -> (nat_of_ascii (upper_byte c) <? 128)%nat = true.
Proof.
  intros Hc. unfold upper_byte.
  destruct ((97 <=? nat_of_ascii c) && (nat_of_ascii c <=? 122))%nat eqn:Hlow; [|done].
  apply andb_true_iff in Hlow as [Hlo Hhi].
  apply Nat.leb_le in Hlo, Hhi. apply Nat.ltb_lt.
  rewrite nat_ascii_embedding; lia.
Qed.

Lemma ToUpper_ascii_only (s : string) :
  ascii_only s = true -> ascii_only (ToUpper s) = true.
Proof.
  induction s as [|c s IH]; [done|]. cbn [ascii_only ToUpper].
  intros [Hc Hs]%andb_true_iff. by rewrite upper_byte_ascii, IH.
Qed.

Lemma fold_insert_other (key : string) (l : list (string * ScanKind * value)) :
  forall m : Row,
    Forall (fun cv => ToUpper (fst (fst cv)) <> key) l ->
    foldl (fun row cv => <[ToUpper (fst (fst cv)) := {| Value := snd cv |}]> row) m l !! key
    = m !! key.
Proof.
  induction l as [|cv l IH]; intros m Hall; [done|].
  apply Forall_cons in Hall as [Hcv Hl]. cbn [foldl].
  rewrite IH by done. by apply lookup_insert_ne.
Qed.

Lemma fold_insert_domain (key : string) (l : list (string * ScanKind * value)) :
  forall m : Row,
    is_Some (foldl (fun row cv => <[ToUpper (fst (fst cv)) := {| Value := snd cv |}]> row)
                   m l !! key) ->
    is_Some (m !! key) \/ exists cv, cv ∈ l /\ ToUpper (fst (fst cv)) = key.
Proof.
  induction l as [|cv l IH]; intros m Hsome; [by left|].
  cbn [foldl] in Hsome. destruct (IH _ Hsome) as [Hm | (cv' & Hin & Hkey)].
  - destruct (decide (ToUpper (fst (fst cv)) = key)) as [Heq|Hne].
    + right. exists cv. split; [apply elem_of_cons; by left | done].
    + left. unfold Row in *. by rewrite lookup_insert_ne in Hm.
  - right. exists cv'. split; [apply elem_of_cons; by right | done].
Qed.

(** X22.  For column names of ASCII bytes, a scanned row holds each value
    under the upper-cased name of its column, and nothing else: a column is
    read back by that name when no later column has the same name up to the
    case of its letters, a later column of the same name overwriting an
    earlier one. *)
Theorem row_of_keeps_the_last_column_of_a_name
        (columns : list (string * ScanKind)) (record : list value) :
  Forall (fun column => ascii_only (fst column) = true) columns ->
  (forall (i : nat) (name : string) (k : ScanKind) (v : value),
      columns !! i = Some (name, k) ->
      record !! i = Some v ->
      (forall (j : nat) (name' : string) (k' : ScanKind),
          (i < j < length record)%nat -> columns !! j = Some (name', k') ->
          ToUpper name' <> ToUpper name) ->
      row_of columns record !! ToUpper name = Some {| Value := v |})
  /\ (forall key : string,
         is_Some (row_of columns record !! key) ->
         exists (i : nat) (name : string) (k : ScanKind),
           columns !! i = Some (name, k) /\ (i < length record)%nat
           /\ key = ToUpper name /\ ascii_only key = true).
Proof.
  intros Hascii. unfold row_of. split.
  - intros i name k v Hcol Hval Hlast.
    assert (Hzip : zip columns record !! i = Some ((name, k), v))
      by (by apply lookup_zip_Some).
    rewrite <- (take_drop_middle _ _ _ Hzip), foldl_app. cbn [foldl].
    rewrite fold_insert_other; [by apply lookup_insert_eq|].
    apply Forall_forall. intros [[name' k'] v'] Hin. cbn [fst].
    apply list_elem_of_lookup_1 in Hin as [j Hj].
    rewrite lookup_drop in Hj. apply lookup_zip_Some in Hj as [Hc Hr].
    apply lookup_lt_Some in Hr as Hlt.
    apply (Hlast (S i + j)%nat name' k'); [lia | done].
  - intros key Hsome.
    apply fold_insert_domain in Hsome as [Hempty | ([[name k] v] & Hin & Hkey)].
    + destruct Hempty as [x Hx]. by apply lookup_empty_Some in Hx.
    + apply list_elem_of_lookup_1 in Hin as [i Hi].
      apply lookup_zip_Some in Hi as [Hc Hr]. apply lookup_lt_Some in Hr.
      exists i, name, k. cbn [fst] in Hkey. repeat split; [done..|].
      rewrite <- Hkey. apply ToUpper_ascii_only.
      by apply (Forall_lookup_1 _ _ _ _ Hascii Hc).
Qed.

Lemma row_of_keeps_the_last_column_of_a_name_witness :
  let columns := [("id", ScanInt64); ("name", ScanString); ("ID", ScanInt64)] in
  let record := [VInt 1; VString "one"; VInt 2] in
  row_of columns record !! "ID" = Some {| Value := VInt 2 |}
  /\ row_of columns record !! "NAME" = Some {| Value := VString "one" |}.
Proof.
  intros columns record.
  destruct (row_of_keeps_the_last_column_of_a_name columns record) as [Hread _].
  - by repeat constructor.
  - split.
    + apply (Hread 2%nat "ID" ScanInt64 (VInt 2)); [reflexivity..|].
      intros j name' k' Hj. simpl in Hj. lia.
    + apply (Hread 1%nat "name" ScanString (VString "one")); [reflexivity..|].
      intros [|[|[|j]]] name' k' Hj Hcol; simpl in Hj; try lia.
      injection Hcol as <- _. discriminate.
Defined.

(** ** Placeholder translation: a second pass *)

Lemma has_byte_app (c : ascii) (x y : string) :
  has_byte c (x +:+ y) = has_byte c x || has_byte c y.
Proof.
  induction x as [|d x IH]; [by rewrite str_app_nil_l|].
  rewrite str_app_cons. cbn [has_byte]. rewrite IH. by rewrite orb_assoc.
Qed.

Lemma HasPrefix_app_l (s t p : string) :
  HasPrefix s p = true -> HasPrefix (s +:+ t) p = true.
Proof.
  intros Hp. destruct (HasPrefix_split _ _ Hp) as [rest ->].
  rewrite str_app_assoc. apply HasPrefix_app.
Qed.

Lemma occurs_head (p s : string) (c : ascii) :
  occurs p (String c s) -> HasPrefix (String c s) p = true \/ occurs p s.
Proof.
  intros (before & after & Heq). destruct before as [|b before].
  - left. rewrite str_app_nil_l in Heq. rewrite Heq. apply HasPrefix_app.
  - right. rewrite str_app_cons in Heq. injection Heq as _ ->. by exists before, after.
Qed.

(** An occurrence in [x +:+ z] starts within [x] or lies within [z]. *)
Lemma occurs_app (p z : string) :
  forall x : string,
    occurs p (x +:+ z) ->
    (exists x1 x2, x = x1 +:+ x2 /\ x2 <> "" /\ HasPrefix (x2 +:+ z) p = true)
    \/ occurs p z.
Proof.
  induction x as [|c x IH]; intros Hocc.
  - right. by rewrite str_app_nil_l in Hocc.
  - rewrite str_app_cons in Hocc. apply occurs_head in Hocc as [Hp|Hocc].
    + left. exists "", (String c x). rewrite str_app_nil_l, str_app_cons. done.
    + destruct (IH Hocc) as [(x1 & x2 & -> & Hne & Hp)|Hz]; [|by right].
      left. exists (String c x1), x2. by rewrite str_app_cons.
Qed.

(** Two ways to cut one text. *)
Lemma str_app_eq_app (u v : string) :
  forall x1 x2 : string,
    u +:+ v = x1 +:+ x2 ->
    (exists m, u = x1 +:+ m /\ x2 = m +:+ v)
    \/ (exists m, m <> "" /\ x1 = u +:+ m /\ v = m +:+ x2).
Proof.
  induction u as [|c u IH]; intros x1 x2 Heq.
  - rewrite str_app_nil_l in Heq. destruct x1 as [|d x1].
    + left. exists "". by rewrite !str_app_nil_l in *.
    + right. exists (String d x1). by rewrite str_app_nil_l.
  - destruct x1 as [|d x1].
    + left. exists (String c u). by rewrite !str_app_nil_l in *.
    + rewrite !str_app_cons in Heq. injection Heq as -> Heq.
      destruct (IH _ _ Heq) as [(m & -> & ->)|(m & Hm & -> & ->)].
      * left. exists m. by rewrite str_app_cons.
      * right. exists m. by rewrite str_app_cons.
Qed.

Lemma digits_have_no_colon (d : Decimal.uint) :
  has_byte ":" (NilEmpty.string_of_uint d) = false.
Proof. induction d; cbn [NilEmpty.string_of_uint has_byte]; by rewrite ?IHd. Qed.

Lemma Sprintf_d_has_no_colon (n : Z) : has_byte ":" (Sprintf_d n) = false.
Proof.
  unfold Sprintf_d, NilZero.string_of_int, NilZero.string_of_uint.
  destruct (Z.to_int n) as [d|d]; destruct d; cbn [has_byte Ascii.eqb Bool.eqb orb];
    try reflexivity; apply digits_have_no_colon.
Qed.

Lemma word_has_no_byte (c : ascii) (name : string) :
  is_word c = false -> all_word name = true -> has_byte c name = false.
Proof.
  intros Hc. induction name as [|d name IH]; intros Hname; [reflexivity|].
  cbn [all_word has_byte] in *. apply andb_true_iff in Hname as [Hd Hname].
  rewrite (IH Hname), orb_false_r.
  destruct (Ascii.eqb_spec c d) as [->|]; [congruence | done].
Qed.

Section SecondPass.
Variables (name : string) (paramNumber : Z).
Hypothesis name_is_word : all_word name = true.

Lemma name_has_no_colon : has_byte ":" name = false.
Proof. by apply word_has_no_byte. Qed.

Lemma translate_one_absent (s : string) :
  ~ occurs (":" +:+ name) s -> translate_one name paramNumber s = s.
Proof. intros Hno. unfold translate_one. by rewrite replaceParamPG_run_absent. Qed.

Lemma translate_one_token (before after : string) :
  ~ occurs (":" +:+ name) before ->
  translate_one name paramNumber (before +:+ (":" +:+ name) +:+ after)
  = before
    +:+ (if token_ends after then "$" +:+ Sprintf_d paramNumber else ":" +:+ name)
    +:+ translate_one name paramNumber after.
Proof. intros Hno. apply replaceParamPG_run_token; [apply name_has_no_colon | done]. Qed.

Lemma occurs_or_not (s : string) :
  ~ occurs (":" +:+ name) s
  \/ exists before after,
       s = before +:+ (":" +:+ name) +:+ after /\ ~ occurs (":" +:+ name) before.
Proof.
  destruct (index_of s (":" +:+ name)) as [k|] eqn:Hk.
  - right. by apply (index_of_split (":" +:+ name) ltac:(done) s k).
  - left. intros Hocc. by apply occurs_index_of in Hocc.
Qed.

(** What follows an occurrence lets it count, or not, before and after the
    translation alike. *)
Lemma token_ends_translate_one (a : string) :
  token_ends (translate_one name paramNumber a) = token_ends a.
Proof.
  destruct (occurs_or_not a) as [Hno|(before & after & -> & Hno)].
  - by rewrite translate_one_absent.
  - rewrite translate_one_token by done.
    destruct before as [|c before]; [|reflexivity].
    rewrite !str_app_nil_l. by destruct (token_ends after).
Qed.

(** A prefix in which no occurrence starts passes the translation as it
    is. *)
Lemma translate_one_prefix (x y : string) :
  (forall x1 x2, x = x1 +:+ x2 -> x2 <> "" -> HasPrefix (x2 +:+ y) (":" +:+ name) = false) ->
  translate_one name paramNumber (x +:+ y) = x +:+ translate_one name paramNumber y.
Proof.
  intros Hx.
  destruct (occurs_or_not y) as [Hno|(y1 & y2 & -> & Hno)].
  - rewrite (translate_one_absent y Hno). apply translate_one_absent.
    intros Hocc. apply occurs_app in Hocc as [(x1 & x2 & Heq & Hne & Hp)|Hocc]; [|done].
    by rewrite (Hx x1 x2 Heq Hne) in Hp.
  - rewrite translate_one_token by done.
    rewrite <- str_app_assoc, translate_one_token; [by rewrite str_app_assoc|].
    intros Hocc. apply occurs_app in Hocc as [(x1 & x2 & Heq & Hne & Hp)|Hocc]; [|done].
    apply (HasPrefix_app_l _ ((":" +:+ name) +:+ y2)) in Hp.
    rewrite str_app_assoc in Hp. by rewrite (Hx x1 x2 Heq Hne) in Hp.
Qed.

Lemma no_occurrence_starts_in_placeholder (before y : string) :
  ~ occurs (":" +:+ name) before ->
  forall x1 x2,
    before +:+ "$" +:+ Sprintf_d paramNumber = x1 +:+ x2 -> x2 <> "" ->
    HasPrefix (x2 +:+ y) (":" +:+ name) = false.
Proof.
  intros Hno x1 x2 Heq Hne.
  destruct (HasPrefix (x2 +:+ y) (":" +:+ name)) eqn:Hp; [exfalso|done].
  apply str_app_eq_app in Heq as [(m & -> & ->)|(m & Hm & -> & Heq)].
  - apply Hno. rewrite !str_app_assoc in Hp.
    change ("$" +:+ Sprintf_d paramNumber +:+ y)
      with (String "$" (Sprintf_d paramNumber +:+ y)) in Hp.
    apply name_before_byte in Hp.
    + destruct (HasPrefix_split _ _ Hp) as [rest ->]. by exists x1, rest.
    + change (":" +:+ name) with (String ":" name). cbn [has_byte].
      rewrite (word_has_no_byte "$" name); done.
  - change ("$" +:+ Sprintf_d paramNumber) with (String "$" (Sprintf_d paramNumber)) in Heq.
    destruct m as [|c m]; [done|]. rewrite str_app_cons in Heq. injection Heq as _ Heq.
    pose proof (Sprintf_d_has_no_colon paramNumber) as Hd.
    rewrite Heq, has_byte_app in Hd. apply orb_false_iff in Hd as [_ Hd].
    destruct x2 as [|d x2]; [done|].
    rewrite str_app_cons in Hp. change (":" +:+ name) with (String ":" name) in Hp.
    cbn [HasPrefix has_byte] in *.
    apply orb_false_iff in Hd as [Hd _]. by rewrite Hd in Hp.
Qed.

Lemma translate_one_twice_by_length (n : nat) :
  forall s : string,
    (String.length s < n)%nat ->
    translate_one name paramNumber (translate_one name paramNumber s)
    = translate_one name paramNumber s.
Proof.
  induction n as [|n IH]; intros s Hlen; [lia|].
  destruct (occurs_or_not s) as [Hno|(before & after & -> & Hno)].
  - by rewrite !(translate_one_absent s Hno).
  - assert (Hafter : translate_one name paramNumber (translate_one name paramNumber after)
                     = translate_one name paramNumber after).
    { apply IH. rewrite !str_length_app in Hlen. simpl in Hlen. lia. }
    rewrite translate_one_token by done.
    destruct (token_ends after) eqn:Hends.
    + rewrite <- (str_app_assoc before).
      rewrite translate_one_prefix; [by rewrite Hafter|].
      intros x1 x2 Heq Hne.
      by apply (no_occurrence_starts_in_placeholder before _ Hno x1 x2).
    + rewrite translate_one_token by done.
      by rewrite token_ends_translate_one, Hends, Hafter.
Qed.

End SecondPass.

(** X23.  Translating the tokens of one parameter is idempotent: for a
    name made of letters, digits and underscores, a second pass of
    [replaceParamPG] with the same parameter and number over the text the
    first pass returned changes nothing, as in [GetSqlMasterDetail], which
    translates the text [GetSql] has translated already. *)
Theorem replaceParamPG_second_pass_changes_nothing
        (name : string) (paramNumber : Z) (sql : string) :
  all_word name = true ->
  translate_one name paramNumber (translate_one name paramNumber sql)
  = translate_one name paramNumber sql.
Proof.
  intros Hname.
  apply (translate_one_twice_by_length name paramNumber Hname (S (String.length sql))).
  lia.
Qed.

Lemma replaceParamPG_second_pass_changes_nothing_witness :
  translate_one "id" 1 (translate_one "id" 1 "a = :id and b = :idx or c in (:id)")
  = translate_one "id" 1 "a = :id and b = :idx or c in (:id)".
Proof.
  apply (replaceParamPG_second_pass_changes_nothing "id" 1
           "a = :id and b = :idx or c in (:id)").
  reflexivity.
Defined.

(** ** Exec and Delete *)

Section ExecProperties.
Context `{Helpers} {Server : Type} `{Driver Server} `{ResultDriver Server}.

Lemma log_query1_run (conn : Conn.t) (query : string) (ds : DataSet) (w0 : World Server) :
  V1.log_query conn query ds w0
  = Returned (tt, mkWorld (server w0) (heap w0)
                    (stdout w0 ++ (if Conn.log conn
                                   then query :: PrintParam (Params ds)
                                   else []))%list (trace w0)).
Proof.
  destruct w0 as [sv hp out tr]. unfold V1.log_query, Println, mret, M_ret. simpl.
  destruct (Conn.log conn); [done|]. by rewrite app_nil_r.
Qed.

(** A statement that was prepared is executed once and then closed. *)
Lemma run_prepared_statement (st : StmtId) (ctx : option Context) (args : list NamedArg)
      (w : World Server) (s2 : Server) (e : option error) :
  drv_StmtExec (server w) st ctx args = (s2, e) ->
  run_prepared (Some st, None) ctx args w
  = Returned ((drv_StmtResult (server w) st ctx args, e),
              mkWorld s2 (heap w) (stdout w)
                      (trace w ++ [EvStmtExec st ctx args; EvStmtClose st])%list).
Proof.
  intros Hexec. unfold run_prepared, Stmt_Exec_result, Stmt_Close, mbind, M_bind, emit,
    mret, M_ret.
  rewrite Hexec. cbn [heap stdout server trace]. by rewrite <- app_assoc.
Qed.

(** X24.  In edition 1 [Exec] reads [ds.Connection] before it looks at
    the transaction, so on a DataSet without a connection, as [NewDataSetTx]
    makes it, [Exec] never returns; [ExecContext] does, preparing on the
    transaction with the context and executing without it. *)
Theorem Exec_first_edition_needs_a_connection
        (l : loc) (w : World Server) (ds : DataSet) :
  heap w !! l = Some ds ->
  Connection ds = None ->
  (exists msg, ExecV1.Exec l w = Panicked msg)
  /\ (forall (t : Transaction.t) (context : Context) (s1 s2 : Server) (st : StmtId)
             (e : option error),
         Tx ds = Some t ->
         drv_Prepare (server w) (OnTx (Transaction.tx t)) (Some context) (V1.GetSql ds)
         = (s1, (Some st, None)) ->
         drv_StmtExec s1 st None (GetParams ds) = (s2, e) ->
         ExecV1.ExecContext l context w
         = Returned
             ((drv_StmtResult s1 st None (GetParams ds), e),
              mkWorld s2 (heap w) (stdout w)
                      (trace w
                       ++ [EvPrepare (OnTx (Transaction.tx t)) (Some context) (V1.GetSql ds);
                           EvStmtExec st None (GetParams ds); EvStmtClose st])%list)).
Proof.
  intros Hl Hconn. split.
  - unfold ExecV1.Exec. unfold mbind at 1, M_bind at 1, get_ds at 1. rewrite Hl.
    unfold mbind at 1, M_bind at 1. rewrite Hconn. by eexists.
  - intros t context s1 s2 st e Htx Hprep Hexec.
    unfold ExecV1.ExecContext. unfold mbind at 1, M_bind at 1, get_ds at 1. rewrite Hl.
    rewrite Hconn, Htx.
    unfold mbind at 1, M_bind at 1, mret at 1, M_ret at 1.
    unfold mbind at 1, M_bind at 1, Prepare_stmt at 1. rewrite Hprep.
    rewrite (run_prepared_statement st None _ _ s2 e) by done.
    unfold emit. cbn [heap stdout server trace]. by rewrite <- app_assoc.
Qed.

(** X25.  Edition 2's [ExecContext] closes the statement exactly when it
    was prepared: a failed [PrepareContext] is returned at once, with
    nothing executed and nothing closed; after a successful one the
    statement is executed once with the context and then closed, whether or
    not the execution failed.  The SQL is that of [GetSql], without the
    master-detail wrapper. *)
Theorem ExecContext_closes_what_it_prepared
        (l : loc) (context : Context) (w : World Server) (ds : DataSet)
        (target : Target) (conn : Conn.t) (vsql : string) :
  heap w !! l = Some ds ->
  open_route ds target conn ->
  V2.GetSql ds = Returned vsql ->
  let logged := if Conn.log conn then vsql :: PrintParam (Params ds) else [] in
  (forall (s1 : Server) (stmt : option StmtId) (e : error),
      drv_Prepare (server w) target (Some context) vsql = (s1, (stmt, Some e)) ->
      ExecV2.ExecContext l context w
      = Returned ((None, Some e),
                  mkWorld s1 (heap w) (stdout w ++ logged)%list
                          (trace w ++ [EvPrepare target (Some context) vsql])%list))
  /\ (forall (s1 s2 : Server) (st : StmtId) (e : option error),
         drv_Prepare (server w) target (Some context) vsql = (s1, (Some st, None)) ->
         drv_StmtExec s1 st (Some context) (GetParams ds) = (s2, e) ->
         ExecV2.ExecContext l context w
         = Returned
             ((drv_StmtResult s1 st (Some context) (GetParams ds), e),
              mkWorld s2 (heap w) (stdout w ++ logged)%list
                      (trace w
                       ++ [EvPrepare target (Some context) vsql;
                           EvStmtExec st (Some context) (GetParams ds);
                           EvStmtClose st])%list)).
Proof.
  intros Hl Hroute Hsql logged. subst logged.
  assert (Hprefix :
            ExecV2.ExecContext l context w
            = let '(s1, r) := drv_Prepare (server w) target (Some context) vsql in
              run_prepared r (Some context) (GetParams ds)
                (mkWorld s1 (heap w)
                         (stdout w ++ (if Conn.log conn
                                       then vsql :: PrintParam (Params ds)
                                       else []))%list
                         (trace w ++ [EvPrepare target (Some context) vsql])%list)).
  { unfold ExecV2.ExecContext.
    unfold mbind at 1, M_bind at 1, get_ds at 1. rewrite Hl.
    unfold mbind at 1, M_bind at 1, lift at 1. rewrite Hsql.
    unfold open_route in Hroute.
    destruct (Tx ds) as [t|]; destruct Hroute as [Hconn ->];
      unfold mbind at 1, M_bind at 1; rewrite Hconn;
      unfold mbind at 1, M_bind at 1, deref at 1, mret at 1, M_ret at 1;
      unfold mbind at 1, M_bind at 1; rewrite log_query2_run;
      unfold Prepare_stmt, emit; cbn [heap stdout server trace];
      by destruct (drv_Prepare _ _ _ _) as [s1 r]. }
  rewrite Hprefix. split.
  - intros s1 stmt e Hprep. by rewrite Hprep.
  - intros s1 s2 st e Hprep Hexec. rewrite Hprep.
    rewrite (run_prepared_statement st (Some context) _ _ s2 e) by done.
    cbn [heap stdout server trace]. by rewrite <- app_assoc.
Qed.

Lemma rows_affected_error (r : option SqlResult * option error) (n : Z) (e : error) :
  rows_affected r = Returned (n, Some e) -> n = 0.
Proof.
  unfold rows_affected. destruct r as [[res|] [e'|]]; try congruence.
  destruct (RowsAffected_error res); congruence.
Qed.

(** X26.  [Delete] and [DeleteContext] never report affected rows
    together with an error: whenever they return an error, from preparing,
    from executing or from [RowsAffected], the count they return is 0. *)
Theorem Delete_reports_no_rows_with_an_error
        (l : loc) (context : Context) (w w' : World Server) (n : Z) (e : error) :
  (ExecV1.Delete l w = Returned ((n, Some e), w') -> n = 0)
  /\ (ExecV1.DeleteContext l context w = Returned ((n, Some e), w') -> n = 0)
  /\ (ExecV2.DeleteContext l context w = Returned ((n, Some e), w') -> n = 0).
Proof.
  assert (Htail : forall (m : M Server (option SqlResult * option error)),
             (r ← m; lift (rows_affected r)) w = Returned ((n, Some e), w') -> n = 0).
  { intros m Hrun. unfold mbind, M_bind in Hrun.
    destruct (m w) as [[r w1]|]; [|discriminate].
    unfold lift in Hrun. destruct (rows_affected r) as [[n' e']|] eqn:Hr; [|discriminate].
    injection Hrun as -> -> _. by eapply rows_affected_error. }
  repeat split; apply Htail.
Qed.

End ExecProperties.

Section ExecExamples.
#[local] Existing Instances Sample.helpers Sample.scripted Sample2.one_row_affected.

Lemma Exec_first_edition_needs_a_connection_witness :
  let ds := V1.NewDataSetTx (Some 5%nat) in
  let w := Sample.world Sample.all_succeed {[ 0%nat := ds ]} in
  (exists msg, ExecV1.Exec 0%nat w = Panicked msg)
  /\ ExecV1.ExecContext 0%nat 3%nat w
     = Returned ((Some (mkSqlResult 1 None), None),
                 mkWorld Sample.all_succeed {[ 0%nat := ds ]} []
                         [EvPrepare (OnTx 5%nat) (Some 3%nat) "";
                          EvStmtExec O None []; EvStmtClose O]).
Proof.
  intros ds w.
  destruct (Exec_first_edition_needs_a_connection 0%nat w ds) as [Hexec Hctx];
    [reflexivity | reflexivity |].
  split; [exact Hexec|].
  apply (Hctx (Transaction.mk 5%nat None) 3%nat Sample.all_succeed Sample.all_succeed O None);
    reflexivity.
Defined.

Lemma ExecContext_closes_what_it_prepared_witness :
  ExecV2.ExecContext 1%nat 3%nat (Sample.world Sample2.prepare_fails Sample.heap_with_master)
  = Returned ((None, Some (DriverError "syntax error")),
              mkWorld Sample.all_succeed Sample.heap_with_master []
                      [EvPrepare (OnDB O) (Some 3%nat) "select CODE from m"])
  /\ ExecV2.ExecContext 1%nat 3%nat (Sample.world Sample.all_succeed Sample.heap_with_master)
     = Returned ((Some (mkSqlResult 1 None), None),
                 mkWorld Sample.all_succeed Sample.heap_with_master []
                         [EvPrepare (OnDB O) (Some 3%nat) "select CODE from m";
                          EvStmtExec O (Some 3%nat) []; EvStmtClose O]).
Proof.
  split.
  - destruct (ExecContext_closes_what_it_prepared 1%nat 3%nat
                (Sample.world Sample2.prepare_fails Sample.heap_with_master)
                Sample.master (OnDB O) Sample.oracle "select CODE from m")
      as [Hfail _]; [reflexivity | split; reflexivity | reflexivity |].
    apply (Hfail Sample.all_succeed None (DriverError "syntax error")). reflexivity.
  - destruct (ExecContext_closes_what_it_prepared 1%nat 3%nat
                (Sample.world Sample.all_succeed Sample.heap_with_master)
                Sample.master (OnDB O) Sample.oracle "select CODE from m")
      as [_ Hok]; [reflexivity | split; reflexivity | reflexivity |].
    apply (Hok Sample.all_succeed Sample.all_succeed O None); reflexivity.
Defined.

End ExecExamples.

(** ** The calls of Open *)

(** X27.  However the queries, the ping and the reconnection turn out,
    a call of edition 2's [Open] that returns has only added calls to the
    trace, among them at most two queries and at most one reopening of the
    connection. *)
Theorem Open_sends_at_most_two_queries `{Helpers} {Server : Type} `{Driver Server}
        (l : loc) (w w' : World Server) (r : option error) :
  V2.Open l w = Returned (r, w') ->
  exists evs : list Event,
    trace w' = (trace w ++ evs)%list
    /\ (count_events is_query evs <= 2)%nat
    /\ (count_events is_reconnect evs <= 1)%nat.
Proof. apply Open_calls_within. Qed.

Section OpenCallsExample.
#[local] Existing Instances Sample.helpers Sample.scripted.

Lemma Open_sends_at_most_two_queries_witness :
  exists evs : list Event,
    [EvQuery (OnDB O) None "select CODE from m" []; EvPing O None; EvOpen O;
     EvQuery (OnDB O) None "select CODE from m" []; EvRowsClose]
    = ([] ++ evs)%list
    /\ (count_events is_query evs <= 2)%nat
    /\ (count_events is_reconnect evs <= 1)%nat.
Proof.
  apply (Open_sends_at_most_two_queries 1%nat
           (Sample.world Sample.server_restarted Sample.heap_with_master)
           (mkWorld Sample.all_succeed
                    (<[1%nat:=First (reset_rows Sample.master)]>
                       (<[1%nat:=reset_rows Sample.master]>
                          (<[1%nat:=reset_rows Sample.master]> Sample.heap_with_master)))
                    []
                    [EvQuery (OnDB O) None "select CODE from m" []; EvPing O None; EvOpen O;
                     EvQuery (OnDB O) None "select CODE from m" []; EvRowsClose])
           None).
  vm_compute. reflexivity.
Defined.

End OpenCallsExample.

(** ** Scanning in edition 1 *)

Lemma scan_first_edition_frame `{Helpers} (rs : RowSet) (records : list (list value)) :
  forall ds0 : DataSet,
    let ds' :=
      foldl (fun ds1 record =>
               with_Rows
                 (with_Fields ds1 (V1.scan_record_fields O (Columns rs) (Fields ds1)))
                 (Rows ds1 ++ [row_of (Columns rs) record])%list)
            ds0 records in
    Rows ds' = (Rows ds0 ++ map (row_of (Columns rs)) records)%list
    /\ Params ds' = Params ds0 /\ Sql ds' = Sql ds0
    /\ Index ds' = Index ds0 /\ Recno ds' = Recno ds0.
Proof.
  induction records as [|record records IH]; intros ds0; cbn [foldl map].
  - by rewrite app_nil_r.
  - destruct (IH (with_Rows
                    (with_Fields ds0 (V1.scan_record_fields O (Columns rs) (Fields ds0)))
                    (Rows ds0 ++ [row_of (Columns rs) record])%list))
      as (Hrows & Hparams & Hsql & Hindex & Hrecno).
    cbv zeta in *. rewrite Hrows, Hparams, Hsql, Hindex, Hrecno.
    cbn [Rows Params Sql Index Recno with_Rows with_Fields].
    by rewrite <- app_assoc.
Qed.

(** X28.  Edition 1's [scan] appends one row per record of the answer,
    in order, after the rows already there, and runs its field loop once per
    record: on an answer without records it returns the DataSet as it is, so
    no field is added or typed. *)
Theorem scan_first_edition_appends_a_row_per_record `{Helpers}
        (ds : DataSet) (rs : RowSet) :
  Rows (V1.scan ds rs) = (Rows ds ++ map (row_of (Columns rs)) (Records rs))%list
  /\ Count (V1.scan ds rs) = Count ds + Z.of_nat (length (Records rs))
  /\ (Records rs = [] -> V1.scan ds rs = ds)
  /\ (Params (V1.scan ds rs) = Params ds /\ Sql (V1.scan ds rs) = Sql ds
      /\ Index (V1.scan ds rs) = Index ds /\ Recno (V1.scan ds rs) = Recno ds).
Proof.
  unfold V1.scan.
  destruct (scan_first_edition_frame rs (Records rs) ds)
    as (Hrows & Hparams & Hsql & Hindex & Hrecno).
  cbv zeta in *. repeat split; try done.
  - unfold Count. rewrite Hrows, length_app, length_map. lia.
  - intros ->. reflexivity.
Qed.

Section OpenFirstEdition.
Context `{Helpers} {Server : Type} `{Driver Server}.

(** X30.  A successful [Open] or [OpenContext] of edition 1 sends its
    one query on the database handle of the connection, also when a
    transaction is bound, and replaces the rows: afterwards the DataSet
    holds one row per record of the answer, in order, with the cursor on the
    first row ([Recno] 0 when there is none); the fields are first created
    from the SQL when the DataSet has none. *)
Theorem Open_first_edition_loads_every_record
        (ctx : option Context) (l : loc) (w : World Server) (ds0 ds1 : DataSet)
        (conn : Conn.t) (sql : string) (lines : list string)
        (s2 : Server) (rs : RowSet) :
  let prepared :=
    if (length (Fields (reset_rows ds0)) =? 0)%nat
    then snd (V1.CreateFields (reset_rows ds0))
    else reset_rows ds0 in
  heap w !! l = Some ds0 ->
  Connection ds0 = Some conn ->
  V1.GetSqlMasterDetail (<[l:=prepared]> (heap w)) prepared = Returned (sql, ds1, lines) ->
  drv_Query (server w) (OnDB (Conn.DB conn)) ctx sql (GetParams ds1) = (s2, (Some rs, None)) ->
  exists (w' : World Server) (ds' : DataSet),
    V1.Open_with ctx l w = Returned (None, w')
    /\ heap w' !! l = Some ds'
    /\ Rows ds' = map (row_of (Columns rs)) (Records rs)
    /\ Count ds' = Z.of_nat (length (Records rs))
    /\ Index ds' = 0
    /\ Recno ds' = (if Records rs is [] then 0 else 1)
    /\ trace w'
       = (trace w ++ [EvQuery (OnDB (Conn.DB conn)) ctx sql (GetParams ds1);
                      EvRowsClose])%list.
Proof.
  intros prepared Hl Hconn Hasm Hq.
  assert (Hpconn : Connection prepared = Some conn).
  { subst prepared. destruct (_ =? _)%nat; [|done].
    by rewrite CreateFields_keeps_Connection. }
  assert (Hprows : Rows prepared = []).
  { subst prepared. destruct (_ =? _)%nat; [|done].
    unfold V1.CreateFields. by destruct (SelectExprNames _). }
  destruct (masterDetail_frame1 _ _ _ _ _ Hasm) as [params ->].
  unfold V1.Open_with, V1.GetSqlMasterDetail_at.
  unfold mbind at 1, M_bind at 1, get_ds at 1. rewrite Hl.
  unfold mbind at 1, M_bind at 1, put_ds at 1.
  unfold mbind at 1, M_bind at 1.
  unfold mbind at 1, M_bind at 1, get_ds at 1. cbn [heap].
  rewrite lookup_insert_eq.
  unfold mbind at 1, M_bind at 1, get_heap at 1. cbn [heap].
  unfold mbind at 1, M_bind at 1, lift at 1.
  fold (reset_rows ds0). fold prepared. rewrite Hasm.
  unfold mbind at 1, M_bind at 1, put_ds at 1.
  unfold mbind at 1, M_bind at 1, Println at 1.
  unfold mret at 1, M_ret at 1.
  unfold mbind at 1, M_bind at 1, get_ds at 1. cbn [heap stdout server trace].
  rewrite lookup_insert_eq.
  cbn [Connection with_Params]. rewrite Hpconn.
  unfold mbind at 1, M_bind at 1, deref at 1, mret at 1, M_ret at 1.
  unfold mbind at 1, M_bind at 1.
  rewrite log_query1_run. cbn [heap stdout server trace].
  unfold mbind at 1, M_bind at 1, Query at 1. cbn [heap stdout server trace].
  rewrite Hq. unfold emit. cbn [heap stdout server trace].
  unfold V1.Open_finish.
  unfold mbind, M_bind, get_ds, put_ds, Rows_Close, emit, mret, M_ret.
  cbn [heap stdout server trace]. rewrite lookup_insert_eq.
  eexists _, _. split; [reflexivity|]. cbn [heap trace].
  split; [apply lookup_insert_eq|].
  destruct (scan_first_edition_frame rs (Records rs) (with_Params prepared params))
    as (Hrows & _).
  cbv zeta in Hrows. cbn [Rows with_Params] in Hrows. rewrite Hprows in Hrows.
  cbn [app] in Hrows.
  unfold First, Count, V1.scan.
  cbn [Rows Index Recno with_cursor]. rewrite Hrows, length_map, <- app_assoc.
  repeat split. destruct (Records rs); reflexivity.
Qed.

End OpenFirstEdition.

Section OpenFirstEditionExample.
#[local] Existing Instances Sample.helpers Sample.scripted.

Lemma Open_first_edition_loads_every_record_witness :
  exists (w' : World Sample.Script) (ds' : DataSet),
    V1.Open 1%nat (Sample.world Sample2.answers_two_records
                                {[ 1%nat := Sample2.in_transaction ]})
    = Returned (None, w')
    /\ heap w' !! 1%nat = Some ds'
    /\ Rows ds' = map (row_of (Columns Sample2.two_records)) (Records Sample2.two_records)
    /\ Count ds' = 2
    /\ Index ds' = 0
    /\ Recno ds' = 1
    /\ trace w' = [EvQuery (OnDB O) None "select CODE from m" []; EvRowsClose].
Proof.
  apply (Open_first_edition_loads_every_record None 1%nat
           (Sample.world Sample2.answers_two_records {[ 1%nat := Sample2.in_transaction ]})
           Sample2.in_transaction (reset_rows Sample2.in_transaction) Sample.oracle
           "select CODE from m" [] Sample.all_succeed Sample2.two_records);
    reflexivity.
Defined.

End OpenFirstEditionExample.

(** ** Line breaks in the query Open sends *)

Lemma indent_twice_after_newline_byte (nl : ascii) (n : nat) :
  Ascii.eqb nl " " = false ->
  forall s before after : string,
    (String.length s < n)%nat ->
    (forall b a, s = b +:+ String nl a -> HasPrefix a " " = true) ->
    replace_go O s (String nl "") (String nl " ") = before +:+ String nl after ->
    HasPrefix after "  " = true.
Proof.
  intros Hnl. induction n as [|n IH]; intros s before after Hlen Hs Heq; [lia|].
  destruct s as [|d s]; [destruct before; discriminate|].
  cbn [replace_go HasPrefix String.length Nat.pred] in Heq.
  destruct (Ascii.eqb_spec nl d) as [<-|Hd].
  - pose proof (Hs "" s ltac:(by rewrite str_app_nil_l)) as Hspace.
    destruct s as [|e s]; [discriminate|]. cbn [HasPrefix] in Hspace.
    destruct (Ascii.eqb_spec " " e) as [<-|]; [|discriminate].
    cbn [replace_go HasPrefix] in Heq. rewrite Hnl in Heq.
    rewrite (str_app_cons nl " "), (str_app_cons " " ""), str_app_nil_l in Heq.
    destruct before as [|b before].
    { rewrite str_app_nil_l in Heq. injection Heq as <-. reflexivity. }
    rewrite str_app_cons in Heq. injection Heq as _ Heq.
    destruct before as [|b' before].
    { rewrite str_app_nil_l in Heq. injection Heq as Hbad _.
      rewrite <- Hbad, Ascii.eqb_refl in Hnl. discriminate. }
    rewrite str_app_cons in Heq. injection Heq as _ Heq.
    destruct before as [|b'' before].
    { rewrite str_app_nil_l in Heq. injection Heq as Hbad _.
      rewrite <- Hbad, Ascii.eqb_refl in Hnl. discriminate. }
    rewrite str_app_cons in Heq. injection Heq as _ Heq.
    apply (IH s before after); [simpl in Hlen; lia | | done].
    intros x a ->. apply (Hs (String nl (String " " x)) a). by rewrite !str_app_cons.
  - destruct before as [|b before].
    { rewrite str_app_nil_l in Heq. by injection Heq as <- _. }
    rewrite str_app_cons in Heq. injection Heq as _ Heq.
    apply (IH s before after); [simpl in Hlen; lia | | done].
    intros x a ->. apply (Hs (String d x) a). by rewrite str_app_cons.
Qed.

(** X29.  With no master link attached, edition 1's [GetSqlMasterDetail]
    normalises the text of [GetSql] a second time: it registers no
    parameter and prints nothing, a text without line feed comes out as
    [GetSql] gave it, and otherwise every line feed of the query is followed
    by two spaces. *)
Theorem GetSqlMasterDetail_indents_line_breaks_twice `{Helpers}
        (h : gmap loc DataSet) (ds : DataSet) :
  MasterSource.DataSource (MasterSource ds) = None ->
  exists query : string,
    V1.GetSqlMasterDetail h ds = Returned (query, with_Params ds (Params ds), [])
    /\ query = ReplaceAll (V1.GetSql ds) LF (LF +:+ " ")
    /\ newlines_indented_twice query
    /\ (has_byte (ascii_of_nat 10) (V1.GetSql ds) = false -> query = V1.GetSql ds).
Proof.
  intros Hnone. exists (indent_newlines (V1.GetSql ds)).
  assert (Hcr : has_byte (ascii_of_nat 13) (V1.GetSql ds) = false).
  { unfold V1.GetSql, indent_newlines, ReplaceAll, CR, LF.
    apply replace_go_keeps_absent; [reflexivity|]. by apply replace_single_removes. }
  assert (Hsecond : indent_newlines (V1.GetSql ds)
                    = ReplaceAll (V1.GetSql ds) LF (LF +:+ " ")).
  { unfold indent_newlines at 1. unfold CR at 1.
    by rewrite (replace_single_absent _ _ _ Hcr). }
  split; [|split; [done|split]].
  - unfold V1.GetSqlMasterDetail, masterDetail_wrap. by rewrite Hnone.
  - rewrite Hsecond. unfold newlines_indented_twice, ReplaceAll, LF.
    intros before after Heq.
    rewrite (str_app_cons (ascii_of_nat 10) ""), str_app_nil_l in Heq.
    apply (indent_twice_after_newline_byte (ascii_of_nat 10)
             (S (String.length (V1.GetSql ds))) eq_refl (V1.GetSql ds) before after);
      [lia | | exact Heq].
    intros b a Hsplit.
    apply (indent_after_every_newline
             (ReplaceAll (foldl expandMacro (Strings.Text (Sql ds)) (Macros ds)) CR LF)
             b a).
    unfold LF. rewrite (str_app_cons (ascii_of_nat 10) ""), str_app_nil_l. exact Hsplit.
  - intros Hlf. rewrite Hsecond. unfold LF. by apply replace_single_absent.
Qed.

Section LineBreakExample.
#[local] Existing Instances Sample.helpers.

Lemma GetSqlMasterDetail_indents_line_breaks_twice_witness :
  let ds := Sample.dataset Sample.oracle ("select 1" +:+ LF +:+ "from dual") in
  exists query : string,
    V1.GetSqlMasterDetail ∅ ds = Returned (query, with_Params ds (Params ds), [])
    /\ query = ReplaceAll (V1.GetSql ds) LF (LF +:+ " ")
    /\ newlines_indented_twice query
    /\ (has_byte (ascii_of_nat 10) (V1.GetSql ds) = false -> query = V1.GetSql ds).
Proof.
  apply (GetSqlMasterDetail_indents_line_breaks_twice ∅
           (Sample.dataset Sample.oracle ("select 1" +:+ LF +:+ "from dual"))).
  reflexivity.
Defined.

End LineBreakExample.

(** ** Placeholder translation: all the parameters, on the text as written *)




















Section TranslationExamples.
#[local] Existing Instances Sample.helpers.



End TranslationExamples.
